(** * Diffusion-Planner: the lanelet map-to-tensor pipeline

    A shallow embedding of
    [ros_ws/src/diffusion_planner_ros/diffusion_planner_ros/lanelet2_utils/lanelet_converter.py]
    (map construction, polyline resampling, per-segment processing,
    nearest-N packing) and of the lane loops of
    [diffusion_planner/utils/visualize_input.py].

    Conventions of the embedding.
    - A Python/NumPy float is an exact rational ([Q]).  Rounding is not
      modelled; a division whose divisor is zero (the source of NaN and
      infinities) is modelled as the outcome [Raise NonFinite].
    - The square root ([np.linalg.norm], the planar distance of GEOS) is a
      parameter [sqrtQ : Q -> Q] of the development.
    - Python exceptions are the constructors of [exn]; a function that can
      raise returns a [result].
    - An [(n, c)] ndarray is a list of [n] rows, each a list of [c] numbers;
      an [(n, 3)] array of waypoints is a list of [Point3].
    - The conversion of float64 rows to the float32 tensor and the device
      of a tensor ([.cuda()]) are not modelled. *)

From stdpp Require Import gmap strings list pretty.
From Stdlib Require Import Ascii QArith Qabs Qround Lqa Sorted Permutation.

Local Open Scope Q_scope.

(** ** Exceptions and the error monad *)

Inductive exn : Type :=
| TypeError        (* None * float, ... *)
| ValueError       (* shape mismatch, empty concatenate, float() *)
| IndexError       (* list or array index out of range *)
| AssertionError   (* a failed assert *)
| RuntimeError     (* torch: shape mismatch in an indexed assignment *)
| GEOSException    (* shapely: invalid coordinate sequence *)
| UnboundLocalError (* a local variable read before any assignment *)
| SystemExit (code : Z) (* exit(code) *)
| NonFinite.       (* a NaN or an infinity was produced *)

Inductive result (A : Type) : Type :=
| Ok (a : A)
| Raise (e : exn).
Arguments Ok {A} a.
Arguments Raise {A} e.

Definition bind {A B : Type} (m : result A) (k : A -> result B) : result B :=
  match m with
  | Ok a => k a
  | Raise e => Raise e
  end.

Notation "'let*' x ':=' m 'in' k" := (bind m (fun x => k))
  (at level 10, x pattern, m at level 100, k at level 200).

Fixpoint mapM {A B : Type} (f : A -> result B) (l : list A) : result (list B) :=
  match l with
  | [] => Ok []
  | a :: l' => let* b := f a in let* bs := mapM f l' in Ok (b :: bs)
  end.

(** Floating-point division: a zero divisor yields NaN or an infinity. *)
Definition fdiv (a b : Q) : result Q :=
  if Qeq_bool b 0 then Raise NonFinite else Ok (a / b).

Definition Qlt_bool (a b : Q) : bool := negb (Qle_bool b a).

(** ** Geometry *)

Record Point3 : Type := mkPoint3 { px : Q; py : Q; pz : Q }.

(** A concrete square root on a fixed grid of 10^-6, used to run the
    definitions on examples: [floor (sqrt q * 10^6) / 10^6]. *)
Definition Qsqrt_fix (q : Q) : Q :=
  Z.sqrt (Qnum q * 1000000000000 / Z.pos (Qden q)) # 1000000.

(** [np.linspace(start, stop, num)]: [num] values, the last one set to
    [stop] itself when [num > 1]. *)
Definition linspace (start stop : Q) (num : nat) : list Q :=
  match num with
  | O => []
  | S O => [start]
  | S (S _ as div) =>
      let step := (stop - start) / inject_Z (Z.of_nat div) in
      map (fun i : nat => inject_Z (Z.of_nat i) * step + start) (seq 0 div) ++ [stop]
  end.

Section Resampler.

Variable sqrtQ : Q -> Q.

(** shapely is planar: lengths and linear referencing use x and y only,
    z is carried along and interpolated. *)
Definition dist2 (p q : Point3) : Q :=
  sqrtQ ((px q - px p) * (px q - px p) + (py q - py p) * (py q - py p)).

(** [LineString.length]: the segment lengths accumulated from the start. *)
Fixpoint length_from (total : Q) (pts : list Point3) : Q :=
  match pts with
  | p0 :: ((p1 :: _) as rest) => length_from (total + dist2 p0 p1) rest
  | _ => total
  end.

Definition line_length (pts : list Point3) : Q := length_from 0 pts.

(** The point at fraction [frac] of the segment [p0 p1]. *)
Definition point_along (p0 p1 : Point3) (frac : Q) : Point3 :=
  mkPoint3 (px p0 + frac * (px p1 - px p0))
           (py p0 + frac * (py p1 - py p0))
           (pz p0 + frac * (pz p1 - pz p0)).

(** GEOS linear referencing, forward search: the first segment whose end
    lies strictly beyond [d] holds the point; past the last segment the
    end of the line is returned. *)
Fixpoint locate_forward (total : Q) (pts : list Point3) (d : Q) : result Point3 :=
  match pts with
  | [] => Raise GEOSException
  | [p] => Ok p
  | p0 :: ((p1 :: _) as rest) =>
      let segLen := dist2 p0 p1 in
      if Qlt_bool d (total + segLen)
      then let* frac := fdiv (d - total) segLen in Ok (point_along p0 p1 frac)
      else locate_forward (total + segLen) rest d
  end.

(** [line.interpolate(d).coords._coords]: a [(1, 3)] array, or an array
    without rows for the empty line. *)
Definition interpolate (pts : list Point3) (d : Q) : result (list Point3) :=
  match pts with
  | [] => Ok []
  | p :: _ =>
      if Qle_bool d 0 then Ok [p]
      else let* q := locate_forward 0 pts d in Ok [q]
  end.

(** [LineString(line)]: a coordinate sequence of exactly one point is
    refused. *)
Definition LineString (line : list Point3) : result (list Point3) :=
  match line with
  | [_] => Raise GEOSException
  | _ => Ok line
  end.

(** [np.concatenate]: needs at least one array. *)
Definition np_concatenate {A : Type} (arrays : list (list A)) : result (list A) :=
  match arrays with
  | [] => Raise ValueError
  | _ => Ok (concat arrays)
  end.

Definition _interpolate_points (line : list Point3) (num_point : nat)
  : result (list Point3) :=
  let* ls := LineString line in
  let* arrays := mapM (fun d => interpolate ls d) (linspace 0 (line_length ls) num_point) in
  np_concatenate arrays.

End Resampler.

(** ** Output and the I/O monad

    [print] and the plotting calls are recorded as events; an exception
    keeps the events emitted before it. *)

Inductive event : Type :=
| Print (line : string)
| AxPlot (xs ys : list Q) (alpha linewidth : Q) (color : option string)
| AxText (x y : Q) (text : string).

Definition io (A : Type) : Type := list event * result A.

Definition io_ret {A : Type} (a : A) : io A := ([], Ok a).

Definition io_bind {A B : Type} (m : io A) (k : A -> io B) : io B :=
  match m with
  | (out, Ok a) => let '(out', r) := k a in (out ++ out', r)
  | (out, Raise e) => (out, Raise e)
  end.

Definition lift {A : Type} (r : result A) : io A := ([], r).

Definition emit (e : event) : io unit := ([e], Ok tt).

Notation "'let!' x ':=' m 'in' k" := (io_bind m (fun x => k))
  (at level 10, x pattern, m at level 100, k at level 200).

(** ** The map entities *)

(** Modelled from the spec: the semantic type tag of a polyline (the enum
    [MapType] / [BoundaryType] of the modules [map] and [polylines_base],
    which are not among the sources). *)
Inductive PolylineType : Type :=
| LaneCenter | RoadEdge | RoadLine | CrosswalkBoundary | UnknownType.

(** Modelled from the spec: the entity classes of the module [static_map]
    (not among the sources), with the fields that [convert_lanelet],
    [_fix_point_num] and [process_segment] read and write. *)
Record Polyline : Type := mkPolyline {
  polyline_type : PolylineType;
  waypoints : list Point3
}.

Record BoundarySegment : Type := mkBoundarySegment {
  boundary_id : Z;
  boundary_polyline : Polyline
}.

Record CrosswalkSegment : Type := mkCrosswalkSegment {
  crosswalk_id : Z;
  polygon : Polyline
}.

(** A traffic-light regulatory element; only its id is read. *)
Record TrafficLight : Type := mkTrafficLight { tl_id : Z }.

Record LaneSegment : Type := mkLaneSegment {
  segment_id : Z;
  polyline : Polyline;
  is_intersection : bool;
  left_boundaries : list BoundarySegment;
  right_boundaries : list BoundarySegment;
  left_neighbor_ids : list Z;
  right_neighbor_ids : list Z;
  speed_limit_mph : option Q;
  traffic_lights : list TrafficLight;
  center : Q * Q
}.

(** [lane_segments] is a dict in insertion order: an association list. *)
Record AWMLStaticMap : Type := mkAWMLStaticMap {
  map_id : string;
  lane_segments : list (Z * LaneSegment);
  crosswalk_segments : list (Z * CrosswalkSegment);
  boundary_segments : list (Z * BoundarySegment)
}.

(** [l[0]] *)
Definition index0 {A : Type} (l : list A) : result A :=
  match l with
  | [] => Raise IndexError
  | a :: _ => Ok a
  end.

Definition Qsum (l : list Q) : Q := fold_left Qplus l 0.

(** [np.mean(centerlines[:, 0:2], axis=0)]; the mean of no rows is NaN. *)
Definition mean_xy (pts : list Point3) : result (Q * Q) :=
  let n := inject_Z (Z.of_nat (length pts)) in
  let* mx := fdiv (Qsum (map px pts)) n in
  let* my := fdiv (Qsum (map py pts)) n in
  Ok (mx, my).

Definition set_waypoints (b : BoundarySegment) (w : list Point3) : BoundarySegment :=
  mkBoundarySegment (boundary_id b)
    (mkPolyline (polyline_type (boundary_polyline b)) w).

Section MapConstruction.

Variable sqrtQ : Q -> Q.

(** The body of the loop of [_fix_point_num], for one segment.  Every
    lane owns its boundary segments ([convert_lanelet] builds them per
    lane), so the in-place updates touch this segment only. *)
Definition fix_segment (segment : LaneSegment) : result LaneSegment :=
  let centerlines := waypoints (polyline segment) in
  let* left0 := index0 (left_boundaries segment) in
  let* right0 := index0 (right_boundaries segment) in
  let left_bounds := waypoints (boundary_polyline left0) in
  let right_bounds := waypoints (boundary_polyline right0) in
  let* new_center := _interpolate_points sqrtQ centerlines 20 in
  let* new_left := _interpolate_points sqrtQ left_bounds 20 in
  let* new_right := _interpolate_points sqrtQ right_bounds 20 in
  let* c := mean_xy centerlines in
  Ok (mkLaneSegment (segment_id segment)
        (mkPolyline (polyline_type (polyline segment)) new_center)
        (is_intersection segment)
        (<[0%nat := set_waypoints left0 new_left]> (left_boundaries segment))
        (<[0%nat := set_waypoints right0 new_right]> (right_boundaries segment))
        (left_neighbor_ids segment) (right_neighbor_ids segment)
        (speed_limit_mph segment) (traffic_lights segment) c).

Definition _fix_point_num (map : AWMLStaticMap) : result AWMLStaticMap :=
  let* segs := mapM (fun kv : Z * LaneSegment =>
                       let* s := fix_segment (snd kv) in Ok (fst kv, s))
                    (lane_segments map) in
  Ok (mkAWMLStaticMap (map_id map) segs (crosswalk_segments map)
        (boundary_segments map)).

End MapConstruction.

(** ** Speed limit of a lanelet *)

(** A lanelet as far as [_get_speed_limit_mph] reads it: its string
    attributes. *)
Record Lanelet : Type := mkLanelet {
  lanelet_id : Z;
  attributes : gmap string string
}.

Definition kph2mph : Q := 621371 # 1000000.

(** [parse_float] stands for Python's [float(str)]; [None] is its
    [ValueError]. *)
Definition _get_speed_limit_mph (parse_float : string -> option Q)
    (lanelet : Lanelet) : result (option Q) :=
  match attributes lanelet !! "speed_limit"%string with
  | Some s =>
      match parse_float s with
      | Some v => Ok (Some (v * kph2mph))
      | None => Raise ValueError
      end
  | None => Ok None
  end.

(** ** Processing one segment *)

Definition Row4 : Type := Q * Q * Q * Q.
Definition Mat4 : Type := Row4 * Row4 * Row4 * Row4.

Definition dot4 (r : Row4) (p : Point3) : Q :=
  let '(a, b, c, d) := r in a * px p + b * py p + c * pz p + d * 1.

(** [(M @ vstack((pts.T, ones)))[:3, :].T], for one point. *)
Definition to_base_link (m : Mat4) (p : Point3) : Point3 :=
  let '(r0, r1, r2, _) := m in mkPoint3 (dot4 r0 p) (dot4 r1 p) (dot4 r2 p).

Definition point_sub (p q : Point3) : Point3 :=
  mkPoint3 (px p - px q) (py p - py q) (pz p - pz q).

(** [a -= b] on [(m, 3)] and [(n, 3)] arrays: [b] is broadcast when it
    has one row. *)
Definition isub (a b : list Point3) : result (list Point3) :=
  if Nat.eqb (length b) (length a) then Ok (zip_with point_sub a b)
  else match b with
       | [q] => Ok (map (fun p => point_sub p q) a)
       | _ => Raise ValueError
       end.

(** [c[1:] - c[:-1]] followed by [np.insert(., shape[0], 0, axis=0)]. *)
Definition diff_rows (c : list Point3) : list Point3 :=
  zip_with point_sub (tail c) (removelast c) ++ [mkPoint3 0 0 0].

Definition xy (p : Point3) : list Q := [px p; py p].

(** [np.concatenate(arrays, axis=1)]: the row counts must agree. *)
Fixpoint concatenate_axis1 (arrays : list (list (list Q))) : result (list (list Q)) :=
  match arrays with
  | [] => Raise ValueError
  | [a] => Ok a
  | a :: rest =>
      let* b := concatenate_axis1 rest in
      if Nat.eqb (length a) (length b) then Ok (zip_with app a b)
      else Raise ValueError
  end.

Definition mph2mps : Q := 44704 # 100000.

Definition warning_more_than_one (segment : LaneSegment) : string :=
  ("Warning: more than one traffic light in segment " +:+
   pretty (segment_id segment) +:+ ", using the first one.")%string.

(** Lines 490-511 of [process_segment]: the (green, yellow, red,
    unknown) vector of one segment. *)
Definition encode_traffic_light (segment : LaneSegment)
    (traffic_light_recognition : gmap Z Z) : io (list Q) :=
  let traffic_light := [0; 0; 0; 0] in
  match traffic_lights segment with
  | [] => io_ret [0; 0; 0; 1]
  | first :: others =>
      let! _ := (match others with
                 | [] => io_ret tt
                 | _ :: _ => emit (Print (warning_more_than_one segment))
                 end) in
      let traffic_light_id := tl_id first in
      match traffic_light_recognition !! traffic_light_id with
      | Some traffic_light_color =>
          if (traffic_light_color =? 1)%Z then io_ret (<[2%nat := 1]> traffic_light)
          else if (traffic_light_color =? 2)%Z then io_ret (<[1%nat := 1]> traffic_light)
          else if (traffic_light_color =? 3)%Z then io_ret (<[0%nat := 1]> traffic_light)
          else if (traffic_light_color =? 4)%Z then io_ret (<[3%nat := 1]> traffic_light)
          else io_ret traffic_light
      | None => io_ret (<[3%nat := 1]> traffic_light)
      end
  end.

(** Lines 460-465 of [process_segment]: the centre of the segment lies
    strictly within [mask_range * 1.1] of the ego position on both axes. *)
Definition inside (segment : LaneSegment) (center_x center_y mask_range : Q) : bool :=
  Qlt_bool (center_x - mask_range * (11 # 10)) (fst (center segment))
  && Qlt_bool (fst (center segment)) (center_x + mask_range * (11 # 10))
  && Qlt_bool (center_y - mask_range * (11 # 10)) (snd (center segment))
  && Qlt_bool (snd (center segment)) (center_y + mask_range * (11 # 10)).

(** What [process_segment] returns for a segment in range: the rows of
    [line_data] and the speed limit, a Python value that may be [None]. *)
Abbreviation survivor := (list (list Q) * option Q)%type (only parsing).

Definition process_segment (segment : LaneSegment) (inv_transform_matrix_4x4 : Mat4)
    (center_x center_y mask_range : Q) (traffic_light_recognition : gmap Z Z)
  : io (option survivor) :=
  let centerlines := waypoints (polyline segment) in
  let! left0 := lift (index0 (left_boundaries segment)) in
  let! right0 := lift (index0 (right_boundaries segment)) in
  let left_bounds := waypoints (boundary_polyline left0) in
  let right_bounds := waypoints (boundary_polyline right0) in
  if negb (inside segment center_x center_y mask_range) then io_ret None
  else
    let centerlines := map (to_base_link inv_transform_matrix_4x4) centerlines in
    let left_bounds := map (to_base_link inv_transform_matrix_4x4) left_bounds in
    let right_bounds := map (to_base_link inv_transform_matrix_4x4) right_bounds in
    let! left_bounds := lift (isub left_bounds centerlines) in
    let! right_bounds := lift (isub right_bounds centerlines) in
    let diff_centerlines := diff_rows centerlines in
    let! traffic_light := encode_traffic_light segment traffic_light_recognition in
    let traffic_light := replicate (length centerlines) traffic_light in
    let! line_data :=
      lift (concatenate_axis1
              [map xy centerlines; map xy diff_centerlines;
               map xy left_bounds; map xy right_bounds; traffic_light]) in
    let! speed_limit_mps :=
      lift (match speed_limit_mph segment with
            | Some v => Ok (v * mph2mps)
            | None => Raise TypeError
            end) in
    io_ret (Some (line_data, Some speed_limit_mps)).

(** ** Selection and packing *)

(** Python's [sorted] is stable and compares the keys with [<]; the keys
    are computed before any comparison. *)
Fixpoint insert_by_key {A : Type} (x : Q * A) (l : list (Q * A)) : list (Q * A) :=
  match l with
  | [] => [x]
  | y :: l' =>
      if Qlt_bool (fst y) (fst x) then y :: insert_by_key x l'
      else x :: y :: l'
  end.

Definition stable_sort {A : Type} (l : list (Q * A)) : list (Q * A) :=
  foldr insert_by_key [] l.

Definition decorate {A : Type} (key : A -> result Q) (l : list A)
  : result (list (Q * A)) :=
  mapM (fun a => let* k := key a in Ok (k, a)) l.

Definition py_sorted {A : Type} (key : A -> result Q) (l : list A) : result (list A) :=
  let* keyed := decorate key l in
  Ok (map snd (stable_sort keyed)).

(** Broadcasting of a list to [n] entries: kept when it has [n], repeated
    when it has one. *)
Definition expand {A : Type} (n : nat) (l : list A) : result (list A) :=
  if Nat.eqb (length l) n then Ok l
  else match l with
       | [x] => Ok (replicate n x)
       | _ => Raise RuntimeError
       end.

(** The value stored by [lanes_tensor[0, i] = torch.from_numpy(line_data)]:
    [line_data] broadcast to the shape [(20, 12)] of the slot. *)
Definition broadcast_20x12 (line_data : list (list Q)) : result (list (list Q)) :=
  let* rows := mapM (expand 12) line_data in
  expand 20 rows.

Definition zeros_row : list (list Q) := replicate 20 (replicate 12 0).

(** The three tensors of shapes [(1, N, 20, 12)], [(1, N, 1)] and
    [(1, N, 1)]; the outer list is the batch dimension. *)
Definition tensors : Type :=
  list (list (list (list Q))) * list (list (list Q)) * list (list (list bool)).

(** The state of the filling loop: batch entry 0 of each tensor. *)
Definition slots : Type :=
  list (list (list Q)) * list (list Q) * list (list bool).

(** Lines 569-574: [for i, result_list in enumerate(result_list)]. *)
Fixpoint fill_rows (i : nat) (result_list : list survivor) (st : slots) : result slots :=
  match result_list with
  | [] => Ok st
  | (line_data, speed_limit) :: rest =>
      let '(lanes, speeds, flags) := st in
      let* row := broadcast_20x12 line_data in
      let lanes := <[i := row]> lanes in
      match speed_limit with
      | None => Raise AssertionError
      | Some v =>
          let speeds := <[i := [v]]> speeds in
          let flags := <[i := [true]]> flags in
          fill_rows (S i) rest (lanes, speeds, flags)
      end
  end.

Section Packing.

Variable sqrtQ : Q -> Q.

(** [np.linalg.norm] of a vector. *)
Definition norm (v : list Q) : Q := sqrtQ (Qsum (map (fun x => x * x) v)).

(** [lambda tup: np.linalg.norm(tup[0][0, :2])] *)
Definition sort_key (tup : survivor) : result Q :=
  match fst tup with
  | [] => Raise IndexError
  | row0 :: _ => Ok (norm (take 2 row0))
  end.

(** Lines 555-576 of [create_lane_tensor]: sort, truncate, allocate and
    fill.  [num_segments] is a [nat]: a negative capacity is refused by
    [torch.zeros]. *)
Definition pack (result_list : list survivor) (num_segments : nat) : result tensors :=
  let* result_list := py_sorted sort_key result_list in
  let result_list := take num_segments result_list in
  let lanes_tensor := replicate num_segments zeros_row in
  let lanes_speed_limit := replicate num_segments [0] in
  let lanes_has_speed_limit := replicate num_segments [false] in
  let* (lanes, speeds, flags) :=
    fill_rows 0 result_list (lanes_tensor, lanes_speed_limit, lanes_has_speed_limit) in
  Ok ([lanes], [speeds], [flags]).

(** Lines 541-553 of [create_lane_tensor]: the survivors, in input order. *)
Fixpoint collect (lane_segments : list LaneSegment) (map2bl_mat4x4 : Mat4)
    (center_x center_y mask_range : Q) (traffic_light_recognition : gmap Z Z)
  : io (list survivor) :=
  match lane_segments with
  | [] => io_ret []
  | segment :: rest =>
      let! curr_data := process_segment segment map2bl_mat4x4 center_x center_y
                          mask_range traffic_light_recognition in
      let! result_list := collect rest map2bl_mat4x4 center_x center_y mask_range
                            traffic_light_recognition in
      io_ret (match curr_data with
              | None => result_list
              | Some d => d :: result_list
              end)
  end.

Definition create_lane_tensor (lane_segments : list LaneSegment) (map2bl_mat4x4 : Mat4)
    (center_x center_y mask_range : Q) (traffic_light_recognition : gmap Z Z)
    (num_segments : nat) : io tensors :=
  let! result_list := collect lane_segments map2bl_mat4x4 center_x center_y
                        mask_range traffic_light_recognition in
  lift (pack result_list num_segments).

End Packing.

(** ** The lane loops of [visualize_inputs]

    Lines 194-343 of [visualize_input.py].  The function's local variables
    [left_x], [left_y], [next_left_x] and [next_left_y] outlive the loops
    that assign them and are read by [ax.text] after the inner loop; they
    are threaded through as [locals]. *)

Record locals : Type := mkLocals {
  left_x : option Q;
  left_y : option Q;
  next_left_x : option Q;
  next_left_y : option Q
}.

Definition no_locals : locals := mkLocals None None None None.

(** [a[k]] on a 1-d array. *)
Definition item (a : list Q) (k : nat) : result Q :=
  match a !! k with
  | Some x => Ok x
  | None => Raise IndexError
  end.

(** Reading a local variable. *)
Definition read_local (v : option Q) : result Q :=
  match v with
  | Some x => Ok x
  | None => Raise UnboundLocalError
  end.

(** [np.sum(np.abs(lane_point[:4])) < 1e-6] *)
Definition masked (lane_point : list Q) : bool :=
  Qlt_bool (Qsum (map Qabs (take 4 lane_point))) (1 # 1000000).

(** The colour chosen from [lane_point[8:12]]. *)
Definition light_color (lane_point : list Q) : result (option string) :=
  let traffic_light := take 4 (drop 8 lane_point) in
  let* t0 := item traffic_light 0 in
  if Qeq_bool t0 1 then Ok (Some "green"%string)
  else
    let* t1 := item traffic_light 1 in
    if Qeq_bool t1 1 then Ok (Some "yellow"%string)
    else
      let* t2 := item traffic_light 2 in
      if Qeq_bool t2 1 then Ok (Some "red"%string)
      else
        let* t3 := item traffic_light 3 in
        if Qeq_bool t3 1 then Ok (Some "gray"%string)
        else Ok None.

(** The drawing of one unmasked point, shared by both loops up to the
    [alpha] and [linewidth] of the three [ax.plot] calls.  [rest] holds
    the points after [lane_point]: [j + 1 < shape[1]] iff it is not
    empty. *)
Definition draw_point (alpha_center alpha_bound linewidth : Q)
    (lane_point : list Q) (rest : list (list Q)) (color : option string)
    (st : locals) : io locals :=
  let! x := lift (item lane_point 0) in
  let! lx := lift (item lane_point 4) in
  let! y := lift (item lane_point 1) in
  let! ly := lift (item lane_point 5) in
  let! rx := lift (item lane_point 6) in
  let! ry := lift (item lane_point 7) in
  let l_x := x + lx in
  let l_y := y + ly in
  let r_x := x + rx in
  let r_y := y + ry in
  match rest with
  | [] => io_ret (mkLocals (Some l_x) (Some l_y) (next_left_x st) (next_left_y st))
  | next_point :: _ =>
      let! nx := lift (item next_point 0) in
      let! ny := lift (item next_point 1) in
      let! _ := emit (AxPlot [x; nx] [y; ny] alpha_center linewidth color) in
      let! nlx := lift (item next_point 4) in
      let! nly := lift (item next_point 5) in
      let nl_x := nx + nlx in
      let nl_y := ny + nly in
      let! _ := emit (AxPlot [l_x; nl_x] [l_y; nl_y] alpha_bound linewidth color) in
      let! nrx := lift (item next_point 6) in
      let! nry := lift (item next_point 7) in
      let! _ := emit (AxPlot [r_x; nx + nrx] [r_y; ny + nry] alpha_bound linewidth color) in
      io_ret (mkLocals (Some l_x) (Some l_y) (Some nl_x) (Some nl_y))
  end.

(** Lines 200-251: the points of one row of [lanes]. *)
Fixpoint lanes_points (pts : list (list Q)) (st : locals) : io locals :=
  match pts with
  | [] => io_ret st
  | lane_point :: rest =>
      let! color := lift (light_color lane_point) in
      if masked lane_point then lanes_points rest st
      else
        let! st := draw_point (1 # 10) (25 # 100) 1 lane_point rest color st in
        lanes_points rest st
  end.

(** Lines 199-251: the loop over the rows of [lanes]. *)
Fixpoint lanes_loop (lanes : list (list (list Q))) (st : locals) : io locals :=
  match lanes with
  | [] => io_ret st
  | row :: rows => let! st := lanes_points row st in lanes_loop rows st
  end.

(** Lines 268-320: the points of one row of [route_lanes], with the list
    [skipped]. *)
Fixpoint route_points (pts : list (list Q)) (st : locals) : io (list bool * locals) :=
  match pts with
  | [] => io_ret ([], st)
  | lane_point :: rest =>
      if masked lane_point then
        let! (skipped, st) := route_points rest st in
        io_ret (true :: skipped, st)
      else
        let! color := lift (light_color lane_point) in
        let! st := draw_point (1 # 2) (1 # 2) 2 lane_point rest color st in
        let! (skipped, st) := route_points rest st in
        io_ret (false :: skipped, st)
  end.

(** [sum(skipped)] *)
Definition num_true (skipped : list bool) : nat :=
  sum_list (map (fun b : bool => if b then 1%nat else 0%nat) skipped).

(** Lines 266-343: the loop over the rows of [route_lanes], from row [i]. *)
Fixpoint route_loop (i : nat) (route_lanes : list (list (list Q))) (st : locals)
  : io locals :=
  match route_lanes with
  | [] => io_ret st
  | row :: rows =>
      let! (skipped, st) := route_points row st in
      let num_skipped := num_true skipped in
      let! _ := (if negb (Nat.eqb num_skipped 0) && negb (Nat.eqb num_skipped 20)
                 then let! _ := emit (Print (pretty num_skipped)) in
                      lift (Raise (SystemExit 0))
                 else io_ret tt) in
      let! _ := (if negb (Nat.eqb num_skipped 20)
                 then
                   let! a := lift (read_local (left_x st)) in
                   let! b := lift (read_local (next_left_x st)) in
                   let! c := lift (read_local (left_y st)) in
                   let! d := lift (read_local (next_left_y st)) in
                   emit (AxText ((a + b) / 2) ((c + d) / 2)
                           ("Route" +:+ pretty i)%string)
                 else io_ret tt) in
      route_loop (S i) rows st
  end.

(** Lines 194-343: both loops, on batch entry 0 of [inputs["lanes"]] and
    of [inputs["route_lanes"]]. *)
Definition visualize_lanes (lanes route_lanes : list (list (list Q))) : io locals :=
  let! st := lanes_loop lanes no_locals in
  route_loop 0 route_lanes st.

(** ** Resampling at a fixed spacing: [_interpolate_lane] *)

(** [np.arange(0, stop, step)]: the multiples of [step] below [stop]. *)
Definition np_arange (stop step : Q) : list Q :=
  map (fun i : nat => inject_Z (Z.of_nat i) * step)
      (seq 0 (Z.to_nat (Qceiling (stop / step)))).

(** [np.interp] at one value [x] with [xp[0] <= x <= xp[-1]] and [xp]
    non-decreasing: the last knot at or below [x] is searched from the
    left; the value of a knot that is hit, or of the last knot, is
    returned as it is, without a division. *)
Fixpoint np_interp (x : Q) (xp fp : list Q) : result Q :=
  match xp, fp with
  | [_], [y0] => Ok y0
  | x0 :: ((x1 :: _) as xp'), y0 :: ((y1 :: _) as fp') =>
      if Qle_bool x1 x then np_interp x xp' fp'
      else if Qeq_bool x0 x then Ok y0
      else let* slope := fdiv (y1 - y0) (x1 - x0) in Ok (slope * (x - x0) + y0)
  | _, _ => Raise ValueError
  end.

(** A call of [interp1d(x, y, kind="linear")] at [x_new]: values outside
    the range of [x] are refused; inside, one-dimensional float data are
    handed to [np.interp].  The arc lengths [x] are non-decreasing, so
    that the sort by [x] inside [interp1d] leaves them in place. *)
Definition interp1d (x y : list Q) (x_new : Q) : result Q :=
  match head x, last x with
  | Some lo, Some hi =>
      if Qlt_bool x_new lo || Qlt_bool hi x_new then Raise ValueError
      else np_interp x_new x y
  | _, _ => Raise ValueError
  end.

(** [np.allclose(a, b)] on two points, with the default tolerances. *)
Definition close (a b : Q) : bool :=
  Qle_bool (Qabs (a - b)) ((1 # 100000000) + (1 # 100000) * Qabs b).

Definition allclose (p q : Point3) : bool :=
  close (px p) (px q) && close (py p) (py q) && close (pz p) (pz q).

(** [zip] of three coordinate arrays into rows. *)
Fixpoint vstack_T (xs ys zs : list Q) : list Point3 :=
  match xs, ys, zs with
  | x :: xs', y :: ys', z :: zs' => mkPoint3 x y z :: vstack_T xs' ys' zs'
  | _, _, _ => []
  end.

Section FixedSpacing.

Variable sqrtQ : Q -> Q.

(** [np.linalg.norm(q - p)] in three dimensions. *)
Definition norm3 (p q : Point3) : Q :=
  norm sqrtQ [px q - px p; py q - py p; pz q - pz p].

(** The cumulative distances after a vertex at distance [prev]. *)
Fixpoint cumulative (prev : Q) (p : Point3) (rest : list Point3) : list Q :=
  match rest with
  | [] => []
  | q :: rest' =>
      let d := prev + norm3 p q in d :: cumulative d q rest'
  end.

Definition arc_lengths (waypoints : list Point3) : list Q :=
  match waypoints with
  | [] => []
  | p :: rest => 0 :: cumulative 0 p rest
  end.

Definition _interpolate_lane (waypoints : list Point3) : result (list Point3) :=
  let distances := arc_lengths waypoints in
  let* total := (match last distances with
                 | Some d => Ok d
                 | None => Raise IndexError
                 end) in
  let new_distances := np_arange total (1 # 2) ++ [total] in
  let* xs := mapM (interp1d distances (map px waypoints)) new_distances in
  let* ys := mapM (interp1d distances (map py waypoints)) new_distances in
  let* zs := mapM (interp1d distances (map pz waypoints)) new_distances in
  let new_waypoints := vstack_T xs ys zs in
  let* first_new := index0 new_waypoints in
  let* first_old := index0 waypoints in
  let new_waypoints :=
    if negb (allclose first_new first_old) then first_old :: new_waypoints
    else new_waypoints in
  match last new_waypoints, last waypoints with
  | Some last_new, Some last_old =>
      if negb (allclose last_new last_old) then Ok (new_waypoints ++ [last_old])
      else Ok new_waypoints
  | _, _ => Raise IndexError
  end.

End FixedSpacing.

(** ** Building the map: [convert_lanelet]

    Lines 65-219, 242-294 and 354-425 of [lanelet_converter.py].  The
    lanelet2 primitives are records of what the converter reads of them;
    loading the file and building the routing graph (lines 349-352) are
    lanelet2's, so that the loaded map and its routing graph are
    arguments. *)

(** The outcomes of the map construction: a value, the [KeyError] of a
    dict or an attribute map that lacks the key, or an exception of the
    resampling and parsing functions. *)
Inductive built (A : Type) : Type :=
| Built (a : A)
| KeyError (key : string)
| Failed (e : exn).
Arguments Built {A} a.
Arguments KeyError {A} key.
Arguments Failed {A} e.

Definition built_bind {A B : Type} (m : built A) (k : A -> built B) : built B :=
  match m with
  | Built a => k a
  | KeyError key => KeyError key
  | Failed e => Failed e
  end.

Notation "'let?' x ':=' m 'in' k" := (built_bind m (fun x => k))
  (at level 10, x pattern, m at level 100, k at level 200).

Definition of_result {A : Type} (r : result A) : built A :=
  match r with
  | Ok a => Built a
  | Raise e => Failed e
  end.

(** [d[key]] on a dict or an attribute map. *)
Definition getitem {V : Type} (d : gmap string V) (key : string) : built V :=
  match d !! key with
  | Some v => Built v
  | None => KeyError key
  end.

(** [d[k] = v] on a dict in insertion order: the value of a key that is
    present is replaced where it stands. *)
Fixpoint dict_set {V : Type} (k : Z) (v : V) (d : list (Z * V)) : list (Z * V) :=
  match d with
  | [] => [(k, v)]
  | (k', v') :: d' =>
      if (k' =? k)%Z then (k, v) :: d' else (k', v') :: dict_set k v d'
  end.

(** A [for] loop whose body can raise. *)
Fixpoint for_each {A S : Type} (body : S -> A -> built S) (l : list A) (st : S)
  : built S :=
  match l with
  | [] => Built st
  | a :: l' => let? st' := body st a in for_each body l' st'
  end.

Record LineString3d : Type := mkLineString3d {
  linestring_id : Z;
  linestring_attributes : gmap string string;
  (** [[(line.x, line.y, line.z) for line in linestring]] *)
  linestring_points : list Point3
}.

Record RegulatoryElement : Type := mkRegulatoryElement {
  regulatory_id : Z;
  regulatory_attributes : gmap string string
}.

(** A lanelet of the lanelet layer: its id and attributes ([Lanelet]) and
    its geometry and traffic lights. *)
Record LaneletPrimitive : Type := mkLaneletPrimitive {
  lanelet_of : Lanelet;
  centerline : list Point3;
  leftBound : LineString3d;
  rightBound : LineString3d;
  polygon3d : list Point3;
  trafficLights : list TrafficLight
}.

Record LaneletMap : Type := mkLaneletMap {
  regulatoryElementLayer : list RegulatoryElement;
  laneletLayer : list LaneletPrimitive;
  lineStringLayer : list LineString3d
}.

(** [routing_graph.left] and [routing_graph.right]: the routable
    neighbour of a lanelet, if there is one. *)
Record RoutingGraph : Type := mkRoutingGraph {
  graph_left : LaneletPrimitive -> option LaneletPrimitive;
  graph_right : LaneletPrimitive -> option LaneletPrimitive
}.

Definition _get_lanelet_subtype (lanelet : Lanelet) : string :=
  match attributes lanelet !! "subtype"%string with
  | Some subtype => subtype
  | None => ""%string
  end.

Definition _get_linestring_type (linestring : LineString3d) : string :=
  match linestring_attributes linestring !! "type"%string with
  | Some type => type
  | None => ""%string
  end.

Definition _get_linestring_subtype (linestring : LineString3d) : string :=
  match linestring_attributes linestring !! "subtype"%string with
  | Some subtype => subtype
  | None => ""%string
  end.

Definition _is_virtual_linestring (line_type line_subtype : string) : bool :=
  bool_decide (line_type = "virtual"%string) && bool_decide (line_subtype = ""%string).

Definition _is_intersection (lanelet : Lanelet) : bool :=
  bool_decide (is_Some (attributes lanelet !! "turn_direction"%string)).

Definition _get_left_and_right_linestring (lanelet : LaneletPrimitive)
  : LineString3d * LineString3d :=
  (leftBound lanelet, rightBound lanelet).

Definition _get_left_and_right_neighbor_ids (lanelet : LaneletPrimitive)
    (routing_graph : RoutingGraph) : list Z * list Z :=
  let left_lanelet := graph_left routing_graph lanelet in
  let right_lanelet := graph_right routing_graph lanelet in
  let left_neighbor_id :=
    match left_lanelet with
    | Some l => [lanelet_id (lanelet_of l)]
    | None => []
    end in
  let right_neighbor_id :=
    match right_lanelet with
    | Some l => [lanelet_id (lanelet_of l)]
    | None => []
    end in
  (left_neighbor_id, right_neighbor_id).

(** The state of the loop over the lanelet layer. *)
Record lanelet_loop : Type := mkLaneletLoop {
  loop_lane_segments : list (Z * LaneSegment);
  loop_crosswalk_segments : list (Z * CrosswalkSegment);
  taken_boundary_ids : list Z
}.

Section Conversion.

(** The constants of the module [constant] and the function [uuid], which
    are not among the sources, the square root and [float(str)]. *)
Variable T4_LANE T4_ROADEDGE T4_ROADLINE : list string.
Variable MAP_TYPE_MAPPING : gmap string PolylineType.
Variable uuid : string -> nat -> string.
Variable sqrtQ : Q -> Q.
Variable parse_float : string -> option Q.

Definition _is_roadedge_linestring (line_type _line_subtype : string) : bool :=
  bool_decide (line_type ∈ T4_ROADEDGE).

Definition _is_roadline_linestring (_line_type line_subtype : string) : bool :=
  bool_decide (line_subtype ∈ T4_ROADLINE).

(** [MapType.UNKNOWN] is [UnknownType]. *)
Definition _get_boundary_type (linestring : LineString3d) : built PolylineType :=
  let line_type := _get_linestring_type linestring in
  let line_subtype := _get_linestring_subtype linestring in
  if _is_virtual_linestring line_type line_subtype then Built UnknownType
  else if _is_roadedge_linestring line_type line_subtype
       then getitem MAP_TYPE_MAPPING line_type
  else if _is_roadline_linestring line_type line_subtype
       then getitem MAP_TYPE_MAPPING line_subtype
  else Built UnknownType.

Definition _get_boundary_segment (linestring : LineString3d) : built BoundarySegment :=
  let? boundary_type := _get_boundary_type linestring in
  let? waypoints := of_result (_interpolate_lane sqrtQ (linestring_points linestring)) in
  let polyline := mkPolyline boundary_type waypoints in
  Built (mkBoundarySegment (linestring_id linestring) polyline).

(** Lines 358-361: every regulatory element is asked for its subtype. *)
Definition traffic_light_elements (elements : list RegulatoryElement)
  : built (list RegulatoryElement) :=
  for_each (fun traffic_lights regulatory_element =>
              let? subtype := getitem (regulatory_attributes regulatory_element)
                                "subtype" in
              if bool_decide (subtype = "traffic_light"%string)
              then Built (traffic_lights ++ [regulatory_element])
              else Built traffic_lights)
           elements [].

(** Lines 363-406: the body of the loop over the lanelet layer.  The
    [center] of a new lane segment is assigned by [_fix_point_num]; until
    then the field holds [(0, 0)]. *)
Definition convert_one (routing_graph : RoutingGraph) (st : lanelet_loop)
    (lanelet : LaneletPrimitive) : built lanelet_loop :=
  let lanelet_subtype := _get_lanelet_subtype (lanelet_of lanelet) in
  let id := lanelet_id (lanelet_of lanelet) in
  if bool_decide (lanelet_subtype ∈ T4_LANE) then
    let? lane_type := getitem MAP_TYPE_MAPPING lanelet_subtype in
    let? lane_waypoints := of_result (_interpolate_lane sqrtQ (centerline lanelet)) in
    let lane_polyline := mkPolyline lane_type lane_waypoints in
    let is_intersection := _is_intersection (lanelet_of lanelet) in
    let '(left_neighbor_ids, right_neighbor_ids) :=
      _get_left_and_right_neighbor_ids lanelet routing_graph in
    let? speed_limit_mph :=
      of_result (_get_speed_limit_mph parse_float (lanelet_of lanelet)) in
    let '(left_linestring, right_linestring) :=
      _get_left_and_right_linestring lanelet in
    let? left_boundary := _get_boundary_segment left_linestring in
    let? right_boundary := _get_boundary_segment right_linestring in
    let taken := taken_boundary_ids st
                 ++ [linestring_id left_linestring; linestring_id right_linestring] in
    let segment :=
      mkLaneSegment id lane_polyline is_intersection [left_boundary] [right_boundary]
        left_neighbor_ids right_neighbor_ids speed_limit_mph
        (trafficLights lanelet) (0, 0) in
    Built (mkLaneletLoop (dict_set id segment (loop_lane_segments st))
             (loop_crosswalk_segments st) taken)
  else if bool_decide (lanelet_subtype = "crosswalk"%string) then
    let? waypoints := of_result (_interpolate_lane sqrtQ (polygon3d lanelet)) in
    let? polygon_type := getitem MAP_TYPE_MAPPING lanelet_subtype in
    let polygon := mkPolyline polygon_type waypoints in
    Built (mkLaneletLoop (loop_lane_segments st)
             (dict_set id (mkCrosswalkSegment id polygon) (loop_crosswalk_segments st))
             (taken_boundary_ids st))
  else Built st.

(** Lines 408-414: the body of the loop over the linestring layer. *)
Definition convert_linestring (taken : list Z)
    (boundary_segments : list (Z * BoundarySegment)) (linestring : LineString3d)
  : built (list (Z * BoundarySegment)) :=
  let type_name := _get_linestring_type linestring in
  if (bool_decide (type_name ∈ T4_ROADEDGE) || bool_decide (type_name ∈ T4_ROADLINE))
     && bool_decide (linestring_id linestring ∉ taken)
  then
    let? segment := _get_boundary_segment linestring in
    Built (dict_set (linestring_id linestring) segment boundary_segments)
  else Built boundary_segments.

Definition convert_lanelet (filename : string) (lanelet_map : LaneletMap)
    (routing_graph : RoutingGraph) : built AWMLStaticMap :=
  let? traffic_lights := traffic_light_elements (regulatoryElementLayer lanelet_map) in
  let? st := for_each (convert_one routing_graph) (laneletLayer lanelet_map)
               (mkLaneletLoop [] [] []) in
  let? boundary_segments :=
    for_each (convert_linestring (taken_boundary_ids st))
      (lineStringLayer lanelet_map) [] in
  let map_id := uuid filename 16 in
  let map := mkAWMLStaticMap map_id (loop_lane_segments st)
               (loop_crosswalk_segments st) boundary_segments in
  of_result (_fix_point_num sqrtQ map).

End Conversion.

(** * Specifications

    The vocabulary of the statements: shapes, the sorted and packed
    lists as the spec describes them, and the outcomes of a computation. *)

(** ** Resampled polylines *)

(** The three polylines of a lane that [_fix_point_num] resamples. *)
Definition lane_polylines (s : LaneSegment) : list (list Point3) :=
  [waypoints (polyline s);
   default [] (waypoints ∘ boundary_polyline <$> head (left_boundaries s));
   default [] (waypoints ∘ boundary_polyline <$> head (right_boundaries s))].



(** ** Sorting by a key *)

(** The order of the decorated list: by the key alone. *)
Definition key_le {A : Type} (x y : Q * A) : Prop := fst x <= fst y.


(** The list sorted by the total key [d]. *)
Definition sort_by {A : Type} (d : A -> Q) (l : list A) : list A :=
  map snd (stable_sort (map (fun a => (d a, a)) l)).

(** A decorated element carries the key of its value. *)
Definition keyed {A : Type} (d : A -> Q) (x : Q * A) : Prop := fst x = d (snd x).

(** ** The packed tensors *)

(** A survivor as [process_segment] delivers it for a 20-point lane: 20
    rows of 12 channels and a speed limit. *)
Definition well_shaped (tup : survivor) : Prop :=
  length (fst tup) = 20%nat
  /\ Forall (fun r => length r = 12%nat) (fst tup)
  /\ is_Some (snd tup).

(** The distance from the origin to the first centerline point: channels
    0 and 1 of row 0. *)
Definition first_point_distance (sqrtQ : Q -> Q) (tup : survivor) : Q :=
  norm sqrtQ (take 2 (default [] (head (fst tup)))).

Definition speed_entry (tup : survivor) : list Q := [default 0 (snd tup)].

(** The survivors that are kept: the first [N] in order of distance. *)
Definition kept (sqrtQ : Q -> Q) (result_list : list survivor) (N : nat)
  : list survivor :=
  take N (sort_by (first_point_distance sqrtQ) result_list).

(** The packed tensors, as the spec describes them: the kept survivors in
    order, then zero rows, zero speed limits and false flags up to [N]. *)
Definition packed (sqrtQ : Q -> Q) (result_list : list survivor) (N : nat) : tensors :=
  let k := kept sqrtQ result_list N in
  ([map fst k ++ replicate (N - length k) zeros_row],
   [map speed_entry k ++ replicate (N - length k) [0]],
   [replicate (length k) [true] ++ replicate (N - length k) [false]]).

(** ** The rows of a lane *)

(** A lane as [_fix_point_num] leaves it: it has its boundary segments
    and its three polylines have 20 points. *)
Definition twenty_points (s : LaneSegment) : Prop :=
  left_boundaries s <> [] /\ right_boundaries s <> []
  /\ Forall (fun w => length w = 20%nat) (lane_polylines s).

(** The rows of [line_data] for a lane in range and the traffic-light
    vector [tl]: per point, the centerline xy, the difference to the next
    centerline point, the two boundary offsets and [tl]. *)
Definition line_data_of (m : Mat4) (s : LaneSegment) (tl : list Q) : list (list Q) :=
  match lane_polylines s with
  | [c; l; r] =>
      let c := map (to_base_link m) c in
      let l := zip_with point_sub (map (to_base_link m) l) c in
      let r := zip_with point_sub (map (to_base_link m) r) c in
      zip_with app (map xy c)
        (zip_with app (map xy (diff_rows c))
           (zip_with app (map xy l)
              (zip_with app (map xy r) (replicate (length c) tl))))
  | _ => []
  end.

(** ** The lanes in range *)

(** A lane that [create_lane_tensor] can pack: 20-point polylines, and a
    speed limit if it lies in range. *)
Definition packable (cx cy r : Q) (s : LaneSegment) : Prop :=
  twenty_points s /\ (inside s cx cy r = true -> is_Some (speed_limit_mph s)).

(** The traffic-light vector of a segment. *)
Definition traffic_vector (s : LaneSegment) (tlr : gmap Z Z) : list Q :=
  match snd (encode_traffic_light s tlr) with
  | Ok tl => tl
  | Raise _ => []
  end.

(** The transformed form of a lane in range. *)
Definition transformed (m : Mat4) (tlr : gmap Z Z) (s : LaneSegment) : survivor :=
  (line_data_of m s (traffic_vector s tlr),
   (fun v => v * mph2mps) <$> speed_limit_mph s).

(** The lanes in range, in input order. *)
Definition in_range (cx cy r : Q) (segs : list LaneSegment) : list LaneSegment :=
  List.filter (fun s => inside s cx cy r) segs.

Definition survivors (m : Mat4) (cx cy r : Q) (tlr : gmap Z Z)
    (segs : list LaneSegment) : list survivor :=
  map (transformed m tlr) (in_range cx cy r segs).

(** ** The traffic-light policy and outcomes *)

(** Exactly one of the four channels is 1 and the others are 0. *)
Definition one_hot (tl : list Q) : Prop :=
  exists i, (i < 4)%nat /\ tl = <[i := 1]> [0; 0; 0; 0].

(** The vector that the policy of the spec assigns to a segment whose
    observed codes are red (1), amber (2), green (3) or white (4). *)
Definition policy_vector (s : LaneSegment) (tlr : gmap Z Z) : list Q :=
  match traffic_lights s with
  | [] => [0; 0; 0; 1]
  | first :: _ =>
      match tlr !! tl_id first with
      | None => [0; 0; 0; 1]
      | Some code =>
          if (code =? 1)%Z then [0; 0; 1; 0]
          else if (code =? 2)%Z then [0; 1; 0; 0]
          else if (code =? 3)%Z then [1; 0; 0; 0]
          else [0; 0; 0; 1]
      end
  end.

(** The diagnostic of the policy: one line when more than one traffic
    light is attached. *)
Definition policy_output (s : LaneSegment) : list event :=
  match traffic_lights s with
  | _ :: _ :: _ => [Print (warning_more_than_one s)]
  | _ => []
  end.

Definition raises {A : Type} (c : io A) : Prop := exists out e, c = (out, Raise e).

(** ** Masking *)





(** ** Resampled points *)

(** [q] lies on the segment from [p0] to [p1], short of [p1]. *)
Definition on_segment (p0 p1 q : Point3) : Prop :=
  exists t, 0 <= t /\ t < 1 /\ q = point_along p0 p1 t.

(** [q] is a vertex of [line] or lies on the segment between two
    consecutive vertices. *)
Definition on_polyline (line : list Point3) (q : Point3) : Prop :=
  q ∈ line
  \/ exists i p0 p1, line !! i = Some p0 /\ line !! S i = Some p1 /\ on_segment p0 p1 q.

(** Equality of points up to the equality of rationals. *)
Definition Peq (p q : Point3) : Prop :=
  px p == px q /\ py p == py q /\ pz p == pz q.

(** The number of arc lengths at which [_interpolate_lane] samples a
    polyline: the multiples of 0.5 below the total length, and the total
    length. *)
Definition lane_samples (sqrtQ : Q -> Q) (w : list Point3) : nat :=
  S (Z.to_nat (Qceiling (default 0 (last (arc_lengths sqrtQ w)) / (1 # 2)))).

(** The value of the interpolant of a two-point line at [x]. *)
Definition on_chord (total y0 y1 x : Q) : Q :=
  if Qeq_bool 0 x then y0 else (y1 - y0) / (total - 0) * (x - 0) + y0.

(** ** Packing *)

(** A lane that has its two lists of boundary segments. *)
Definition has_boundaries (s : LaneSegment) : Prop :=
  left_boundaries s <> [] /\ right_boundaries s <> [].

(** The exceptions that [create_lane_tensor] can end in. *)
Definition packing_exception (e : exn) : Prop :=
  e = IndexError \/ e = ValueError \/ e = TypeError \/ e = RuntimeError.

(** ** Drawing a packed lane *)

(** The colour that belongs to the traffic-light state of a segment: the
    observed code of its first traffic light, green (3), amber (2), red
    (1) or white (4); gray for a lane without traffic light or without
    observation; none for any other code. *)
Definition drawn_color (s : LaneSegment) (tlr : gmap Z Z) : option string :=
  match traffic_lights s with
  | [] => Some "gray"%string
  | first :: _ =>
      match tlr !! tl_id first with
      | None => Some "gray"%string
      | Some code =>
          if (code =? 3)%Z then Some "green"%string
          else if (code =? 2)%Z then Some "yellow"%string
          else if (code =? 1)%Z then Some "red"%string
          else if (code =? 4)%Z then Some "gray"%string
          else None
      end
  end.

(** An [ax.plot] call in the colour [color]. *)
Definition plotted_in (color : option string) (e : event) : Prop :=
  exists xs ys alpha linewidth, e = AxPlot xs ys alpha linewidth color.

(** A row of 20 points with 12 channels, all of them masked: a padding
    row. *)
Definition fully_masked (row : list (list Q)) : Prop :=
  length row = 20%nat
  /\ Forall (fun p => length p = 12%nat /\ masked p = true) row.

(** ** Vocabulary of the map construction *)

(** [s'] is [s] up to the waypoints of its centerline and of its first
    left and right boundary, and its centre, which is the mean of the x
    and y of the centerline of [s]. *)
Definition same_lane (s s' : LaneSegment) : Prop :=
  segment_id s' = segment_id s
  /\ polyline_type (polyline s') = polyline_type (polyline s)
  /\ is_intersection s' = is_intersection s
  /\ left_neighbor_ids s' = left_neighbor_ids s
  /\ right_neighbor_ids s' = right_neighbor_ids s
  /\ speed_limit_mph s' = speed_limit_mph s
  /\ traffic_lights s' = traffic_lights s
  /\ map boundary_id (left_boundaries s') = map boundary_id (left_boundaries s)
  /\ map boundary_id (right_boundaries s') = map boundary_id (right_boundaries s)
  /\ map (polyline_type ∘ boundary_polyline) (left_boundaries s')
     = map (polyline_type ∘ boundary_polyline) (left_boundaries s)
  /\ map (polyline_type ∘ boundary_polyline) (right_boundaries s')
     = map (polyline_type ∘ boundary_polyline) (right_boundaries s)
  /\ tail (left_boundaries s') = tail (left_boundaries s)
  /\ tail (right_boundaries s') = tail (right_boundaries s)
  /\ mean_xy (waypoints (polyline s)) = Ok (center s').

(** A lanelet that the converter turns into a lane segment. *)
Definition lane_lanelet (T4_LANE : list string) (l : LaneletPrimitive) : Prop :=
  _get_lanelet_subtype (lanelet_of l) ∈ T4_LANE.

(** The lane segment [s] holds the data of the lanelet [l]: its id, the
    type of its subtype, the intersection flag, the neighbours of the
    routing graph, the speed limit in mph, the traffic lights and one
    boundary segment per side, with the id of the lanelet's bound. *)
Definition lane_of (MAP_TYPE_MAPPING : gmap string PolylineType)
    (parse_float : string -> option Q) (routing_graph : RoutingGraph)
    (l : LaneletPrimitive) (s : LaneSegment) : Prop :=
  segment_id s = lanelet_id (lanelet_of l)
  /\ MAP_TYPE_MAPPING !! _get_lanelet_subtype (lanelet_of l)
     = Some (polyline_type (polyline s))
  /\ is_intersection s = _is_intersection (lanelet_of l)
  /\ (left_neighbor_ids s, right_neighbor_ids s)
     = _get_left_and_right_neighbor_ids l routing_graph
  /\ _get_speed_limit_mph parse_float (lanelet_of l) = Ok (speed_limit_mph s)
  /\ traffic_lights s = trafficLights l
  /\ map boundary_id (left_boundaries s) = [linestring_id (leftBound l)]
  /\ map boundary_id (right_boundaries s) = [linestring_id (rightBound l)].

(** The entry [kv] of the dict of lane segments comes from a lane lanelet
    of the layer. *)
Definition from_layer (T4_LANE : list string)
    (MAP_TYPE_MAPPING : gmap string PolylineType) (parse_float : string -> option Q)
    (routing_graph : RoutingGraph) (layer : list LaneletPrimitive)
    (kv : Z * LaneSegment) : Prop :=
  exists l, l ∈ layer /\ lane_lanelet T4_LANE l
            /\ fst kv = lanelet_id (lanelet_of l)
            /\ lane_of MAP_TYPE_MAPPING parse_float routing_graph l (snd kv).

(** The entry [kc] of the dict of crosswalk segments comes from a lanelet
    of the layer with the subtype crosswalk that is not a lane: it has
    the id of the lanelet, the type of the name crosswalk and, for its
    polygon, the points that [_interpolate_lane] returns. *)
Definition crosswalk_from_layer (T4_LANE : list string)
    (MAP_TYPE_MAPPING : gmap string PolylineType) (sqrtQ : Q -> Q)
    (layer : list LaneletPrimitive) (kc : Z * CrosswalkSegment) : Prop :=
  exists l, l ∈ layer /\ ~ lane_lanelet T4_LANE l
            /\ _get_lanelet_subtype (lanelet_of l) = "crosswalk"%string
            /\ fst kc = lanelet_id (lanelet_of l)
            /\ crosswalk_id (snd kc) = lanelet_id (lanelet_of l)
            /\ MAP_TYPE_MAPPING !! "crosswalk"%string
               = Some (polyline_type (polygon (snd kc)))
            /\ _interpolate_lane sqrtQ (polygon3d l)
               = Ok (waypoints (polygon (snd kc))).

(** A polyline of positive length in space: [_interpolate_lane] turns it
    into at least two points. *)
Definition positive_length (sqrtQ : Q -> Q) (w : list Point3) : Prop :=
  exists total, last (arc_lengths sqrtQ w) = Some total /\ 0 < total.

(** A loaded map that [convert_lanelet] accepts: the type mapping knows
    the lane, road-edge and road-line names and the crosswalk, every
    regulatory element has a subtype, the polylines of a lane lanelet
    have a positive length and its speed limit, if any, is a number,
    and the crosswalk polygons and the linestrings of a road-edge or
    road-line type have a point. *)
Record convertible (T4_LANE T4_ROADEDGE T4_ROADLINE : list string)
    (MAP_TYPE_MAPPING : gmap string PolylineType) (sqrtQ : Q -> Q)
    (parse_float : string -> option Q) (lanelet_map : LaneletMap) : Prop :=
  mkConvertible {
    mapping_covers :
      forall name, name ∈ T4_LANE ++ T4_ROADEDGE ++ T4_ROADLINE ++ ["crosswalk"%string] ->
                   is_Some (MAP_TYPE_MAPPING !! name);
    elements_have_subtype :
      forall element, element ∈ regulatoryElementLayer lanelet_map ->
                      is_Some (regulatory_attributes element !! "subtype"%string);
    lanes_have_length :
      forall l, l ∈ laneletLayer lanelet_map -> lane_lanelet T4_LANE l ->
                positive_length sqrtQ (centerline l)
                /\ positive_length sqrtQ (linestring_points (leftBound l))
                /\ positive_length sqrtQ (linestring_points (rightBound l));
    speed_limits_parse :
      forall l text, l ∈ laneletLayer lanelet_map -> lane_lanelet T4_LANE l ->
                     attributes (lanelet_of l) !! "speed_limit"%string = Some text ->
                     is_Some (parse_float text);
    crosswalks_have_points :
      forall l, l ∈ laneletLayer lanelet_map ->
                _get_lanelet_subtype (lanelet_of l) = "crosswalk"%string ->
                polygon3d l <> [];
    boundaries_have_points :
      forall linestring, linestring ∈ lineStringLayer lanelet_map ->
                         _get_linestring_type linestring ∈ T4_ROADEDGE ++ T4_ROADLINE ->
                         linestring_points linestring <> []
  }.

(** * Example data *)

Definition identity4 : Mat4 :=
  ((1, 0, 0, 0), (0, 1, 0, 0), (0, 0, 1, 0), (0, 0, 0, 1)).

(** Twenty points, one unit apart, from [(x0, y, 0)] along the x axis. *)
Definition straight (x0 y : Q) : list Point3 :=
  map (fun i : nat => mkPoint3 (x0 + inject_Z (Z.of_nat i)) y 0) (seq 0 20).

(** A straight lane of width 2 starting at [(x0, 0)]. *)
Definition straight_lane (id : Z) (x0 : Q) (speed : option Q) (lights : list Z)
  : LaneSegment :=
  mkLaneSegment id (mkPolyline LaneCenter (straight x0 0)) false
    [mkBoundarySegment (id + 1000) (mkPolyline RoadLine (straight x0 1))]
    [mkBoundarySegment (id + 2000) (mkPolyline RoadLine (straight x0 (-1)))]
    [] [] speed (map mkTrafficLight lights)
    (x0 + (19 # 2), 0).

(** The example of the spec: first-point distances 12.3, 4.1, 30.0 and
    4.1, told apart by their speed limits. *)
Definition ranking_example : list LaneSegment :=
  [straight_lane 1 (123 # 10) (Some 10) []; straight_lane 2 (41 # 10) (Some 20) [];
   straight_lane 3 30 (Some 30) []; straight_lane 4 (41 # 10) (Some 40) []].

Definition no_speed_example : list LaneSegment :=
  [straight_lane 1 5 (Some 10) []; straight_lane 2 20 None []].

(** An instance of [float(str)] for unsigned decimal literals such as
    ["36"] and ["40.5"]; every other string is refused. *)
Definition digit_of (c : ascii) : option Z :=
  let n := (Z.of_nat (nat_of_ascii c) - 48)%Z in
  if ((0 <=? n) && (n <=? 9))%Z then Some n else None.

Fixpoint parse_digits (s : string) (acc : Z) (scale : positive) (frac : bool)
  : option Q :=
  match s with
  | EmptyString => Some (acc # scale)
  | String c rest =>
      if Ascii.eqb c "."%char then
        if frac then None else parse_digits rest acc scale true
      else
        match digit_of c with
        | Some d =>
            parse_digits rest (acc * 10 + d)%Z
              (if frac then (scale * 10)%positive else scale) frac
        | None => None
        end
  end.

Definition parse_decimal (s : string) : option Q :=
  match s with
  | EmptyString => None
  | _ => parse_digits s 0 1 false
  end.

(** A lanelet with the speed limit 36 km/h, and the lane made of it. *)
Definition speed_lanelet : Lanelet :=
  mkLanelet 1 {[ "speed_limit"%string := "36"%string ]}.

Definition speed_lane : LaneSegment := straight_lane 1 5 (Some (36 * kph2mph)) [].

Definition bent_line : list Point3 :=
  [mkPoint3 0 0 0; mkPoint3 3 4 1; mkPoint3 3 10 2].

Definition example_map : AWMLStaticMap :=
  mkAWMLStaticMap "map" [(1%Z, straight_lane 1 5 (Some 10) [])] [] [].



(** A lane in range without traffic light, and its rows. *)
Definition plain_lane : LaneSegment := straight_lane 1 5 (Some 10) [].

Definition plain_rows : list (list Q) := line_data_of identity4 plain_lane [0; 0; 0; 1].

(** A lane with two traffic lights, the first of which is seen green. *)
Definition two_lights_lane : LaneSegment := straight_lane 1 5 (Some 10) [7; 8]%Z.

Definition two_lights_mapping : gmap Z Z := {[ 7%Z := 3%Z ]}.

(** A lane in range and one far away that has no speed limit. *)
Definition far_lane_example : list LaneSegment :=
  [straight_lane 1 5 (Some 10) []; straight_lane 2 500 None []].




(** A lane in range whose left boundary has 19 points. *)
Definition short_boundary_lane : LaneSegment :=
  mkLaneSegment 1 (mkPolyline LaneCenter (straight 5 0)) false
    [mkBoundarySegment 1001 (mkPolyline RoadLine (take 19 (straight 5 1)))]
    [mkBoundarySegment 2001 (mkPolyline RoadLine (straight 5 (-1)))]
    [] [] (Some 10) [] (5 + (19 # 2), 0).

(** Two lanes at the first-point distances 5 and 20. *)
Definition two_lanes_example : list LaneSegment :=
  [straight_lane 1 5 (Some 10) []; straight_lane 2 20 (Some 20) []].

(** The rows of the lane with two traffic lights. *)
Definition two_lights_rows : list (list Q) :=
  line_data_of identity4 two_lights_lane [1; 0; 0; 0].

(** ** A small map

    Example values of the constants, a lane with a thin line on its left
    and a road border on its right, a crosswalk, a road border that
    belongs to no lane, and a traffic light. *)

Definition example_T4_LANE : list string := ["road"%string].
Definition example_T4_ROADEDGE : list string := ["road_border"%string].
Definition example_T4_ROADLINE : list string := ["line_thin"%string].

Definition example_MAP_TYPE_MAPPING : gmap string PolylineType :=
  {[ "road"%string := LaneCenter; "road_border"%string := RoadEdge;
     "line_thin"%string := RoadLine; "crosswalk"%string := CrosswalkBoundary ]}.

Definition example_uuid (filename : string) (digit : nat) : string :=
  String.substring 0 digit filename.

Definition example_left_bound : LineString3d :=
  mkLineString3d 10 {[ "type"%string := "line_thin"%string;
                       "subtype"%string := "line_thin"%string ]}
    [mkPoint3 0 1 0; mkPoint3 3 1 0].

Definition example_right_bound : LineString3d :=
  mkLineString3d 11 {[ "type"%string := "road_border"%string ]}
    [mkPoint3 0 (-1) 0; mkPoint3 3 (-1) 0].

Definition example_orphan : LineString3d :=
  mkLineString3d 12 {[ "type"%string := "road_border"%string ]}
    [mkPoint3 0 5 0; mkPoint3 1 5 0].

Definition example_lane_lanelet : LaneletPrimitive :=
  mkLaneletPrimitive
    (mkLanelet 1 {[ "subtype"%string := "road"%string;
                    "speed_limit"%string := "36"%string ]})
    [mkPoint3 0 0 0; mkPoint3 3 0 0] example_left_bound example_right_bound
    [] [mkTrafficLight 7].

Definition example_crosswalk : LaneletPrimitive :=
  mkLaneletPrimitive
    (mkLanelet 2 {[ "subtype"%string := "crosswalk"%string ]})
    [] example_orphan example_orphan
    [mkPoint3 4 0 0; mkPoint3 4 1 0; mkPoint3 5 1 0] [].

Definition example_lanelet_map : LaneletMap :=
  mkLaneletMap
    [mkRegulatoryElement 7 {[ "subtype"%string := "traffic_light"%string ]}]
    [example_lane_lanelet; example_crosswalk]
    [example_left_bound; example_right_bound; example_orphan].


Definition example_routing_graph : RoutingGraph :=
  mkRoutingGraph (fun _ => None) (fun _ => None).

Definition example_convert (lanelet_map : LaneletMap) : built AWMLStaticMap :=
  convert_lanelet example_T4_LANE example_T4_ROADEDGE example_T4_ROADLINE
    example_MAP_TYPE_MAPPING example_uuid Qsqrt_fix parse_decimal
    "map.osm" lanelet_map example_routing_graph.

(** The value of a computation that returns, [d] otherwise. *)
Definition built_or {A : Type} (d : A) (m : built A) : A :=
  match m with
  | Built a => a
  | _ => d
  end.

Definition result_or {A : Type} (d : A) (r : result A) : A :=
  match r with
  | Ok a => a
  | Raise _ => d
  end.

(** The map that the converter returns for [example_lanelet_map]. *)
Definition example_converted_map : AWMLStaticMap :=
  built_or (mkAWMLStaticMap "" [] [] []) (example_convert example_lanelet_map).

(** The map that [_fix_point_num] returns for [example_map]. *)
Definition example_fixed_map : AWMLStaticMap :=
  result_or example_map (_fix_point_num Qsqrt_fix example_map).

(** * Properties *)

(** ** Comparisons, division and the monads *)

Lemma Qlt_bool_true (a b : Q) : Qlt_bool a b = true <-> a < b.
Proof.
  unfold Qlt_bool. rewrite negb_true_iff. split; intros H.
  - apply Qnot_le_lt. intros Hle. apply Qle_bool_iff in Hle. congruence.
  - destruct (Qle_bool b a) eqn:E; [|reflexivity].
    apply Qle_bool_iff in E. lra.
Qed.

Lemma Qlt_bool_false (a b : Q) : Qlt_bool a b = false <-> b <= a.
Proof. unfold Qlt_bool. rewrite negb_false_iff. apply Qle_bool_iff. Qed.

Lemma Qle_bool_true (a b : Q) : a <= b -> Qle_bool a b = true.
Proof. apply Qle_bool_iff. Qed.

Lemma fdiv_ok (a b : Q) : ~ b == 0 -> fdiv a b = Ok (a / b).
Proof.
  intros H. unfold fdiv. destruct (Qeq_bool b 0) eqn:E; [|reflexivity].
  apply Qeq_bool_iff in E. contradiction.
Qed.

Lemma mapM_Forall2 {A B : Type} (f : A -> result B) (l : list A) (bs : list B) :
  Forall2 (fun a b => f a = Ok b) l bs -> mapM f l = Ok bs.
Proof.
  induction 1 as [|a b l bs Hab _ IH]; simpl; [reflexivity|].
  rewrite Hab. simpl. rewrite IH. reflexivity.
Qed.

Lemma mapM_total {A B : Type} (f : A -> result B) (l : list A) :
  (forall a, a ∈ l -> exists b, f a = Ok b) ->
  exists bs, Forall2 (fun a b => f a = Ok b) l bs.
Proof.
  induction l as [|a l IH]; intros H.
  - exists []. constructor.
  - destruct (H a) as [b Hb]; [left|].
    destruct IH as [bs Hbs]; [intros; apply H; by right|].
    exists (b :: bs). by constructor.
Qed.

Lemma mapM_inv {A B : Type} (f : A -> result B) (l : list A) (bs : list B) :
  mapM f l = Ok bs -> Forall2 (fun a b => f a = Ok b) l bs.
Proof.
  revert bs. induction l as [|a l IH]; intros bs H; simpl in H.
  - injection H as <-. constructor.
  - destruct (f a) as [b|e] eqn:Hb; [|discriminate]. simpl in H.
    destruct (mapM f l) as [bs'|e] eqn:Hl; [|discriminate]. simpl in H.
    injection H as <-. constructor; [assumption|]. by apply IH.
Qed.

(** ** The resampler *)

Lemma length_linspace (start stop : Q) (num : nat) :
  length (linspace start stop num) = num.
Proof.
  destruct num as [|[|n]]; [reflexivity..|].
  unfold linspace. rewrite length_app, length_map, length_seq. simpl. lia.
Qed.

Lemma linspace_ends (start stop : Q) (n : nat) :
  exists d0 ds, linspace start stop (S (S n)) = (d0 :: ds) ++ [stop] /\ d0 == start.
Proof.
  exists (inject_Z (Z.of_nat 0) * ((stop - start) / inject_Z (Z.of_nat (S n))) + start).
  exists (map (fun i : nat => inject_Z (Z.of_nat i)
                              * ((stop - start) / inject_Z (Z.of_nat (S n))) + start)
              (seq 1 n)).
  split; [reflexivity|].
  change (inject_Z (Z.of_nat 0)) with 0. lra.
Qed.

Lemma length_from_cons2 sqrtQ (total : Q) (p0 p1 : Point3) (pts : list Point3) :
  length_from sqrtQ total (p0 :: p1 :: pts)
  = length_from sqrtQ (total + dist2 sqrtQ p0 p1) (p1 :: pts).
Proof. reflexivity. Qed.

Lemma locate_forward_cons2 sqrtQ (total d : Q) (p0 p1 : Point3) (pts : list Point3) :
  locate_forward sqrtQ total (p0 :: p1 :: pts) d
  = if Qlt_bool d (total + dist2 sqrtQ p0 p1)
    then let* frac := fdiv (d - total) (dist2 sqrtQ p0 p1) in
         Ok (point_along p0 p1 frac)
    else locate_forward sqrtQ (total + dist2 sqrtQ p0 p1) (p1 :: pts) d.
Proof. reflexivity. Qed.

(** The forward search never divides by zero: a segment is entered only
    when [total <= d < total + segLen]. *)
Lemma locate_forward_total sqrtQ (pts : list Point3) (total d : Q) :
  pts <> [] -> total <= d -> exists q, locate_forward sqrtQ total pts d = Ok q.
Proof.
  revert total. induction pts as [|p0 pts IH]; intros total Hne Hd; [done|].
  destruct pts as [|p1 pts]; [by eexists|].
  rewrite locate_forward_cons2.
  destruct (Qlt_bool d (total + dist2 sqrtQ p0 p1)) eqn:E.
  - apply Qlt_bool_true in E. rewrite fdiv_ok by lra. by eexists.
  - apply Qlt_bool_false in E. apply IH; [done|assumption].
Qed.

Lemma interpolate_total sqrtQ (pts : list Point3) (d : Q) :
  pts <> [] -> exists q, interpolate sqrtQ pts d = Ok [q].
Proof.
  intros Hne. destruct pts as [|p pts]; [done|]. unfold interpolate.
  destruct (Qle_bool d 0) eqn:E; [by eexists|].
  destruct (locate_forward_total sqrtQ (p :: pts) 0 d) as [q Hq]; [done| |].
  - destruct (Qlt_le_dec 0 d) as [H|H]; [lra|].
    apply Qle_bool_iff in H. congruence.
  - rewrite Hq. by eexists.
Qed.

Lemma interpolate_start sqrtQ (p : Point3) (pts : list Point3) (d : Q) :
  d <= 0 -> interpolate sqrtQ (p :: pts) d = Ok [p].
Proof. intros H. unfold interpolate. by rewrite Qle_bool_true. Qed.

Section ResamplerFacts.

Variable sqrtQ : Q -> Q.
Hypothesis sqrtQ_nonneg : forall x, 0 <= sqrtQ x.





End ResamplerFacts.

Lemma concat_singletons {A : Type} (l : list A) : concat (map (fun a => [a]) l) = l.
Proof. induction l as [|a l IH]; simpl; congruence. Qed.

Lemma LineString_ok (line : list Point3) :
  (2 <= length line)%nat -> LineString line = Ok line.
Proof. destruct line as [|p [|q line]]; simpl; intros; [lia..|reflexivity]. Qed.

(** With at least two input points and a positive count, every sample is
    produced and the result holds one point per value of [linspace]. *)
Lemma interpolate_points_samples sqrtQ (line : list Point3) (K : nat) :
  (2 <= length line)%nat -> (1 <= K)%nat ->
  exists out,
    _interpolate_points sqrtQ line K = Ok out
    /\ Forall2 (fun d q => interpolate sqrtQ line d = Ok [q])
         (linspace 0 (line_length sqrtQ line) K) out.
Proof.
  intros Hline HK.
  assert (Hne : line <> []) by (destruct line; simpl in *; [lia|done]).
  assert (Hex : forall ds, exists qs,
             Forall2 (fun d q => interpolate sqrtQ line d = Ok [q]) ds qs).
  { induction ds as [|d ds [qs IH]]; [exists []; constructor|].
    destruct (interpolate_total sqrtQ line d Hne) as [q Hq].
    exists (q :: qs). by constructor. }
  destruct (Hex (linspace 0 (line_length sqrtQ line) K)) as [qs Hqs].
  exists qs. split; [|assumption].
  unfold _interpolate_points. rewrite LineString_ok by assumption. simpl.
  rewrite (mapM_Forall2 _ _ (map (fun q => [q]) qs)).
  - simpl. rewrite <- (concat_singletons qs) at 2.
    apply Forall2_length in Hqs. rewrite length_linspace in Hqs.
    destruct qs; simpl in *; [lia|reflexivity].
  - apply Forall2_fmap_r. assumption.
Qed.

(** ** End points and map construction *)

Section ResampleEndpoints.

Variable sqrtQ : Q -> Q.
Hypothesis sqrtQ_nonneg : forall x, 0 <= sqrtQ x.


Lemma mean_xy_ok (pts : list Point3) :
  pts <> [] -> exists c, mean_xy pts = Ok c.
Proof.
  intros Hne. unfold mean_xy.
  assert (Hn : ~ inject_Z (Z.of_nat (length pts)) == 0).
  { destruct pts as [|p pts]; [done|]. unfold Qeq. simpl. lia. }
  rewrite !fdiv_ok by assumption. simpl. by eexists.
Qed.



End ResampleEndpoints.

(** ** Degenerate input: one point repeated *)




Section Degenerate.

Variable sqrtQ : Q -> Q.
Hypothesis sqrtQ_zero : forall x, x == 0 -> sqrtQ x == 0.




End Degenerate.

(** ** The stable sort *)

Section StableSort.

Context {A : Type}.

Lemma insert_by_key_perm (x : Q * A) (l : list (Q * A)) :
  Permutation (x :: l) (insert_by_key x l).
Proof.
  induction l as [|y l IH]; simpl; [reflexivity|].
  destruct (Qlt_bool (fst y) (fst x)); [|reflexivity].
  rewrite perm_swap. by constructor.
Qed.

Lemma stable_sort_perm (l : list (Q * A)) : Permutation l (stable_sort l).
Proof.
  induction l as [|x l IH]; simpl; [reflexivity|].
  rewrite <- insert_by_key_perm. by constructor.
Qed.

Lemma insert_by_key_sorted (x : Q * A) (l : list (Q * A)) :
  StronglySorted key_le l -> StronglySorted key_le (insert_by_key x l).
Proof.
  induction 1 as [|y l Hs IH Hall]; simpl; [repeat constructor|].
  destruct (Qlt_bool (fst y) (fst x)) eqn:E.
  - apply Qlt_bool_true in E. constructor; [assumption|].
    rewrite <- insert_by_key_perm. constructor; [|assumption].
    unfold key_le. lra.
  - apply Qlt_bool_false in E. constructor; [by constructor|].
    constructor; [exact E|].
    eapply Forall_impl; [exact Hall|]. unfold key_le. intros z Hz. lra.
Qed.

Lemma stable_sort_sorted (l : list (Q * A)) : StronglySorted key_le (stable_sort l).
Proof.
  induction l as [|x l IH]; simpl; [constructor|]. by apply insert_by_key_sorted.
Qed.



End StableSort.

Section SortBy.

Context {A : Type}.
Variable d : A -> Q.

Lemma keyed_decorated (l : list A) : Forall (keyed d) (map (fun a => (d a, a)) l).
Proof. apply Forall_forall. intros x Hx. apply list_elem_of_fmap in Hx as (a & -> & _). done. Qed.

Lemma keyed_sorted (l : list A) :
  Forall (keyed d) (stable_sort (map (fun a => (d a, a)) l)).
Proof. rewrite <- stable_sort_perm. apply keyed_decorated. Qed.

Lemma map_snd_decorated (l : list A) : map snd (map (fun a => (d a, a)) l) = l.
Proof. induction l as [|a l IH]; simpl; congruence. Qed.

Lemma sort_by_perm (l : list A) : Permutation l (sort_by d l).
Proof.
  unfold sort_by. rewrite <- stable_sort_perm. by rewrite map_snd_decorated.
Qed.

Lemma sort_by_length (l : list A) : length (sort_by d l) = length l.
Proof. symmetry. apply Permutation_length, sort_by_perm. Qed.

Lemma sorted_map_snd (xs : list (Q * A)) :
  Forall (keyed d) xs -> StronglySorted key_le xs ->
  StronglySorted (fun a b => d a <= d b) (map snd xs).
Proof.
  intros Hk Hs. induction Hs as [|x xs Hs IH Hall]; simpl; [constructor|].
  apply Forall_cons in Hk as [Hx Hk]. constructor; [by apply IH|].
  apply Forall_forall. intros b Hb. apply list_elem_of_fmap in Hb as (y & -> & Hy).
  rewrite Forall_forall in Hall, Hk. specialize (Hall y Hy). specialize (Hk y Hy).
  unfold key_le, keyed in *. by rewrite <- Hx, <- Hk.
Qed.

Lemma sort_by_sorted (l : list A) :
  StronglySorted (fun a b => d a <= d b) (sort_by d l).
Proof. apply sorted_map_snd; [apply keyed_sorted|apply stable_sort_sorted]. Qed.



Lemma py_sorted_total (key : A -> result Q) (l : list A) :
  Forall (fun a => key a = Ok (d a)) l -> py_sorted key l = Ok (sort_by d l).
Proof.
  intros H. unfold py_sorted, decorate.
  rewrite (mapM_Forall2 _ _ (map (fun a => (d a, a)) l)); [reflexivity|].
  apply Forall2_fmap_r. apply Forall_Forall2_diag.
  eapply Forall_impl; [exact H|]. intros a Ha. simpl. by rewrite Ha.
Qed.


End SortBy.

(** ** Packing *)

Lemma expand_id {A : Type} (n : nat) (l : list A) : length l = n -> expand n l = Ok l.
Proof. intros H. unfold expand. by rewrite (proj2 (Nat.eqb_eq _ _) H). Qed.

Lemma broadcast_20x12_id (line_data : list (list Q)) :
  length line_data = 20%nat -> Forall (fun r => length r = 12%nat) line_data ->
  broadcast_20x12 line_data = Ok line_data.
Proof.
  intros Hn Hrows. unfold broadcast_20x12.
  rewrite (mapM_Forall2 _ _ line_data).
  - simpl. by apply expand_id.
  - apply Forall_Forall2_diag. eapply Forall_impl; [exact Hrows|].
    intros r Hr. by apply expand_id.
Qed.

Lemma fill_rows_spec (result_list : list survivor) :
  Forall well_shaped result_list ->
  forall (pl sl : list (list (list Q))) (ps ss : list (list Q)) (pf sf : list (list bool)),
    length ps = length pl -> length pf = length pl ->
    (length result_list <= length sl)%nat ->
    (length result_list <= length ss)%nat ->
    (length result_list <= length sf)%nat ->
    fill_rows (length pl) result_list (pl ++ sl, ps ++ ss, pf ++ sf)
    = Ok (pl ++ map fst result_list ++ drop (length result_list) sl,
          ps ++ map speed_entry result_list ++ drop (length result_list) ss,
          pf ++ replicate (length result_list) [true] ++ drop (length result_list) sf).
Proof.
  induction 1 as [|[line_data speed] rl (Hn & Hrows & [v Hv]) _ IH];
    intros pl sl ps ss pf sf Hps Hpf Hl Hs Hf.
  - simpl. by rewrite !drop_0.
  - simpl in Hn, Hrows, Hv. subst speed.
    destruct sl as [|l0 sl]; [simpl in Hl; lia|].
    destruct ss as [|s0 ss]; [simpl in Hs; lia|].
    destruct sf as [|f0 sf]; [simpl in Hf; lia|].
    cbn [fill_rows]. rewrite broadcast_20x12_id by assumption. cbn [bind].
    rewrite (insert_app_r_alt pl) by lia.
    rewrite (insert_app_r_alt ps) by lia.
    rewrite (insert_app_r_alt pf) by lia.
    rewrite Hps, Hpf, Nat.sub_diag. cbn [list_insert insert].
    replace (S (length pl)) with (length (pl ++ [line_data]))
      by (rewrite length_app; simpl; lia).
    rewrite (cons_middle line_data pl sl), (cons_middle [v] ps ss),
      (cons_middle [true] pf sf), !app_assoc.
    rewrite IH; [|rewrite ?length_app; simpl in *; lia..].
    simpl. by rewrite <- !app_assoc.
Qed.

Lemma sort_key_well_shaped sqrtQ (tup : survivor) :
  well_shaped tup -> sort_key sqrtQ tup = Ok (first_point_distance sqrtQ tup).
Proof.
  intros (Hn & _). unfold sort_key, first_point_distance.
  destruct (fst tup); [simpl in Hn; lia|reflexivity].
Qed.

Lemma kept_well_shaped sqrtQ (result_list : list survivor) (N : nat) :
  Forall well_shaped result_list -> Forall well_shaped (kept sqrtQ result_list N).
Proof.
  intros H. unfold kept. apply Forall_take.
  by rewrite <- (sort_by_perm (first_point_distance sqrtQ) result_list).
Qed.

Lemma kept_length sqrtQ (result_list : list survivor) (N : nat) :
  length (kept sqrtQ result_list N) = Nat.min N (length result_list).
Proof. unfold kept. by rewrite length_take, sort_by_length. Qed.

(** The packer computes the packed tensors. *)
Lemma pack_spec sqrtQ (result_list : list survivor) (N : nat) :
  Forall well_shaped result_list ->
  pack sqrtQ result_list N = Ok (packed sqrtQ result_list N).
Proof.
  intros H. unfold pack.
  rewrite (py_sorted_total (first_point_distance sqrtQ)).
  2:{ eapply Forall_impl; [exact H|]. apply sort_key_well_shaped. }
  cbn [bind]. fold (kept sqrtQ result_list N).
  pose proof (kept_length sqrtQ result_list N) as Hlen.
  pose proof (fill_rows_spec _ (kept_well_shaped sqrtQ result_list N H)
                [] (replicate N zeros_row) [] (replicate N [0])
                [] (replicate N [false])) as Hfill.
  simpl in Hfill. rewrite Hfill; [|rewrite ?length_replicate; lia..].
  cbn [bind]. unfold packed. by rewrite !drop_replicate.
Qed.

(** ** Processing one segment *)

Lemma encode_traffic_light_total (s : LaneSegment) (tlr : gmap Z Z) :
  exists out tl, encode_traffic_light s tlr = (out, Ok tl) /\ length tl = 4%nat.
Proof.
  unfold encode_traffic_light.
  destruct (traffic_lights s) as [|first others]; [by eexists _, _|].
  destruct others as [|second others]; simpl;
    (destruct (tlr !! tl_id first) as [color|]; [|by eexists _, _]);
    repeat (match goal with |- context [if ?b then _ else _] => destruct b end);
    by eexists _, _.
Qed.

Lemma length_removelast {A : Type} (l : list A) :
  length (removelast l) = (length l - 1)%nat.
Proof.
  induction l as [|a l IH]; [reflexivity|].
  destruct l as [|b l]; [reflexivity|].
  change (removelast (a :: b :: l)) with (a :: removelast (b :: l)).
  simpl length in *. lia.
Qed.

Lemma length_diff_rows (c : list Point3) :
  c <> [] -> length (diff_rows c) = length c.
Proof.
  intros Hne. unfold diff_rows.
  rewrite length_app, length_zip_with, length_removelast.
  destruct c; [done|simpl; lia].
Qed.

Lemma concatenate_axis1_5 (a b c d e : list (list Q)) :
  length b = length a -> length c = length a -> length d = length a ->
  length e = length a ->
  concatenate_axis1 [a; b; c; d; e]
  = Ok (zip_with app a (zip_with app b (zip_with app c (zip_with app d e)))).
Proof.
  intros Hb Hc Hd He. cbn [concatenate_axis1 bind].
  do 4 (rewrite ?length_zip_with, ?Hb, ?Hc, ?Hd, ?He, ?Nat.min_id, ?Nat.eqb_refl;
        cbn [bind]).
  reflexivity.
Qed.

Lemma process_segment_outside (s : LaneSegment) (m : Mat4) (cx cy r : Q)
    (tlr : gmap Z Z) :
  left_boundaries s <> [] -> right_boundaries s <> [] ->
  inside s cx cy r = false ->
  process_segment s m cx cy r tlr = ([], Ok None).
Proof.
  intros Hl Hr Hin. unfold process_segment.
  destruct (left_boundaries s); [done|]. destruct (right_boundaries s); [done|].
  simpl. by rewrite Hin.
Qed.

Lemma process_segment_inside (s : LaneSegment) (m : Mat4) (cx cy r : Q)
    (tlr : gmap Z Z) (out : list event) (tl : list Q) (v : Q) :
  twenty_points s -> inside s cx cy r = true ->
  encode_traffic_light s tlr = (out, Ok tl) ->
  speed_limit_mph s = Some v ->
  process_segment s m cx cy r tlr
  = (out, Ok (Some (line_data_of m s tl, Some (v * mph2mps)))).
Proof.
  intros (Hl & Hr & Hall) Hin Htl Hv.
  unfold process_segment, line_data_of, lane_polylines in *.
  destruct (left_boundaries s) as [|l0 ls]; [done|].
  destruct (right_boundaries s) as [|r0 rs]; [done|].
  simpl in Hall.
  apply Forall_cons in Hall as [Hc Hall].
  apply Forall_cons in Hall as [Hlb Hall].
  apply Forall_cons in Hall as [Hrb _].
  cbn [lift index0 io_bind app]. rewrite Hin. cbn [negb].
  unfold isub. rewrite !length_map, Hc, Hlb, Hrb. cbn [Nat.eqb lift io_bind app].
  rewrite Htl, Hv. cbn [io_bind lift].
  rewrite concatenate_axis1_5;
    rewrite ?length_map, ?length_replicate, ?length_diff_rows, ?length_zip_with,
      ?length_map, ?Hc, ?Hlb, ?Hrb;
    try reflexivity;
    try (destruct (waypoints (polyline s)); simpl in *; [lia|done]).
  simpl. by rewrite app_nil_r.
Qed.

Lemma lookup_map_xy (l : list Point3) (i : nat) (a : list Q) :
  map xy l !! i = Some a -> length a = 2%nat.
Proof.
  revert i. induction l as [|p l IH]; intros [|i] H; simpl in H; try discriminate.
  - by injection H as <-.
  - by apply (IH i).
Qed.

Lemma line_data_of_rows (m : Mat4) (s : LaneSegment) (tl row : list Q) :
  row ∈ line_data_of m s tl ->
  length row = (8 + length tl)%nat /\ drop 8 row = tl.
Proof.
  unfold line_data_of. intros Hrow.
  destruct (lane_polylines s) as [|c [|l [|r [|]]]]; try by inversion Hrow.
  apply list_elem_of_lookup in Hrow as [i Hi].
  apply lookup_zip_with_Some in Hi as (a & R1 & -> & Ha & Hi).
  apply lookup_zip_with_Some in Hi as (b & R2 & -> & Hb & Hi).
  apply lookup_zip_with_Some in Hi as (c' & R3 & -> & Hc & Hi).
  apply lookup_zip_with_Some in Hi as (e & t & -> & He & Hi).
  apply lookup_replicate in Hi as [-> _].
  apply lookup_map_xy in Ha, Hb, Hc, He.
  destruct a as [|? [|? [|]]]; try discriminate.
  destruct b as [|? [|? [|]]]; try discriminate.
  destruct c' as [|? [|? [|]]]; try discriminate.
  destruct e as [|? [|? [|]]]; try discriminate.
  split; reflexivity.
Qed.

Lemma line_data_of_length (m : Mat4) (s : LaneSegment) (tl : list Q) :
  twenty_points s -> length (line_data_of m s tl) = 20%nat.
Proof.
  intros (Hl & Hr & Hall). unfold line_data_of.
  destruct (lane_polylines s) as [|c [|l [|r [|]]]] eqn:E; try by inversion E.
  apply Forall_cons in Hall as [Hc Hall].
  apply Forall_cons in Hall as [Hlb Hall].
  apply Forall_cons in Hall as [Hrb _].
  rewrite !length_zip_with, !length_map, !length_replicate, length_diff_rows,
    !length_zip_with, !length_map, Hc, Hlb, Hrb
    by (destruct c; simpl in *; [lia|done]).
  reflexivity.
Qed.

Lemma line_data_of_well_shaped (m : Mat4) (s : LaneSegment) (tl : list Q) (v : Q) :
  twenty_points s -> length tl = 4%nat ->
  well_shaped (line_data_of m s tl, Some v).
Proof.
  intros Hs Htl. split; [by apply line_data_of_length|]. split; [|by eexists].
  apply Forall_forall. intros row Hrow.
  apply line_data_of_rows in Hrow as [-> _]. simpl. lia.
Qed.

(** ** Collecting the survivors *)

Lemma traffic_vector_length (s : LaneSegment) (tlr : gmap Z Z) :
  length (traffic_vector s tlr) = 4%nat.
Proof.
  unfold traffic_vector.
  destruct (encode_traffic_light_total s tlr) as (out & tl & -> & Hlen). exact Hlen.
Qed.

Lemma process_segment_packable (s : LaneSegment) (m : Mat4) (cx cy r : Q)
    (tlr : gmap Z Z) :
  packable cx cy r s ->
  exists out,
    process_segment s m cx cy r tlr
    = (out, Ok (if inside s cx cy r then Some (transformed m tlr s) else None)).
Proof.
  intros [Hs Hv]. destruct (inside s cx cy r) eqn:Hin.
  - destruct (Hv eq_refl) as [v Hsp].
    destruct (encode_traffic_light_total s tlr) as (out & tl & Htl & _).
    exists out. rewrite (process_segment_inside s m cx cy r tlr out tl v) by assumption.
    unfold transformed, traffic_vector. by rewrite Htl, Hsp.
  - exists []. destruct Hs as (? & ? & _). by apply process_segment_outside.
Qed.

Lemma collect_spec (segs : list LaneSegment) (m : Mat4) (cx cy r : Q)
    (tlr : gmap Z Z) :
  Forall (packable cx cy r) segs ->
  exists out, collect segs m cx cy r tlr = (out, Ok (survivors m cx cy r tlr segs)).
Proof.
  induction 1 as [|s segs Hs _ [out' IH]]; [by exists []|].
  destruct (process_segment_packable s m cx cy r tlr Hs) as [out Hout].
  exists (out ++ out' ++ []). cbn [collect io_bind]. rewrite Hout, IH. cbn [io_ret].
  unfold survivors, in_range. simpl. by destruct (inside s cx cy r).
Qed.

Lemma survivors_well_shaped (segs : list LaneSegment) (m : Mat4) (cx cy r : Q)
    (tlr : gmap Z Z) :
  Forall (packable cx cy r) segs -> Forall well_shaped (survivors m cx cy r tlr segs).
Proof.
  intros H. unfold survivors, in_range. apply Forall_fmap.
  induction H as [|s segs [Hs Hv] _ IH]; simpl; [constructor|].
  destruct (inside s cx cy r) eqn:Hin; [|assumption]. constructor; [|assumption].
  destruct (Hv eq_refl) as [v Hsp]. unfold transformed. simpl. rewrite Hsp. simpl.
  apply line_data_of_well_shaped; [assumption|apply traffic_vector_length].
Qed.

Lemma create_lane_tensor_spec sqrtQ (segs : list LaneSegment) (m : Mat4)
    (cx cy r : Q) (tlr : gmap Z Z) (N : nat) :
  Forall (packable cx cy r) segs ->
  exists out,
    create_lane_tensor sqrtQ segs m cx cy r tlr N
    = (out, Ok (packed sqrtQ (survivors m cx cy r tlr segs) N)).
Proof.
  intros H. destruct (collect_spec segs m cx cy r tlr H) as [out Hout].
  exists (out ++ []). unfold create_lane_tensor. rewrite Hout. cbn [io_bind lift].
  by rewrite pack_spec by by apply survivors_well_shaped.
Qed.



Section PackedRows.

Variable sqrtQ : Q -> Q.
Variables (segs : list LaneSegment) (m : Mat4) (cx cy r : Q) (tlr : gmap Z Z).
Variable N : nat.

Abbreviation k := (kept sqrtQ (survivors m cx cy r tlr segs) N).

Lemma kept_length_in_range : length k = Nat.min N (length (in_range cx cy r segs)).
Proof. unfold survivors. by rewrite kept_length, length_map. Qed.

Lemma packed_lanes_rows (lanes : list (list (list Q))) (i : nat) :
  lanes = map fst k ++ replicate (N - length k) zeros_row ->
  (i < N)%nat ->
  lanes !! i = if decide (i < length k)%nat then fst <$> k !! i else Some zeros_row.
Proof.
  intros -> Hi. case_decide.
  - rewrite lookup_app_l by (by rewrite length_map). apply list_lookup_fmap.
  - rewrite lookup_app_r by (rewrite length_map; lia).
    apply lookup_replicate_2. rewrite length_map. lia.
Qed.

Lemma packed_speeds_rows (speeds : list (list Q)) (i : nat) :
  speeds = map speed_entry k ++ replicate (N - length k) [0] ->
  (i < N)%nat ->
  speeds !! i = if decide (i < length k)%nat then speed_entry <$> k !! i else Some [0].
Proof.
  intros -> Hi. case_decide.
  - rewrite lookup_app_l by (by rewrite length_map). apply list_lookup_fmap.
  - rewrite lookup_app_r by (rewrite length_map; lia).
    apply lookup_replicate_2. rewrite length_map. lia.
Qed.

Lemma packed_flags_rows (flags : list (list bool)) (i : nat) :
  flags = replicate (length k) [true] ++ replicate (N - length k) [false] ->
  (i < N)%nat ->
  flags !! i = Some [bool_decide (i < length k)%nat].
Proof.
  intros -> Hi. case_bool_decide.
  - rewrite lookup_app_l by (by rewrite length_replicate).
    by apply lookup_replicate_2.
  - rewrite lookup_app_r by (rewrite length_replicate; lia).
    apply lookup_replicate_2. rewrite length_replicate. lia.
Qed.

End PackedRows.

(** ** The example lanes *)

Lemma straight_lane_twenty_points (id : Z) (x0 : Q) (speed : option Q)
    (lights : list Z) :
  twenty_points (straight_lane id x0 speed lights).
Proof. repeat split; try done. repeat constructor. Qed.

(** ** Fixed capacity and padding *)

(** C1: for every list of lanes that can be packed and every capacity
    [N], [create_lane_tensor] returns tensors of shapes [1 x N x 20 x 12],
    [1 x N x 1] and [1 x N x 1]; every row from the number of lanes in
    range onwards is all zero, with speed limit zero and flag false; with
    no lane in range everything is zero and every flag is false. *)
Theorem create_lane_tensor_fixed_capacity sqrtQ (segs : list LaneSegment) (m : Mat4)
    (cx cy r : Q) (tlr : gmap Z Z) (N : nat) :
  Forall (packable cx cy r) segs ->
  exists out lanes speeds flags,
    create_lane_tensor sqrtQ segs m cx cy r tlr N
    = (out, Ok ([lanes], [speeds], [flags]))
    /\ length lanes = N
    /\ Forall (fun row => length row = 20%nat
                          /\ Forall (fun p => length p = 12%nat) row) lanes
    /\ length speeds = N /\ length flags = N
    /\ (forall i, (length (in_range cx cy r segs) <= i < N)%nat ->
          lanes !! i = Some zeros_row /\ speeds !! i = Some [0]
          /\ flags !! i = Some [false])
    /\ (in_range cx cy r segs = [] ->
          lanes = replicate N zeros_row /\ speeds = replicate N [0]
          /\ flags = replicate N [false]).
Proof.
  intros H. destruct (create_lane_tensor_spec sqrtQ segs m cx cy r tlr N H) as [out Hout].
  pose proof (kept_length_in_range sqrtQ segs m cx cy r tlr N) as Hk.
  pose proof (kept_well_shaped sqrtQ _ N (survivors_well_shaped segs m cx cy r tlr H))
    as Hws.
  eexists out, _, _, _. split; [exact Hout|].
  split; [rewrite length_app, length_map, length_replicate; lia|].
  split.
  { apply Forall_app. split.
    - apply Forall_fmap. eapply Forall_impl; [exact Hws|].
      intros tup (? & ? & _). by split.
    - apply Forall_replicate. split; [reflexivity|]. by apply Forall_replicate. }
  split; [rewrite length_app, length_map, length_replicate; lia|].
  split; [rewrite length_app, !length_replicate; lia|].
  split.
  - intros i Hi.
    rewrite (packed_lanes_rows sqrtQ segs m cx cy r tlr N _ i eq_refl) by lia.
    rewrite (packed_speeds_rows sqrtQ segs m cx cy r tlr N _ i eq_refl) by lia.
    rewrite (packed_flags_rows sqrtQ segs m cx cy r tlr N _ i eq_refl) by lia.
    rewrite bool_decide_eq_false_2 by lia. repeat case_decide; try lia. done.
  - intros Hnil. rewrite Hnil in Hk. simpl in Hk. rewrite Nat.min_0_r in Hk.
    destruct (kept sqrtQ (survivors m cx cy r tlr segs) N); [|discriminate].
    simpl. by rewrite Nat.sub_0_r.
Qed.

Lemma create_lane_tensor_fixed_capacity_witness :
  Forall (packable 0 0 100) far_lane_example
  /\ exists out lanes speeds flags,
       create_lane_tensor Qsqrt_fix far_lane_example identity4 0 0 100 ∅ 3
       = (out, Ok ([lanes], [speeds], [flags]))
       /\ length lanes = 3%nat
       /\ Forall (fun row => length row = 20%nat
                             /\ Forall (fun p => length p = 12%nat) row) lanes
       /\ length speeds = 3%nat /\ length flags = 3%nat
       /\ (forall i, (length (in_range 0 0 100 far_lane_example) <= i < 3)%nat ->
             lanes !! i = Some zeros_row /\ speeds !! i = Some [0]
             /\ flags !! i = Some [false])
       /\ (in_range 0 0 100 far_lane_example = [] ->
             lanes = replicate 3 zeros_row /\ speeds = replicate 3 [0]
             /\ flags = replicate 3 [false]).
Proof.
  assert (H : Forall (packable 0 0 100) far_lane_example).
  { repeat (constructor; [split; [apply straight_lane_twenty_points|]|]).
    - intros _. by eexists.
    - vm_compute. discriminate.
    - constructor. }
  split; [exact H|].
  exact (create_lane_tensor_fixed_capacity Qsqrt_fix far_lane_example identity4
           0 0 100 ∅ 3 H).
Defined.

(** ** Ranking *)


Lemma straight_lane_packable (id : Z) (x0 v : Q) (lights : list Z) (cx cy r : Q) :
  packable cx cy r (straight_lane id x0 (Some v) lights).
Proof. split; [apply straight_lane_twenty_points|]. intros _. by eexists. Qed.


(** On the example with [N = 3] the rows hold the lanes 2, 4 and 1, in
    this order: the two lanes at 4.1 in input order, then the lane at
    12.3; the lane at 30.0 is left out. *)
Example ranking_example_rows :
  exists out lanes flags,
    create_lane_tensor Qsqrt_fix ranking_example identity4 0 0 100 ∅ 3
    = (out, Ok ([lanes], [[[20 * mph2mps]; [40 * mph2mps]; [10 * mph2mps]]], flags))
    /\ map (fun row => head row ≫= head) lanes
       = [Some ((41 # 10) + 0); Some ((41 # 10) + 0); Some ((123 # 10) + 0)].
Proof. eexists _, _, _. vm_compute. split; reflexivity. Qed.

(** ** The speed-limit flag *)



(** ** Traffic-light encoding *)

Lemma encode_traffic_light_policy (s : LaneSegment) (tlr : gmap Z Z) :
  map_Forall (fun _ code => (1 <= code <= 4)%Z) tlr ->
  encode_traffic_light s tlr = (policy_output s, Ok (policy_vector s tlr)).
Proof.
  intros Hcodes. unfold encode_traffic_light, policy_output, policy_vector.
  destruct (traffic_lights s) as [|first others]; [reflexivity|].
  assert (Hcode : forall code, tlr !! tl_id first = Some code -> (1 <= code <= 4)%Z)
    by (intros code Hc; exact (Hcodes _ _ Hc)).
  destruct others as [|second others]; simpl;
    (destruct (tlr !! tl_id first) as [code|]; [|reflexivity]);
    specialize (Hcode code eq_refl);
    destruct (Z.eqb_spec code 1); try reflexivity;
    destruct (Z.eqb_spec code 2); try reflexivity;
    destruct (Z.eqb_spec code 3); try reflexivity;
    destruct (Z.eqb_spec code 4); try reflexivity; lia.
Qed.

Lemma policy_vector_one_hot (s : LaneSegment) (tlr : gmap Z Z) :
  one_hot (policy_vector s tlr).
Proof.
  unfold policy_vector, one_hot.
  destruct (traffic_lights s) as [|first others]; [by exists 3%nat; split; [lia|]|].
  destruct (tlr !! tl_id first) as [code|]; [|by exists 3%nat; split; [lia|]].
  destruct (code =? 1)%Z; [by exists 2%nat; split; [lia|]|].
  destruct (code =? 2)%Z; [by exists 1%nat; split; [lia|]|].
  destruct (code =? 3)%Z; [by exists 0%nat; split; [lia|]|].
  by exists 3%nat; split; [lia|].
Qed.

(** C3: for every segment and every recognition mapping whose codes are
    all in 1..4, the encoded vector is one-hot and follows the policy: no
    traffic light gives unknown; of several only the first is used and
    one warning line is printed, without failing; an id that is not in
    the mapping gives unknown; a code selects its slot.  For a 20-point
    lane in range with a speed limit [process_segment] succeeds and
    channels 8-11 of each of its 20 rows hold this one vector. *)
Theorem traffic_light_one_hot (s : LaneSegment) (m : Mat4) (cx cy r : Q)
    (tlr : gmap Z Z) :
  map_Forall (fun _ code => (1 <= code <= 4)%Z) tlr ->
  encode_traffic_light s tlr = (policy_output s, Ok (policy_vector s tlr))
  /\ one_hot (policy_vector s tlr)
  /\ (twenty_points s -> inside s cx cy r = true -> is_Some (speed_limit_mph s) ->
      exists line_data speed,
        process_segment s m cx cy r tlr
        = (policy_output s, Ok (Some (line_data, speed)))
        /\ length line_data = 20%nat
        /\ (forall row, row ∈ line_data -> drop 8 row = policy_vector s tlr)).
Proof.
  intros Hcodes.
  split; [by apply encode_traffic_light_policy|].
  split; [apply policy_vector_one_hot|].
  intros Hs Hin [v Hv].
  exists (line_data_of m s (policy_vector s tlr)), (Some (v * mph2mps)). split.
  - apply process_segment_inside; try assumption.
    by apply encode_traffic_light_policy.
  - split; [by apply line_data_of_length|].
    intros row Hrow. by apply line_data_of_rows in Hrow as [_ ?].
Qed.

Lemma traffic_light_one_hot_witness :
  map_Forall (fun _ code => (1 <= code <= 4)%Z) two_lights_mapping
  /\ encode_traffic_light two_lights_lane two_lights_mapping
     = ([Print (warning_more_than_one two_lights_lane)], Ok [1; 0; 0; 0])
  /\ one_hot [1; 0; 0; 0]
  /\ exists line_data speed,
       process_segment two_lights_lane identity4 0 0 100 two_lights_mapping
       = ([Print (warning_more_than_one two_lights_lane)], Ok (Some (line_data, speed)))
       /\ length line_data = 20%nat
       /\ (forall row, row ∈ line_data -> drop 8 row = [1; 0; 0; 0]).
Proof.
  assert (H : map_Forall (fun _ code => (1 <= code <= 4)%Z) two_lights_mapping)
    by (apply map_Forall_singleton; lia).
  split; [exact H|].
  destruct (traffic_light_one_hot two_lights_lane identity4 0 0 100
              two_lights_mapping H) as (H1 & H2 & H3).
  split; [exact H1|]. split; [exact H2|].
  apply H3; [apply straight_lane_twenty_points|vm_compute; reflexivity|by eexists].
Defined.

(** ** A code outside the enumeration *)





(** ** A lane in range without speed limit *)

Lemma io_bind_raise {A B : Type} (out : list event) (e : exn) (k : A -> io B) :
  io_bind (out, Raise e) k = (out, Raise e).
Proof. reflexivity. Qed.

Lemma io_bind_lift {A B : Type} (x : result A) (k : A -> io B) :
  io_bind (lift x) k = match x with
                       | Ok a => k a
                       | Raise e => ([], Raise e)
                       end.
Proof. destruct x as [a|e]; simpl; [|reflexivity]. by destruct (k a). Qed.

Lemma raises_bind {A B : Type} (c : io A) (k : A -> io B) :
  (forall out a, c = (out, Ok a) -> raises (k a)) -> raises (io_bind c k).
Proof.
  intros H. destruct c as [out [a|e]]; [|by eexists _, _].
  destruct (H out a eq_refl) as (out' & e & Hk). simpl. rewrite Hk. by eexists _, _.
Qed.

(** In range and without speed limit, [process_segment] never returns:
    at the latest the product [None * 0.44704] raises. *)
Lemma process_segment_no_speed_raises (s : LaneSegment) (m : Mat4) (cx cy r : Q)
    (tlr : gmap Z Z) :
  inside s cx cy r = true -> speed_limit_mph s = None ->
  raises (process_segment s m cx cy r tlr).
Proof.
  intros Hin Hv. unfold process_segment.
  do 2 (apply raises_bind; intros ? ? _). rewrite Hin. cbn [negb].
  do 4 (apply raises_bind; intros ? ? _).
  rewrite Hv. by eexists _, _.
Qed.

Lemma process_segment_no_speed_TypeError (s : LaneSegment) (m : Mat4) (cx cy r : Q)
    (tlr : gmap Z Z) :
  twenty_points s -> inside s cx cy r = true -> speed_limit_mph s = None ->
  exists out, process_segment s m cx cy r tlr = (out, Raise TypeError).
Proof.
  intros (Hl & Hr & Hall) Hin Hv.
  destruct (encode_traffic_light_total s tlr) as (out & tl & Htl & _).
  exists out. unfold process_segment, lane_polylines in *.
  destruct (left_boundaries s) as [|l0 ls]; [done|].
  destruct (right_boundaries s) as [|r0 rs]; [done|].
  simpl in Hall.
  apply Forall_cons in Hall as [Hc Hall].
  apply Forall_cons in Hall as [Hlb Hall].
  apply Forall_cons in Hall as [Hrb _].
  cbn [lift index0 io_bind app]. rewrite Hin. cbn [negb].
  unfold isub. rewrite !length_map, Hc, Hlb, Hrb. cbn [Nat.eqb lift io_bind app].
  rewrite Htl, Hv. cbn [io_bind lift].
  rewrite concatenate_axis1_5;
    rewrite ?length_map, ?length_replicate, ?length_diff_rows, ?length_zip_with,
      ?length_map, ?Hc, ?Hlb, ?Hrb;
    try reflexivity;
    try (destruct (waypoints (polyline s)); simpl in *; [lia|done]).
  simpl. by rewrite app_nil_r.
Qed.

Lemma collect_raises (segs : list LaneSegment) (m : Mat4) (cx cy r : Q)
    (tlr : gmap Z Z) (s : LaneSegment) :
  s ∈ segs -> raises (process_segment s m cx cy r tlr) ->
  raises (collect segs m cx cy r tlr).
Proof.
  intros Hs (out & e & Hraise).
  induction segs as [|x segs IH]; [inversion Hs|].
  cbn [collect]. apply elem_of_cons in Hs as [<-|Hs].
  - rewrite Hraise. by eexists _, _.
  - apply raises_bind. intros out1 c1 _.
    apply raises_bind. intros out2 rl2 Hrest.
    destruct (IH Hs) as (? & ? & Hc). congruence.
Qed.

Lemma collect_TypeError (segs : list LaneSegment) (m : Mat4) (cx cy r : Q)
    (tlr : gmap Z Z) (s : LaneSegment) :
  Forall twenty_points segs ->
  s ∈ segs -> inside s cx cy r = true -> speed_limit_mph s = None ->
  exists out, collect segs m cx cy r tlr = (out, Raise TypeError).
Proof.
  intros Hall Hs Hin Hv.
  induction Hall as [|x segs Hx _ IH]; [inversion Hs|].
  cbn [collect].
  destruct (inside x cx cy r) eqn:Hxin; [destruct (speed_limit_mph x) as [v|] eqn:Hxv|].
  - destruct (process_segment_packable x m cx cy r tlr) as [out Hout].
    { split; [assumption|]. intros _. by eexists. }
    rewrite Hout, Hxin. apply elem_of_cons in Hs as [->|Hs]; [congruence|].
    destruct (IH Hs) as [out' Hrest]. cbn [io_bind]. rewrite Hrest. by eexists.
  - destruct (process_segment_no_speed_TypeError x m cx cy r tlr Hx Hxin Hxv)
      as [out Hout].
    rewrite Hout. by eexists.
  - destruct (process_segment_packable x m cx cy r tlr) as [out Hout].
    { split; [assumption|]. intros ?. congruence. }
    rewrite Hout, Hxin. apply elem_of_cons in Hs as [->|Hs]; [congruence|].
    destruct (IH Hs) as [out' Hrest]. cbn [io_bind]. rewrite Hrest. by eexists.
Qed.

(** C7: a lane in range whose speed limit is [None] makes
    [create_lane_tensor] fail: it always ends in an exception and returns
    no tensors; on a map of 20-point lanes the exception is the
    [TypeError] of [None * 0.44704] in [process_segment], raised before
    anything is sorted or packed. *)
Theorem missing_speed_limit_is_fatal sqrtQ (segs : list LaneSegment) (m : Mat4)
    (cx cy r : Q) (tlr : gmap Z Z) (N : nat) (s : LaneSegment) :
  s ∈ segs -> inside s cx cy r = true -> speed_limit_mph s = None ->
  raises (create_lane_tensor sqrtQ segs m cx cy r tlr N)
  /\ (Forall twenty_points segs ->
      exists out, create_lane_tensor sqrtQ segs m cx cy r tlr N = (out, Raise TypeError)).
Proof.
  intros Hs Hin Hv. unfold create_lane_tensor. split.
  - destruct (collect_raises segs m cx cy r tlr s Hs) as (out & e & Hc).
    { by apply process_segment_no_speed_raises. }
    rewrite Hc. by eexists _, _.
  - intros Hall.
    destruct (collect_TypeError segs m cx cy r tlr s Hall Hs Hin Hv) as [out Hc].
    rewrite Hc. by eexists.
Qed.

Lemma missing_speed_limit_is_fatal_witness :
  straight_lane 2 20 None [] ∈ no_speed_example
  /\ inside (straight_lane 2 20 None []) 0 0 100 = true
  /\ speed_limit_mph (straight_lane 2 20 None []) = None
  /\ raises (create_lane_tensor Qsqrt_fix no_speed_example identity4 0 0 100 ∅ 3)
  /\ (Forall twenty_points no_speed_example ->
      exists out,
        create_lane_tensor Qsqrt_fix no_speed_example identity4 0 0 100 ∅ 3
        = (out, Raise TypeError)).
Proof.
  assert (H1 : straight_lane 2 20 None [] ∈ no_speed_example)
    by (right; left).
  assert (H2 : inside (straight_lane 2 20 None []) 0 0 100 = true)
    by (vm_compute; reflexivity).
  assert (H3 : speed_limit_mph (straight_lane 2 20 None []) = None) by reflexivity.
  repeat (split; [assumption|]).
  exact (missing_speed_limit_is_fatal Qsqrt_fix no_speed_example identity4
           0 0 100 ∅ 3 _ H1 H2 H3).
Defined.

Example no_speed_example_raises :
  create_lane_tensor Qsqrt_fix no_speed_example identity4 0 0 100 ∅ 3
  = ([], Raise TypeError).
Proof. vm_compute. reflexivity. Qed.

(** ** Units of the speed limit *)

(** The factor applied to a value in km/h is 0.27777769184, below
    1 / 3.6 by 2417 / 28125000000. *)
Lemma conversion_factor (v : Q) :
  v * kph2mph * mph2mps == v / (36 # 10) - v * (2417 # 28125000000).
Proof. unfold kph2mph, mph2mps. field. Qed.

(** C9, as the code has it: a lanelet whose ["speed_limit"] attribute
    reads as [v] (km/h) gets the speed limit [v * 0.621371] (mph); a
    20-point lane in range with that limit is emitted with the speed
    limit [v * 0.621371 * 0.44704], which is stored unchanged in row 0
    when the lane is packed alone; this value is [v / 3.6] less
    [v * 2417 / 28125000000], hence not [v / 3.6] unless [v] is 0. *)
Theorem speed_limit_conversion (parse_float : string -> option Q) (lanelet : Lanelet)
    (text : string) (v : Q) (sqrtQ : Q -> Q) (s : LaneSegment) (m : Mat4)
    (cx cy r : Q) (tlr : gmap Z Z) (N : nat) :
  attributes lanelet !! "speed_limit"%string = Some text ->
  parse_float text = Some v ->
  twenty_points s -> inside s cx cy r = true ->
  _get_speed_limit_mph parse_float lanelet = Ok (speed_limit_mph s) ->
  (1 <= N)%nat ->
  _get_speed_limit_mph parse_float lanelet = Ok (Some (v * kph2mph))
  /\ (exists out line_data,
        process_segment s m cx cy r tlr
        = (out, Ok (Some (line_data, Some (v * kph2mph * mph2mps)))))
  /\ (exists out lanes speeds flags,
        create_lane_tensor sqrtQ [s] m cx cy r tlr N
        = (out, Ok ([lanes], [speeds], [flags]))
        /\ speeds !! 0%nat = Some [v * kph2mph * mph2mps])
  /\ v * kph2mph * mph2mps == v / (36 # 10) - v * (2417 # 28125000000)
  /\ (~ v == 0 -> ~ v * kph2mph * mph2mps == v / (36 # 10)).
Proof.
  intros Hattr Hparse Hs Hin Hlimit HN.
  assert (Hget : _get_speed_limit_mph parse_float lanelet = Ok (Some (v * kph2mph)))
    by (unfold _get_speed_limit_mph; by rewrite Hattr, Hparse).
  assert (Hv : speed_limit_mph s = Some (v * kph2mph)) by congruence.
  split; [exact Hget|].
  destruct (encode_traffic_light_total s tlr) as (out & tl & Htl & _).
  split.
  { exists out, (line_data_of m s tl). by apply process_segment_inside. }
  split.
  { assert (Hp : Forall (packable cx cy r) [s]).
    { constructor; [|constructor]. split; [assumption|]. intros _. by eexists. }
    destruct (create_lane_tensor_spec sqrtQ [s] m cx cy r tlr N Hp) as [out' Hout].
    eexists out', _, _, _. split; [exact Hout|].
    unfold kept, survivors, in_range, sort_by. simpl. rewrite Hin. simpl.
    destruct N as [|N]; [lia|]. simpl. unfold speed_entry, transformed. simpl.
    by rewrite Hv. }
  split; [apply conversion_factor|].
  intros Hne Heq. rewrite conversion_factor in Heq.
  apply Hne. lra.
Qed.

Lemma speed_limit_conversion_witness :
  attributes speed_lanelet !! "speed_limit"%string = Some "36"%string
  /\ parse_decimal "36" = Some 36
  /\ twenty_points speed_lane /\ inside speed_lane 0 0 100 = true
  /\ _get_speed_limit_mph parse_decimal speed_lanelet = Ok (speed_limit_mph speed_lane)
  /\ (1 <= 1)%nat
  /\ exists out lanes speeds flags,
       create_lane_tensor Qsqrt_fix [speed_lane] identity4 0 0 100 ∅ 1
       = (out, Ok ([lanes], [speeds], [flags]))
       /\ speeds !! 0%nat = Some [36 * kph2mph * mph2mps].
Proof.
  assert (H1 : attributes speed_lanelet !! "speed_limit"%string = Some "36"%string)
    by reflexivity.
  assert (H2 : parse_decimal "36" = Some 36) by reflexivity.
  assert (H3 : twenty_points speed_lane) by apply straight_lane_twenty_points.
  assert (H4 : inside speed_lane 0 0 100 = true) by (vm_compute; reflexivity).
  assert (H5 : _get_speed_limit_mph parse_decimal speed_lanelet
               = Ok (speed_limit_mph speed_lane)) by reflexivity.
  assert (H6 : (1 <= 1)%nat) by lia.
  repeat (split; [assumption|]).
  destruct (speed_limit_conversion parse_decimal speed_lanelet "36" 36 Qsqrt_fix
              speed_lane identity4 0 0 100 ∅ 1 H1 H2 H3 H4 H5 H6)
    as (_ & _ & Hex & _).
  exact Hex.
Defined.

(** The claim as stated fails: 36 km/h is 10 m/s, and the row of the lane
    holds 9.99999690624. *)
Lemma speed_limit_conversion_counterexample :
  _get_speed_limit_mph parse_decimal speed_lanelet = Ok (speed_limit_mph speed_lane)
  /\ parse_decimal "36" = Some 36
  /\ exists lanes speed flags,
       create_lane_tensor Qsqrt_fix [speed_lane] identity4 0 0 100 ∅ 1
       = ([], Ok ([lanes], [[[speed]]], flags))
       /\ speed == 999999690624 # 100000000000
       /\ ~ speed == 36 / (36 # 10).
Proof.
  split; [reflexivity|]. split; [reflexivity|].
  eexists _, _, _. split; [vm_compute; reflexivity|].
  split; [reflexivity|]. intros H. vm_compute in H. discriminate.
Qed.

(** ** Resampling at a fixed spacing *)

Lemma np_interp_cons2 (x x0 x1 y0 y1 : Q) (xp fp : list Q) :
  np_interp x (x0 :: x1 :: xp) (y0 :: y1 :: fp)
  = if Qle_bool x1 x then np_interp x (x1 :: xp) (y1 :: fp)
    else if Qeq_bool x0 x then Ok y0
         else let* slope := fdiv (y1 - y0) (x1 - x0) in Ok (slope * (x - x0) + y0).
Proof. reflexivity. Qed.


Lemma close_refl (a : Q) : close a a = true.
Proof.
  unfold close. apply Qle_bool_iff.
  assert (E : Qabs (a - a) == 0).
  { assert (E0 : a - a == 0) by ring. rewrite E0. reflexivity. }
  rewrite E. pose proof (Qabs_nonneg a). lra.
Qed.

Lemma allclose_refl (p : Point3) : allclose p p = true.
Proof. unfold allclose. by rewrite !close_refl. Qed.



Section DegenerateLane.

Variable sqrtQ : Q -> Q.
Hypothesis sqrtQ_zero : forall x, x == 0 -> sqrtQ x == 0.







End DegenerateLane.

(** ** The instance [Qsqrt_fix] *)

Lemma Qsqrt_fix_nonneg (x : Q) : 0 <= Qsqrt_fix x.
Proof.
  unfold Qsqrt_fix, Qle. simpl.
  pose proof (Z.sqrt_nonneg (Qnum x * 1000000000000 / Z.pos (Qden x))). lia.
Qed.


(** ** Resampling to a fixed count *)




(** A polyline that only rises has the length 0 in the x-y plane, and
    every sample is its first point. *)
Example vertical_line_is_degenerate :
  line_length Qsqrt_fix [mkPoint3 0 0 0; mkPoint3 0 0 1] == 0
  /\ _interpolate_points Qsqrt_fix [mkPoint3 0 0 0; mkPoint3 0 0 1] 3
     = Ok (replicate 3 (mkPoint3 0 0 0)).
Proof. split; vm_compute; reflexivity. Qed.

(** ** Degenerate input *)




(** The two stages of map construction on a repeated point: the
    0.5-spacing pass returns one point, which [LineString] refuses. *)
Example degenerate_lane_two_stages :
  (let* w := _interpolate_lane Qsqrt_fix (replicate 2 (mkPoint3 1 2 3)) in
   _interpolate_points Qsqrt_fix w 20) = Raise GEOSException.
Proof. vm_compute. reflexivity. Qed.

(** ** The masking check of the visualizer *)

Lemma item_ok (a : list Q) (k : nat) :
  (k < length a)%nat -> exists x, item a k = Ok x.
Proof.
  intros H. unfold item. destruct (lookup_lt_is_Some_2 a k H) as [x ->]. by eexists.
Qed.

Lemma light_color_ok (p : list Q) :
  length p = 12%nat -> exists c, light_color p = Ok c.
Proof.
  intros H. do 13 (destruct p as [|? p]; try discriminate).
  unfold light_color. simpl.
  repeat (match goal with |- context [if ?b then _ else _] => destruct b end);
    by eexists.
Qed.
















(** ** Further properties of a processed segment *)

(** What [process_segment] returns for a 20-point lane is [line_data_of]. *)
Lemma process_segment_returns (s : LaneSegment) (m : Mat4) (cx cy r : Q)
    (tlr : gmap Z Z) (out : list event) (line_data : list (list Q)) (speed : option Q) :
  twenty_points s ->
  process_segment s m cx cy r tlr = (out, Ok (Some (line_data, speed))) ->
  inside s cx cy r = true /\ exists tl, line_data = line_data_of m s tl.
Proof.
  intros Hs Hret. destruct (inside s cx cy r) eqn:Hin.
  - split; [reflexivity|].
    destruct (encode_traffic_light_total s tlr) as (out' & tl & Htl & _).
    destruct (speed_limit_mph s) as [v|] eqn:Hv.
    + rewrite (process_segment_inside s m cx cy r tlr out' tl v Hs Hin Htl Hv) in Hret.
      exists tl. congruence.
    + destruct (process_segment_no_speed_TypeError s m cx cy r tlr Hs Hin Hv) as [o Ho].
      congruence.
  - destruct Hs as (Hl & Hr & _).
    rewrite (process_segment_outside s m cx cy r tlr Hl Hr Hin) in Hret. discriminate.
Qed.

(** X1: range filter: a lane that [process_segment] returns has its centre
    strictly within [mask_range * 1.1] of the ego position on both axes,
    in the map frame. *)
Theorem returned_segment_in_window (s : LaneSegment) (m : Mat4) (cx cy r : Q)
    (tlr : gmap Z Z) (out : list event) (line_data : list (list Q)) (speed : option Q) :
  twenty_points s ->
  process_segment s m cx cy r tlr = (out, Ok (Some (line_data, speed))) ->
  cx - r * (11 # 10) < fst (center s) /\ fst (center s) < cx + r * (11 # 10)
  /\ cy - r * (11 # 10) < snd (center s) /\ snd (center s) < cy + r * (11 # 10).
Proof.
  intros Hs Hret. destruct (process_segment_returns _ _ _ _ _ _ _ _ _ Hs Hret) as [Hin _].
  unfold inside in Hin. rewrite !andb_true_iff in Hin.
  destruct Hin as [[[H1 H2] H3] H4]. by rewrite <- !Qlt_bool_true.
Qed.

Lemma last_zip_with {A B C : Type} (f : A -> B -> C) (l : list A) (k : list B) (c : C) :
  length l = length k -> last (zip_with f l k) = Some c ->
  exists a b, c = f a b /\ last l = Some a /\ last k = Some b.
Proof.
  intros Hlen Hlast. rewrite last_lookup in Hlast.
  apply lookup_zip_with_Some in Hlast as (a & b & -> & Ha & Hb).
  rewrite length_zip_with, <- Hlen, Nat.min_id in Ha, Hb.
  exists a, b. split; [reflexivity|]. rewrite !last_lookup, <- Hlen. by split.
Qed.

(** X2: heading delta: in what [process_segment] returns for a 20-point
    lane, channels 2 and 3 of the last row are 0. *)
Theorem heading_delta_last_row_zero (s : LaneSegment) (m : Mat4) (cx cy r : Q)
    (tlr : gmap Z Z) (out : list event) (line_data : list (list Q)) (speed : option Q)
    (row : list Q) :
  twenty_points s ->
  process_segment s m cx cy r tlr = (out, Ok (Some (line_data, speed))) ->
  last line_data = Some row ->
  row !! 2%nat = Some 0 /\ row !! 3%nat = Some 0.
Proof.
  intros Hs Hret Hlast.
  destruct (process_segment_returns _ _ _ _ _ _ _ _ _ Hs Hret) as [_ [tl ->]].
  destruct Hs as (Hl & Hr & Hall). unfold line_data_of in Hlast.
  destruct (lane_polylines s) as [|c [|l [|rb [|]]]] eqn:E; try by inversion E.
  apply Forall_cons in Hall as [Hc Hall].
  apply Forall_cons in Hall as [Hlb Hall].
  apply Forall_cons in Hall as [Hrb _].
  assert (Hne : map (to_base_link m) c <> [])
    by (destruct c; simpl in *; [lia|done]).
  apply last_zip_with in Hlast as (a & rest & -> & Ha & Hrest).
  2:{ rewrite !length_zip_with, !length_map, length_replicate, length_diff_rows,
        !length_zip_with, !length_map, Hc, Hlb, Hrb by exact Hne. reflexivity. }
  apply last_zip_with in Hrest as (d & rest' & -> & Hd & _).
  2:{ rewrite !length_zip_with, !length_map, length_replicate, length_diff_rows,
        !length_zip_with, !length_map, Hc, Hlb, Hrb by exact Hne. reflexivity. }
  unfold diff_rows in Hd. rewrite map_app in Hd. simpl in Hd.
  rewrite last_snoc in Hd. injection Hd as <-.
  rewrite last_lookup in Ha. apply lookup_map_xy in Ha.
  destruct a as [|? [|? [|]]]; try discriminate. by split.
Qed.

Lemma lookup_map_Some {A B : Type} (f : A -> B) (l : list A) (i : nat) (b : B) :
  map f l !! i = Some b -> exists a, l !! i = Some a /\ b = f a.
Proof.
  revert i. induction l as [|x l IH]; intros [|i] H; simpl in H; try discriminate.
  - injection H as <-. by exists x.
  - by apply IH.
Qed.

(** X3: boundary offsets: in what [process_segment] returns for a 20-point
    lane, channels 4-5 and 6-7 of row [i] are the transformed left and
    right boundary points [i] relative to the centerline point of the
    same row (channels 0-1). *)
Theorem boundary_offsets_relative (s : LaneSegment) (m : Mat4) (cx cy r : Q)
    (tlr : gmap Z Z) (out : list event) (line_data : list (list Q)) (speed : option Q)
    (c lb rb : list Point3) (i : nat) (row : list Q) (lp rp : Point3) :
  twenty_points s ->
  process_segment s m cx cy r tlr = (out, Ok (Some (line_data, speed))) ->
  lane_polylines s = [c; lb; rb] ->
  line_data !! i = Some row -> lb !! i = Some lp -> rb !! i = Some rp ->
  exists x y lx ly rx ry,
    take 2 row = [x; y] /\ take 4 (drop 4 row) = [lx; ly; rx; ry]
    /\ lx + x == px (to_base_link m lp) /\ ly + y == py (to_base_link m lp)
    /\ rx + x == px (to_base_link m rp) /\ ry + y == py (to_base_link m rp).
Proof.
  intros Hs Hret Hpoly Hrow Hlp Hrp.
  destruct (process_segment_returns _ _ _ _ _ _ _ _ _ Hs Hret) as [_ [tl ->]].
  unfold line_data_of in Hrow. rewrite Hpoly in Hrow.
  apply lookup_zip_with_Some in Hrow as (a & R1 & -> & Ha & Hrow).
  apply lookup_zip_with_Some in Hrow as (d & R2 & -> & Hd & Hrow).
  apply lookup_zip_with_Some in Hrow as (l & R3 & -> & Hl & Hrow).
  apply lookup_zip_with_Some in Hrow as (rr & t & -> & Hr & _).
  apply lookup_map_Some in Ha as (cp & Hcp & ->).
  apply lookup_map_Some in Hcp as (cp0 & Hcp0 & ->).
  apply lookup_map_xy in Hd.
  apply lookup_map_Some in Hl as (lo & Hlo & ->).
  apply lookup_zip_with_Some in Hlo as (l1 & c1 & -> & Hl1 & Hc1).
  apply lookup_map_Some in Hl1 as (lp' & Hlp' & ->).
  apply lookup_map_Some in Hc1 as (cp1 & Hcp1 & ->).
  apply lookup_map_Some in Hr as (ro & Hro & ->).
  apply lookup_zip_with_Some in Hro as (r1 & c2 & -> & Hr1 & Hc2).
  apply lookup_map_Some in Hr1 as (rp' & Hrp' & ->).
  apply lookup_map_Some in Hc2 as (cp2 & Hcp2 & ->).
  assert (lp' = lp) by congruence. assert (rp' = rp) by congruence.
  assert (cp1 = cp0) by congruence. assert (cp2 = cp0) by congruence. subst.
  destruct d as [|? [|? [|]]]; try discriminate.
  eexists _, _, _, _, _, _. split; [reflexivity|]. split; [reflexivity|].
  simpl. repeat split; ring.
Qed.

Lemma plain_lane_processed :
  process_segment plain_lane identity4 0 0 100 ∅
  = ([], Ok (Some (plain_rows, Some (10 * mph2mps)))).
Proof.
  apply process_segment_inside;
    [apply straight_lane_twenty_points|vm_compute; reflexivity|reflexivity..].
Qed.

Lemma returned_segment_in_window_witness :
  twenty_points plain_lane
  /\ process_segment plain_lane identity4 0 0 100 ∅
     = ([], Ok (Some (plain_rows, Some (10 * mph2mps))))
  /\ 0 - 100 * (11 # 10) < fst (center plain_lane)
  /\ fst (center plain_lane) < 0 + 100 * (11 # 10)
  /\ 0 - 100 * (11 # 10) < snd (center plain_lane)
  /\ snd (center plain_lane) < 0 + 100 * (11 # 10).
Proof.
  assert (H1 : twenty_points plain_lane) by apply straight_lane_twenty_points.
  assert (H2 := plain_lane_processed).
  repeat (split; [assumption|]).
  exact (returned_segment_in_window plain_lane identity4 0 0 100 ∅ _ _ _ H1 H2).
Defined.

Lemma heading_delta_last_row_zero_witness :
  twenty_points plain_lane
  /\ process_segment plain_lane identity4 0 0 100 ∅
     = ([], Ok (Some (plain_rows, Some (10 * mph2mps))))
  /\ exists row, last plain_rows = Some row
                 /\ row !! 2%nat = Some 0 /\ row !! 3%nat = Some 0.
Proof.
  assert (H1 : twenty_points plain_lane) by apply straight_lane_twenty_points.
  assert (H2 := plain_lane_processed).
  repeat (split; [assumption|]).
  destruct (last plain_rows) as [row|] eqn:H3; [|vm_compute in H3; discriminate].
  exists row. split; [reflexivity|].
  exact (heading_delta_last_row_zero plain_lane identity4 0 0 100 ∅ _ _ _ row H1 H2 H3).
Defined.

Lemma boundary_offsets_relative_witness :
  twenty_points plain_lane
  /\ process_segment plain_lane identity4 0 0 100 ∅
     = ([], Ok (Some (plain_rows, Some (10 * mph2mps))))
  /\ lane_polylines plain_lane = [straight 5 0; straight 5 1; straight 5 (-1)]
  /\ exists row x y lx ly rx ry,
       plain_rows !! 3%nat = Some row
       /\ take 2 row = [x; y] /\ take 4 (drop 4 row) = [lx; ly; rx; ry]
       /\ lx + x == 5 + 3 /\ ly + y == 1 /\ rx + x == 5 + 3 /\ ry + y == -1.
Proof.
  assert (H1 : twenty_points plain_lane) by apply straight_lane_twenty_points.
  assert (H2 := plain_lane_processed).
  assert (H3 : lane_polylines plain_lane = [straight 5 0; straight 5 1; straight 5 (-1)])
    by reflexivity.
  repeat (split; [assumption|]).
  destruct (plain_rows !! 3%nat) as [row|] eqn:H4; [|vm_compute in H4; discriminate].
  destruct (boundary_offsets_relative plain_lane identity4 0 0 100 ∅ _ _ _ _ _ _
              3 row (mkPoint3 (5 + 3) 1 0) (mkPoint3 (5 + 3) (-1) 0) H1 H2 H3 H4
              eq_refl eq_refl)
    as (x & y & lx & ly & rx & ry & Ht & Hd & E1 & E2 & E3 & E4).
  exists row, x, y, lx, ly, rx, ry. split; [reflexivity|].
  split; [exact Ht|]. split; [exact Hd|].
  simpl in E1, E2, E3, E4.
  split; [rewrite E1; ring|]. split; [rewrite E2; ring|].
  split; [rewrite E3; ring|]. rewrite E4; ring.
Defined.

(** * Further properties of the resampling functions *)

(** ** [_interpolate_lane] on every polyline *)

Lemma np_interp_total (x : Q) (xp fp : list Q) :
  length xp = length fp ->
  (exists x0, head xp = Some x0 /\ x0 <= x) ->
  exists y, np_interp x xp fp = Ok y.
Proof.
  revert fp. induction xp as [|x0 xp IH]; intros fp Hlen (x0' & Hhead & Hle).
  - discriminate.
  - simpl in Hhead. injection Hhead as <-.
    destruct fp as [|y0 fp]; [discriminate|].
    destruct xp as [|x1 xp]; destruct fp as [|y1 fp]; simpl in Hlen; try lia.
    + by eexists.
    + rewrite np_interp_cons2.
      destruct (Qle_bool x1 x) eqn:E1.
      * apply Qle_bool_iff in E1. apply IH; [simpl; lia|by exists x1].
      * destruct (Qeq_bool x0 x) eqn:E2; [by eexists|].
        assert (Hlt : x < x1).
        { destruct (Qlt_le_dec x x1) as [?|Hge]; [assumption|].
          apply Qle_bool_iff in Hge. congruence. }
        rewrite fdiv_ok by lra. by eexists.
Qed.

Lemma length_arc_lengths sqrtQ (w : list Point3) :
  length (arc_lengths sqrtQ w) = length w.
Proof.
  destruct w as [|p w]; [reflexivity|]. simpl. f_equal.
  revert p. generalize 0 at 1. induction w as [|q w IH]; intros prev p; [reflexivity|].
  simpl. by rewrite IH.
Qed.

Lemma np_arange_below (stop step : Q) :
  0 < step -> Forall (fun d => 0 <= d /\ d < stop) (np_arange stop step).
Proof.
  intros Hstep. unfold np_arange. apply Forall_forall. intros d Hd.
  apply list_elem_of_fmap in Hd as (i & -> & Hi).
  apply elem_of_seq in Hi as [_ Hi]. simpl in Hi.
  assert (Hi' : (Z.of_nat i < Qceiling (stop / step))%Z) by lia.
  pose proof (Qceiling_lt (stop / step)) as Hc.
  assert (Hq : inject_Z (Z.of_nat i) <= inject_Z (Qceiling (stop / step) - 1)).
  { rewrite <- Zle_Qle. lia. }
  assert (H0 : 0 <= inject_Z (Z.of_nat i)).
  { change 0 with (inject_Z 0). rewrite <- Zle_Qle. lia. }
  assert (Hlt : inject_Z (Z.of_nat i) < stop / step) by lra.
  split; [nra|].
  assert (E : stop == stop / step * step) by (field; lra).
  rewrite E. apply Qmult_lt_compat_r; assumption.
Qed.

Section LaneTotal.

Variable sqrtQ : Q -> Q.
Hypothesis sqrtQ_nonneg : forall x, 0 <= sqrtQ x.

Lemma norm3_nonneg (p q : Point3) : 0 <= norm3 sqrtQ p q.
Proof. apply sqrtQ_nonneg. Qed.

Lemma cumulative_above (prev : Q) (p : Point3) (rest : list Point3) :
  Forall (fun d => prev <= d) (cumulative sqrtQ prev p rest).
Proof.
  revert prev p. induction rest as [|q rest IH]; intros prev p; simpl; [constructor|].
  pose proof (norm3_nonneg p q) as Hn.
  constructor; [lra|].
  eapply Forall_impl; [apply IH|]. intros d Hd. simpl in Hd. lra.
Qed.

Lemma arc_lengths_nonneg (w : list Point3) :
  Forall (fun d => 0 <= d) (arc_lengths sqrtQ w).
Proof.
  destruct w as [|p w]; simpl; [constructor|].
  constructor; [lra|]. apply cumulative_above.
Qed.

(** Every new arc length lies between the first and the last knot, so
    that each call of the interpolant returns. *)
Lemma interp1d_in_range (w : list Point3) (f : Point3 -> Q) (total x : Q) :
  last (arc_lengths sqrtQ w) = Some total -> 0 <= x -> x <= total ->
  exists y, interp1d (arc_lengths sqrtQ w) (map f w) x = Ok y.
Proof.
  intros Hlast H0 Hx. unfold interp1d. rewrite Hlast.
  destruct w as [|p w]; [discriminate|].
  cbn [arc_lengths head].
  assert (E1 : Qlt_bool x 0 = false) by (by apply Qlt_bool_false).
  assert (E2 : Qlt_bool total x = false) by (by apply Qlt_bool_false).
  rewrite E1, E2. cbn [orb].
  apply np_interp_total.
  - change (0 :: cumulative sqrtQ 0 p w) with (arc_lengths sqrtQ (p :: w)).
    by rewrite length_arc_lengths, length_map.
  - by exists 0.
Qed.

Lemma mapM_interp1d (w : list Point3) (f : Point3 -> Q) (total : Q) (xs : list Q) :
  last (arc_lengths sqrtQ w) = Some total ->
  Forall (fun x => 0 <= x /\ x <= total) xs ->
  exists ys, mapM (interp1d (arc_lengths sqrtQ w) (map f w)) xs = Ok ys
             /\ length ys = length xs.
Proof.
  intros Hlast Hall.
  destruct (mapM_total (interp1d (arc_lengths sqrtQ w) (map f w)) xs) as [ys Hys].
  { intros x Hx. rewrite Forall_forall in Hall. destruct (Hall x Hx).
    by apply (interp1d_in_range w f total). }
  exists ys. split; [by apply mapM_Forall2|]. symmetry. by eapply Forall2_length.
Qed.

End LaneTotal.

Lemma length_vstack_T (xs ys zs : list Q) :
  length ys = length xs -> length zs = length xs ->
  length (vstack_T xs ys zs) = length xs.
Proof.
  revert ys zs. induction xs as [|x xs IH]; intros [|y ys] [|z zs]; simpl; try lia.
  intros Hy Hz. rewrite IH; lia.
Qed.

Lemma last_is_Some {A : Type} (l : list A) : l <> [] -> exists a, last l = Some a.
Proof.
  induction l as [|a [|b l] IH]; [done|by exists a|].
  intros _. destruct IH as [c Hc]; [done|]. by exists c.
Qed.

Lemma last_cons_ne {A : Type} (a : A) (l : list A) : l <> [] -> last (a :: l) = last l.
Proof. by destruct l. Qed.

Section LaneEndpoints.

Variable sqrtQ : Q -> Q.
Hypothesis sqrtQ_nonneg : forall x, 0 <= sqrtQ x.

Lemma interpolate_lane_returns (w : list Point3) (p0 pn : Point3) :
  head w = Some p0 -> last w = Some pn ->
  exists out q0 qn,
    _interpolate_lane sqrtQ w = Ok out
    /\ head out = Some q0 /\ last out = Some qn
    /\ allclose q0 p0 = true /\ allclose qn pn = true
    /\ (lane_samples sqrtQ w <= length out <= lane_samples sqrtQ w + 2)%nat.
Proof.
  intros Hhead Hlast.
  assert (Hne : w <> []) by (by destruct w).
  assert (Hd : arc_lengths sqrtQ w <> []) by (by destruct w).
  destruct (last_is_Some _ Hd) as [total Htotal].
  assert (Htot0 : 0 <= total).
  { pose proof (arc_lengths_nonneg sqrtQ sqrtQ_nonneg w) as Hall.
    rewrite Forall_forall in Hall. apply Hall.
    apply last_Some_elem_of. exact Htotal. }
  assert (Hnew : Forall (fun x => 0 <= x /\ x <= total) (np_arange total (1 # 2) ++ [total])).
  { apply Forall_app. split.
    - eapply Forall_impl; [apply np_arange_below; lra|]. simpl. intros x [? ?]. lra.
    - constructor; [lra|constructor]. }
  destruct (mapM_interp1d sqrtQ w px total _ Htotal Hnew) as (xs & Hxs & Lx).
  destruct (mapM_interp1d sqrtQ w py total _ Htotal Hnew) as (ys & Hys & Ly).
  destruct (mapM_interp1d sqrtQ w pz total _ Htotal Hnew) as (zs & Hzs & Lz).
  unfold _interpolate_lane, lane_samples. rewrite Htotal. cbn [bind default].
  rewrite Hxs, Hys, Hzs. cbn [bind].
  assert (Lv : length (vstack_T xs ys zs) = S (length (np_arange total (1 # 2)))).
  { rewrite length_vstack_T by congruence. rewrite Lx, length_app. simpl. lia. }
  assert (La : length (np_arange total (1 # 2))
               = Z.to_nat (Qceiling (total / (1 # 2)))).
  { unfold np_arange. by rewrite length_map, length_seq. }
  rewrite La in Lv. clear La.
  destruct (vstack_T xs ys zs) as [|first_new nw] eqn:Ev; [discriminate|].
  cbn [index0 bind]. destruct w as [|first_old w']; [done|]. cbn [index0 bind].
  simpl in Hhead. injection Hhead as ->.
  set (nw' := if negb (allclose first_new p0) then p0 :: first_new :: nw
              else first_new :: nw).
  assert (Hnw' : exists q0 rest, nw' = q0 :: rest /\ allclose q0 p0 = true
                                 /\ (length (first_new :: nw) <= length nw'
                                     <= S (length (first_new :: nw)))%nat).
  { subst nw'. destruct (allclose first_new p0) eqn:E; cbn [negb].
    - exists first_new, nw. split_and!; [done|done|lia|lia].
    - exists p0, (first_new :: nw).
      split_and!; [done|apply allclose_refl|simpl; lia|simpl; lia]. }
  destruct Hnw' as (q0 & rest & Enw & Hq0 & Hlen). rewrite Enw.
  destruct (last_is_Some (q0 :: rest)) as [last_new Hln]; [done|].
  rewrite Hln, Hlast. rewrite Enw in Hlen.
  destruct (allclose last_new pn) eqn:E; cbn [negb].
  - exists (q0 :: rest), q0, last_new. simpl in Hlen, Lv. split_and!; try done; simpl; lia.
  - exists ((q0 :: rest) ++ [pn]), q0, pn. simpl in Hlen, Lv.
    split_and!; try done.
    + by rewrite last_snoc.
    + apply allclose_refl.
    + rewrite length_app. simpl. lia.
    + rewrite length_app. simpl. lia.
Qed.

End LaneEndpoints.

(** ** The points of [_interpolate_points] *)

Lemma on_polyline_cons (p : Point3) (line : list Point3) (q : Point3) :
  on_polyline line q -> on_polyline (p :: line) q.
Proof.
  intros [Hin|(i & p0 & p1 & H0 & H1 & Hseg)].
  - left. by constructor.
  - right. by exists (S i), p0, p1.
Qed.

Lemma locate_forward_on_polyline sqrtQ (pts : list Point3) (total d : Q) (q : Point3) :
  total <= d -> locate_forward sqrtQ total pts d = Ok q -> on_polyline pts q.
Proof.
  revert total. induction pts as [|p0 [|p1 pts] IH]; intros total Hle Hloc.
  - discriminate.
  - simpl in Hloc. injection Hloc as <-. left. constructor.
  - rewrite locate_forward_cons2 in Hloc.
    destruct (Qlt_bool d (total + dist2 sqrtQ p0 p1)) eqn:E.
    + apply Qlt_bool_true in E.
      rewrite fdiv_ok in Hloc by lra. cbn [bind] in Hloc. injection Hloc as <-.
      right. exists 0%nat, p0, p1. split_and!; [done|done|].
      exists ((d - total) / dist2 sqrtQ p0 p1). split_and!; [| |done].
      * apply Qle_shift_div_l; lra.
      * apply Qlt_shift_div_r; lra.
    + apply Qlt_bool_false in E. apply on_polyline_cons. by apply (IH (total + dist2 sqrtQ p0 p1)).
Qed.

Lemma interpolate_on_polyline sqrtQ (pts : list Point3) (d : Q) (q : Point3) :
  interpolate sqrtQ pts d = Ok [q] -> on_polyline pts q.
Proof.
  destruct pts as [|p pts]; [discriminate|]. unfold interpolate.
  destruct (Qle_bool d 0) eqn:E.
  - intros [= <-]. left. constructor.
  - destruct (locate_forward sqrtQ 0 (p :: pts) d) as [q'|e] eqn:Hloc; [|discriminate].
    cbn [bind]. intros [= <-].
    apply (locate_forward_on_polyline sqrtQ _ 0 d); [|done].
    destruct (Qlt_le_dec 0 d) as [?|Hd]; [lra|].
    apply Qle_bool_iff in Hd. congruence.
Qed.

Lemma linspace_head (stop : Q) (K : nat) :
  (1 <= K)%nat -> exists d0, head (linspace 0 stop K) = Some d0 /\ d0 <= 0.
Proof.
  destruct K as [|[|n]]; [lia| |]; intros _.
  - exists 0. split; [done|lra].
  - destruct (linspace_ends 0 stop n) as (d0 & ds & -> & Hd0). exists d0. split; [done|lra].
Qed.

(** X4: for every polyline of at least two points and every count
    [K >= 1], whatever its length, [_interpolate_points] returns exactly [K]
    points, the first of which is the first point of the polyline, and
    every returned point is a vertex of the polyline or lies on the
    segment between two consecutive vertices. *)
Theorem resampled_points_on_polyline sqrtQ (line : list Point3) (K : nat) :
  (2 <= length line)%nat -> (1 <= K)%nat ->
  exists out,
    _interpolate_points sqrtQ line K = Ok out
    /\ length out = K /\ head out = head line /\ Forall (on_polyline line) out.
Proof.
  intros Hline HK.
  destruct (interpolate_points_samples sqrtQ line K Hline HK) as (out & Hout & Hall).
  exists out. split_and!; [done| | |].
  - rewrite <- (Forall2_length _ _ _ Hall). apply length_linspace.
  - destruct (linspace_head (line_length sqrtQ line) K HK) as (d0 & Hd0 & Hle).
    destruct Hall as [|d q ds out' Hq _]; [discriminate|].
    simpl in Hd0. injection Hd0 as ->.
    destruct line as [|p line]; [simpl in Hline; lia|].
    rewrite interpolate_start in Hq by done. by injection Hq as <-.
  - clear Hout. induction Hall as [|d q ds out' Hq _ IH]; [constructor|].
    constructor; [|done]. by apply (interpolate_on_polyline sqrtQ line d).
Qed.

(** ** The even spacing of [_interpolate_points] *)

Lemma linspace_lookup (stop : Q) (n i : nat) (d : Q) :
  linspace 0 stop (S (S n)) !! i = Some d ->
  (i <= S n)%nat /\ d == inject_Z (Z.of_nat i) * stop / inject_Z (Z.of_nat (S n)).
Proof.
  unfold linspace. intros Hd.
  assert (Hn : 0 < inject_Z (Z.of_nat (S n))).
  { change 0 with (inject_Z 0). rewrite <- Zlt_Qlt. lia. }
  apply lookup_app_Some in Hd as [Hd|[Hlen Hd]].
  - apply lookup_map_Some in Hd as (j & Hj & ->).
    apply lookup_seq in Hj as [-> Hj]. simpl in Hj. split; [lia|].
    cbn [Nat.add]. field. lra.
  - rewrite length_map, length_seq in Hlen, Hd.
    destruct (i - S n)%nat as [|k] eqn:Ek; [|by destruct k].
    simpl in Hd. injection Hd as <-.
    assert (i = S n) as -> by lia. split; [lia|]. field. lra.
Qed.

Lemma interpolate_two_points sqrtQ (p0 p1 q : Point3) (d t : Q) :
  0 < dist2 sqrtQ p0 p1 -> 0 <= d -> d <= dist2 sqrtQ p0 p1 ->
  t == d / dist2 sqrtQ p0 p1 ->
  interpolate sqrtQ [p0; p1] d = Ok [q] -> Peq q (point_along p0 p1 t).
Proof.
  intros HL H0 Hd Ht. unfold interpolate.
  destruct (Qle_bool d 0) eqn:E.
  - apply Qle_bool_iff in E. intros [= <-].
    assert (Ht0 : t == 0).
    { rewrite Ht. assert (d == 0) as -> by lra. field. lra. }
    unfold Peq, point_along; simpl. rewrite !Ht0. split_and!; ring.
  - rewrite locate_forward_cons2.
    destruct (Qlt_bool d (0 + dist2 sqrtQ p0 p1)) eqn:E1.
    + rewrite fdiv_ok by lra. cbn [bind]. intros [= <-].
      assert (Ht' : (d - 0) / dist2 sqrtQ p0 p1 == t).
      { rewrite Ht. field. lra. }
      unfold Peq, point_along; simpl. rewrite !Ht'. split_and!; reflexivity.
    + apply Qlt_bool_false in E1. simpl. intros [= <-].
      assert (Ht1 : t == 1).
      { rewrite Ht. assert (d == dist2 sqrtQ p0 p1) as -> by lra. field. lra. }
      unfold Peq, point_along; simpl. rewrite !Ht1. split_and!; ring.
Qed.

(** X5: even spacing: for a segment [p0 p1] of positive planar length
    and [K >= 2], point [i] of what [_interpolate_points] returns is
    [p0 + i/(K-1) * (p1 - p0)], in x, y and z. *)
Theorem two_point_segment_evenly_spaced sqrtQ (p0 p1 : Point3) (K : nat) :
  0 < dist2 sqrtQ p0 p1 -> (2 <= K)%nat ->
  exists out,
    _interpolate_points sqrtQ [p0; p1] K = Ok out
    /\ length out = K
    /\ forall i q, out !! i = Some q ->
         Peq q (point_along p0 p1
                  (inject_Z (Z.of_nat i) / inject_Z (Z.of_nat (K - 1)))).
Proof.
  intros HL HK.
  destruct (interpolate_points_samples sqrtQ [p0; p1] K) as (out & Hout & Hall);
    [simpl; lia|lia|].
  exists out. split_and!; [done| |].
  - rewrite <- (Forall2_length _ _ _ Hall). apply length_linspace.
  - intros i q Hq.
    destruct (Forall2_lookup_r _ _ _ _ _ Hall Hq) as (d & Hd & Hint).
    destruct K as [|[|n]]; [lia|lia|].
    apply linspace_lookup in Hd as [Hi Hd].
    replace (S (S n) - 1)%nat with (S n) by lia.
    assert (Hn : 0 < inject_Z (Z.of_nat (S n))).
    { change 0 with (inject_Z 0). rewrite <- Zlt_Qlt. lia. }
    assert (Hi0 : 0 <= inject_Z (Z.of_nat i)).
    { change 0 with (inject_Z 0). rewrite <- Zle_Qle. lia. }
    assert (Hi1 : inject_Z (Z.of_nat i) <= inject_Z (Z.of_nat (S n))).
    { rewrite <- Zle_Qle. lia. }
    assert (EL : line_length sqrtQ [p0; p1] == dist2 sqrtQ p0 p1).
    { unfold line_length. rewrite length_from_cons2. simpl. ring. }
    set (r := inject_Z (Z.of_nat i) / inject_Z (Z.of_nat (S n))) in *.
    assert (Hr : 0 <= r /\ r <= 1).
    { subst r. split; [apply Qle_shift_div_l; lra|apply Qle_shift_div_r; lra]. }
    assert (Hd' : d == r * dist2 sqrtQ p0 p1).
    { rewrite Hd, EL. subst r. field. lra. }
    apply (interpolate_two_points sqrtQ p0 p1 q d r); [done| | | |done].
    + rewrite Hd'. nra.
    + rewrite Hd'. nra.
    + rewrite Hd'. field. lra.
Qed.

(** ** The fixed spacing of [_interpolate_lane] *)

Lemma mapM_map {A B : Type} (f : A -> result B) (g : A -> B) (l : list A) :
  Forall (fun a => f a = Ok (g a)) l -> mapM f l = Ok (map g l).
Proof.
  induction 1 as [|a l Ha _ IH]; [reflexivity|]. simpl. by rewrite Ha, IH.
Qed.

Lemma mapM_app {A B : Type} (f : A -> result B) (l1 l2 : list A) (b1 b2 : list B) :
  mapM f l1 = Ok b1 -> mapM f l2 = Ok b2 -> mapM f (l1 ++ l2) = Ok (b1 ++ b2).
Proof.
  revert b1. induction l1 as [|a l1 IH]; intros b1 H1 H2.
  - injection H1 as <-. exact H2.
  - simpl in *. destruct (f a) as [b|]; [|discriminate]. cbn [bind] in *.
    destruct (mapM f l1) as [bs|]; [|discriminate]. cbn [bind] in *.
    injection H1 as <-. by rewrite (IH bs eq_refl H2).
Qed.

Lemma vstack_T_map_snoc {A : Type} (hx hy hz : A -> Q) (l : list A) (a b c : Q) :
  vstack_T (map hx l ++ [a]) (map hy l ++ [b]) (map hz l ++ [c])
  = map (fun x => mkPoint3 (hx x) (hy x) (hz x)) l ++ [mkPoint3 a b c].
Proof. induction l as [|x l IH]; [reflexivity|]. simpl. by rewrite IH. Qed.

Lemma interp1d_two_points (total y0 y1 x : Q) :
  0 <= x -> x < total -> interp1d [0; total] [y0; y1] x = Ok (on_chord total y0 y1 x).
Proof.
  intros H0 Hx. unfold interp1d. cbn [head last].
  assert (E1 : Qlt_bool x 0 = false) by (apply Qlt_bool_false; lra).
  assert (E2 : Qlt_bool total x = false) by (apply Qlt_bool_false; lra).
  rewrite E1, E2. cbn [orb]. rewrite np_interp_cons2.
  assert (E3 : Qle_bool total x = false).
  { destruct (Qle_bool total x) eqn:E; [|done]. apply Qle_bool_iff in E. lra. }
  rewrite E3. unfold on_chord. destruct (Qeq_bool 0 x); [done|].
  rewrite fdiv_ok by lra. reflexivity.
Qed.

Lemma interp1d_two_points_end (total y0 y1 : Q) :
  0 <= total -> interp1d [0; total] [y0; y1] total = Ok y1.
Proof.
  intros H0. unfold interp1d. cbn [head last].
  assert (E1 : Qlt_bool total 0 = false) by (apply Qlt_bool_false; lra).
  assert (E2 : Qlt_bool total total = false) by (apply Qlt_bool_false; lra).
  rewrite E1, E2. cbn [orb]. rewrite np_interp_cons2.
  assert (E3 : Qle_bool total total = true) by (apply Qle_bool_iff; lra).
  by rewrite E3.
Qed.

Lemma on_chord_eq (total y0 y1 x : Q) :
  0 < total -> on_chord total y0 y1 x == y0 + x / total * (y1 - y0).
Proof.
  intros Ht. unfold on_chord. destruct (Qeq_bool 0 x) eqn:E.
  - apply Qeq_bool_iff in E. rewrite <- E. field. lra.
  - field. lra.
Qed.

(** X6: fixed spacing: for a segment [p0 p1] of positive length [L] in
    space, [_interpolate_lane] returns [ceil(L / 0.5) + 1] points, from
    [p0] to [p1]; every point [i] but the last one lies [i * 0.5] along
    the segment, [p0 + (i * 0.5 / L) * (p1 - p0)], so that only the last
    gap can be shorter than 0.5. *)
Theorem two_point_lane_fixed_spacing sqrtQ (p0 p1 : Point3) :
  0 < norm3 sqrtQ p0 p1 ->
  exists out,
    _interpolate_lane sqrtQ [p0; p1] = Ok out
    /\ length out = S (Z.to_nat (Qceiling (norm3 sqrtQ p0 p1 / (1 # 2))))
    /\ head out = Some p0 /\ last out = Some p1
    /\ forall i q, (S i < length out)%nat -> out !! i = Some q ->
         Peq q (point_along p0 p1
                  (inject_Z (Z.of_nat i) * (1 # 2) / norm3 sqrtQ p0 p1)).
Proof.
  intros HL. unfold _interpolate_lane.
  set (total := 0 + norm3 sqrtQ p0 p1).
  assert (Htot : 0 < total) by (subst total; lra).
  assert (Etot : total == norm3 sqrtQ p0 p1) by (subst total; ring).
  change (arc_lengths sqrtQ [p0; p1]) with [0; total].
  cbn [last bind map].
  set (pt := fun x => mkPoint3 (on_chord total (px p0) (px p1) x)
                        (on_chord total (py p0) (py p1) x)
                        (on_chord total (pz p0) (pz p1) x)).
  assert (Hmap : forall f : Point3 -> Q,
             mapM (interp1d [0; total] [f p0; f p1]) (np_arange total (1 # 2) ++ [total])
             = Ok (map (on_chord total (f p0) (f p1)) (np_arange total (1 # 2))
                   ++ [f p1])).
  { intros f. apply mapM_app.
    - apply mapM_map. eapply Forall_impl; [apply (np_arange_below total (1 # 2)); lra|].
      simpl. intros x [? ?]. by apply interp1d_two_points.
    - simpl. rewrite interp1d_two_points_end by lra. reflexivity. }
  rewrite (Hmap px), (Hmap py), (Hmap pz). cbn [bind].
  rewrite vstack_T_map_snoc.
  change (map (fun x => mkPoint3 (on_chord total (px p0) (px p1) x)
                          (on_chord total (py p0) (py p1) x)
                          (on_chord total (pz p0) (pz p1) x)) (np_arange total (1 # 2)))
    with (map pt (np_arange total (1 # 2))).
  replace (mkPoint3 (px p1) (py p1) (pz p1)) with p1 by (by destruct p1).
  assert (Hn : exists n, Z.to_nat (Qceiling (total / (1 # 2))) = S n).
  { assert (0 < Qceiling (total / (1 # 2)))%Z.
    { pose proof (Qle_ceiling (total / (1 # 2))) as Hc.
      assert (Hq : 0 < total / (1 # 2)) by (apply Qlt_shift_div_l; lra).
      assert (Hq' : 0 < inject_Z (Qceiling (total / (1 # 2)))) by lra.
      change 0 with (inject_Z 0) in Hq'. by rewrite <- Zlt_Qlt in Hq'. }
    exists (Z.to_nat (Qceiling (total / (1 # 2))) - 1)%nat. lia. }
  destruct Hn as [n Hn].
  assert (Hlen : length (np_arange total (1 # 2)) = S n).
  { unfold np_arange. by rewrite length_map, length_seq. }
  assert (Hfirst : exists rest, map pt (np_arange total (1 # 2)) = p0 :: rest).
  { unfold np_arange. rewrite Hn. simpl. eexists. f_equal.
    unfold pt, on_chord. simpl. by destruct p0. }
  destruct Hfirst as [rest Hrest]. rewrite Hrest.
  cbn [app index0 bind]. rewrite allclose_refl. cbn [negb].
  change (p0 :: rest ++ [p1]) with ((p0 :: rest) ++ [p1]).
  rewrite last_snoc. cbn [last]. rewrite allclose_refl. cbn [negb].
  eexists. split; [reflexivity|]. rewrite <- Hrest.
  assert (Hceil : Qceiling (norm3 sqrtQ p0 p1 / (1 # 2)) = Qceiling (total / (1 # 2))).
  { apply Qceiling_comp. by rewrite Etot. }
  split_and!.
  - rewrite length_app, length_map, Hlen, Hceil, Hn. simpl. lia.
  - by rewrite Hrest.
  - by rewrite last_snoc.
  - intros i q Hi Hq. rewrite length_app, length_map in Hi. simpl in Hi.
    rewrite lookup_app_l in Hq by (rewrite length_map; lia).
    apply lookup_map_Some in Hq as (x & Hx & ->).
    unfold np_arange in Hx. apply lookup_map_Some in Hx as (j & Hj & ->).
    apply lookup_seq in Hj as [-> _]. cbn [Nat.add].
    unfold Peq, pt, point_along. simpl. rewrite !on_chord_eq by done.
    rewrite Etot. split_and!; reflexivity.
Qed.

(** ** Statements on [_interpolate_lane] and [_interpolate_points] *)

(** X7: [_interpolate_lane] returns on every polyline that has a point
    (no arc length falls outside the range of the interpolant), the
    result starts and ends within the tolerance of [np.allclose] of the
    first and the last point of the polyline, and it has the sampled
    points and at most the two end points in addition. *)
Theorem interpolate_lane_keeps_endpoints sqrtQ (w : list Point3) (p0 pn : Point3) :
  (forall x, 0 <= sqrtQ x) ->
  head w = Some p0 -> last w = Some pn ->
  exists out q0 qn,
    _interpolate_lane sqrtQ w = Ok out
    /\ head out = Some q0 /\ last out = Some qn
    /\ allclose q0 p0 = true /\ allclose qn pn = true
    /\ (lane_samples sqrtQ w <= length out <= lane_samples sqrtQ w + 2)%nat.
Proof. intros Hs. by apply interpolate_lane_returns. Qed.

Lemma interpolate_lane_keeps_endpoints_witness :
  (forall x, 0 <= Qsqrt_fix x)
  /\ head bent_line = Some (mkPoint3 0 0 0)
  /\ last bent_line = Some (mkPoint3 3 10 2)
  /\ exists out q0 qn,
       _interpolate_lane Qsqrt_fix bent_line = Ok out
       /\ head out = Some q0 /\ last out = Some qn
       /\ allclose q0 (mkPoint3 0 0 0) = true /\ allclose qn (mkPoint3 3 10 2) = true
       /\ (lane_samples Qsqrt_fix bent_line <= length out
           <= lane_samples Qsqrt_fix bent_line + 2)%nat.
Proof.
  split; [exact Qsqrt_fix_nonneg|]. split; [reflexivity|]. split; [reflexivity|].
  exact (interpolate_lane_keeps_endpoints Qsqrt_fix bent_line _ _
           Qsqrt_fix_nonneg eq_refl eq_refl).
Defined.

Lemma resampled_points_on_polyline_witness :
  (2 <= length bent_line)%nat /\ (1 <= 5)%nat
  /\ exists out,
       _interpolate_points Qsqrt_fix bent_line 5 = Ok out
       /\ length out = 5%nat /\ head out = head bent_line
       /\ Forall (on_polyline bent_line) out.
Proof.
  assert (H1 : (2 <= length bent_line)%nat) by (simpl; lia).
  assert (H2 : (1 <= 5)%nat) by lia.
  split; [exact H1|]. split; [exact H2|].
  exact (resampled_points_on_polyline Qsqrt_fix bent_line 5 H1 H2).
Defined.

Lemma two_point_segment_evenly_spaced_witness :
  0 < dist2 Qsqrt_fix (mkPoint3 0 0 0) (mkPoint3 3 4 1) /\ (2 <= 6)%nat
  /\ exists out,
       _interpolate_points Qsqrt_fix [mkPoint3 0 0 0; mkPoint3 3 4 1] 6 = Ok out
       /\ length out = 6%nat
       /\ forall i q, out !! i = Some q ->
            Peq q (point_along (mkPoint3 0 0 0) (mkPoint3 3 4 1)
                     (inject_Z (Z.of_nat i) / inject_Z (Z.of_nat (6 - 1)))).
Proof.
  assert (H1 : 0 < dist2 Qsqrt_fix (mkPoint3 0 0 0) (mkPoint3 3 4 1))
    by (vm_compute; reflexivity).
  assert (H2 : (2 <= 6)%nat) by lia.
  split; [exact H1|]. split; [exact H2|].
  exact (two_point_segment_evenly_spaced Qsqrt_fix _ _ 6 H1 H2).
Defined.

Lemma two_point_lane_fixed_spacing_witness :
  0 < norm3 Qsqrt_fix (mkPoint3 0 0 0) (mkPoint3 3 4 0)
  /\ exists out,
       _interpolate_lane Qsqrt_fix [mkPoint3 0 0 0; mkPoint3 3 4 0] = Ok out
       /\ length out = 11%nat
       /\ head out = Some (mkPoint3 0 0 0) /\ last out = Some (mkPoint3 3 4 0)
       /\ forall i q, (S i < length out)%nat -> out !! i = Some q ->
            Peq q (point_along (mkPoint3 0 0 0) (mkPoint3 3 4 0)
                     (inject_Z (Z.of_nat i) * (1 # 2)
                      / norm3 Qsqrt_fix (mkPoint3 0 0 0) (mkPoint3 3 4 0))).
Proof.
  assert (H1 : 0 < norm3 Qsqrt_fix (mkPoint3 0 0 0) (mkPoint3 3 4 0))
    by (vm_compute; reflexivity).
  split; [exact H1|].
  exact (two_point_lane_fixed_spacing Qsqrt_fix _ _ H1).
Defined.

(** * Further properties of the packing *)

(** ** Lanes out of range *)

Lemma io_bind_ret_r {A : Type} (c : io A) : io_bind c io_ret = c.
Proof.
  destruct c as [out [a|e]]; [|reflexivity]. simpl. by rewrite app_nil_r.
Qed.

Lemma collect_cons_None (s : LaneSegment) (segs : list LaneSegment) (m : Mat4)
    (cx cy r : Q) (tlr : gmap Z Z) :
  process_segment s m cx cy r tlr = ([], Ok None) ->
  collect (s :: segs) m cx cy r tlr = collect segs m cx cy r tlr.
Proof.
  intros H. cbn [collect]. rewrite H. cbn [io_bind].
  destruct (collect segs m cx cy r tlr) as [out [a|e]]; simpl; [|reflexivity].
  by rewrite app_nil_r.
Qed.

Lemma collect_in_range (segs : list LaneSegment) (m : Mat4) (cx cy r : Q)
    (tlr : gmap Z Z) :
  Forall has_boundaries segs ->
  collect segs m cx cy r tlr = collect (in_range cx cy r segs) m cx cy r tlr.
Proof.
  induction 1 as [|s segs [Hl Hr] _ IH]; [reflexivity|].
  unfold in_range in *. cbn [List.filter].
  destruct (inside s cx cy r) eqn:Hin.
  - cbn [collect]. by rewrite IH.
  - rewrite collect_cons_None; [exact IH|]. by apply process_segment_outside.
Qed.

(** X8: the lanes out of range have no part in the result: for lanes
    that have their boundary lists, [create_lane_tensor] returns, prints
    and raises on the whole list what it does on the lanes in range
    alone, whatever the point counts, speed limits and traffic lights of
    the other lanes. *)
Theorem out_of_range_lanes_ignored sqrtQ (segs : list LaneSegment) (m : Mat4)
    (cx cy r : Q) (tlr : gmap Z Z) (N : nat) :
  Forall has_boundaries segs ->
  create_lane_tensor sqrtQ segs m cx cy r tlr N
  = create_lane_tensor sqrtQ (in_range cx cy r segs) m cx cy r tlr N.
Proof.
  intros H. unfold create_lane_tensor. by rewrite (collect_in_range segs).
Qed.

(** ** Polylines of different point counts *)

Lemma isub_inv (a b : list Point3) :
  (exists x, isub a b = Ok x /\ length x = length a) \/ isub a b = Raise ValueError.
Proof.
  unfold isub. destruct (Nat.eqb (length b) (length a)) eqn:E.
  - apply Nat.eqb_eq in E. left. eexists. split; [reflexivity|].
    rewrite length_zip_with. lia.
  - destruct b as [|q [|]]; [by right| |by right].
    left. eexists. split; [reflexivity|]. by rewrite length_map.
Qed.

Lemma concatenate_axis1_inv (arrays : list (list (list Q))) :
  (exists res, concatenate_axis1 arrays = Ok res
               /\ Forall (fun a => length a = length res) arrays)
  \/ concatenate_axis1 arrays = Raise ValueError.
Proof.
  induction arrays as [|a [|b rest] IH]; [by right| |].
  - left. exists a. split; [reflexivity|]. by constructor.
  - destruct IH as [(res & Hres & Hall)|Hraise].
    + change (concatenate_axis1 (a :: b :: rest))
        with (let* b' := concatenate_axis1 (b :: rest) in
              if Nat.eqb (length a) (length b') then Ok (zip_with app a b')
              else Raise ValueError).
      rewrite Hres. cbn [bind].
      destruct (Nat.eqb (length a) (length res)) eqn:E; [|by right].
      apply Nat.eqb_eq in E. left. eexists. split; [reflexivity|].
      rewrite length_zip_with, <- E, Nat.min_id. constructor; [reflexivity|].
      eapply Forall_impl; [exact Hall|]. simpl. intros x Hx. lia.
    + right.
      change (concatenate_axis1 (a :: b :: rest))
        with (let* b' := concatenate_axis1 (b :: rest) in
              if Nat.eqb (length a) (length b') then Ok (zip_with app a b')
              else Raise ValueError).
      by rewrite Hraise.
Qed.

(** X9: a lane in range whose first left or right boundary does not
    have as many points as its centerline makes [process_segment] raise
    [ValueError] (from the in-place subtraction or from
    [np.concatenate]); no row is produced and the missing speed limit of
    such a lane is not reached. *)
Theorem mismatched_point_counts_raise (s : LaneSegment) (m : Mat4) (cx cy r : Q)
    (tlr : gmap Z Z) (lb rb : BoundarySegment) :
  inside s cx cy r = true ->
  head (left_boundaries s) = Some lb -> head (right_boundaries s) = Some rb ->
  length (waypoints (boundary_polyline lb)) <> length (waypoints (polyline s))
  \/ length (waypoints (boundary_polyline rb)) <> length (waypoints (polyline s)) ->
  exists out, process_segment s m cx cy r tlr = (out, Raise ValueError).
Proof.
  intros Hin Hl Hr Hne. unfold process_segment.
  destruct (left_boundaries s) as [|lb' ?]; [discriminate|]. injection Hl as ->.
  destruct (right_boundaries s) as [|rb' ?]; [discriminate|]. injection Hr as ->.
  cbn [index0]. rewrite !io_bind_lift. rewrite Hin. cbn [negb]. cbv beta iota.
  destruct (isub_inv (map (to_base_link m) (waypoints (boundary_polyline lb)))
              (map (to_base_link m) (waypoints (polyline s))))
    as [(l' & -> & Ll)| ->]; [|by eexists].
  rewrite io_bind_lift.
  destruct (isub_inv (map (to_base_link m) (waypoints (boundary_polyline rb)))
              (map (to_base_link m) (waypoints (polyline s))))
    as [(r' & -> & Lr)| ->]; [|by eexists].
  destruct (encode_traffic_light_total s tlr) as (out & tl & -> & _).
  cbn [io_bind]. rewrite io_bind_lift.
  match goal with
  | |- context [concatenate_axis1 ?l] =>
      destruct (concatenate_axis1_inv l) as [(res & Hres & Hall)| ->]
  end.
  - exfalso.
    apply Forall_cons in Hall as [Hc Hall].
    apply Forall_cons in Hall as [_ Hall].
    apply Forall_cons in Hall as [Hl' Hall].
    apply Forall_cons in Hall as [Hr' _].
    repeat match goal with
           | H : context [length (map _ _)] |- _ => rewrite length_map in H
           end.
    lia.
  - by eexists.
Qed.

(** ** The centerline channels *)

Lemma diff_rows_cons2 (a b : Point3) (c : list Point3) :
  diff_rows (a :: b :: c) = point_sub b a :: diff_rows (b :: c).
Proof. reflexivity. Qed.

Lemma lookup_diff_rows (c : list Point3) (i : nat) (p q : Point3) :
  c !! i = Some p -> c !! S i = Some q ->
  diff_rows c !! i = Some (point_sub q p).
Proof.
  revert i. induction c as [|a [|b c] IH]; intros i Hp Hq; [done|done|].
  rewrite diff_rows_cons2. destruct i as [|i].
  - simpl in Hp, Hq. by injection Hp as ->; injection Hq as ->.
  - by apply IH.
Qed.

(** X10: in what [process_segment] returns for a 20-point lane, channels
    0 and 1 of row [i] are the x and y of centerline point [i] in the ego
    frame, and channels 2 and 3 are the step to the next row: channels 0
    and 1 of row [i + 1] minus those of row [i]. *)
Theorem centerline_and_heading_channels (s : LaneSegment) (m : Mat4) (cx cy r : Q)
    (tlr : gmap Z Z) (out : list event) (line_data : list (list Q)) (speed : option Q)
    (i : nat) (row next_row : list Q) (p : Point3) :
  twenty_points s ->
  process_segment s m cx cy r tlr = (out, Ok (Some (line_data, speed))) ->
  waypoints (polyline s) !! i = Some p ->
  line_data !! i = Some row -> line_data !! S i = Some next_row ->
  exists x y x' y',
    take 4 row = [x; y; x' - x; y' - y] /\ take 2 next_row = [x'; y']
    /\ x = px (to_base_link m p) /\ y = py (to_base_link m p).
Proof.
  intros Hs Hret Hp Hrow Hnext.
  destruct (process_segment_returns _ _ _ _ _ _ _ _ _ Hs Hret) as [_ [tl ->]].
  unfold line_data_of in Hrow, Hnext.
  destruct (lane_polylines s) as [|c [|lb [|rb [|]]]] eqn:E; try by inversion E.
  assert (c = waypoints (polyline s)) as -> by (by inversion E).
  apply lookup_zip_with_Some in Hrow as (a & R1 & -> & Ha & Hrow).
  apply lookup_zip_with_Some in Hrow as (d & R2 & -> & Hd & _).
  apply lookup_zip_with_Some in Hnext as (a' & R1' & -> & Ha' & _).
  apply lookup_map_Some in Ha as (cp & Hcp & ->).
  apply lookup_map_Some in Ha' as (cp' & Hcp' & ->).
  apply lookup_map_Some in Hd as (dp & Hdp & ->).
  rewrite (lookup_diff_rows _ i cp cp' Hcp Hcp') in Hdp. injection Hdp as <-.
  apply lookup_map_Some in Hcp as (p' & Hp' & ->).
  assert (p' = p) as -> by congruence.
  exists (px (to_base_link m p)), (py (to_base_link m p)), (px cp'), (py cp').
  by split_and!.
Qed.

(** ** The exceptions of [create_lane_tensor] *)

Lemma mapM_raise {A B : Type} (f : A -> result B) (l : list A) (e : exn) :
  mapM f l = Raise e -> exists a, a ∈ l /\ f a = Raise e.
Proof.
  induction l as [|a l IH]; [discriminate|]. simpl.
  destruct (f a) as [b|e'] eqn:Hfa; cbn [bind].
  - destruct (mapM f l) as [bs|e'] eqn:Hl; cbn [bind]; [discriminate|].
    intros [= ->]. destruct IH as (a' & Hin & Ha'); [done|].
    exists a'. split; [by constructor|done].
  - intros [= ->]. exists a. split; [constructor|done].
Qed.

Lemma process_segment_outcome (s : LaneSegment) (m : Mat4) (cx cy r : Q)
    (tlr : gmap Z Z) :
  (exists out, process_segment s m cx cy r tlr = (out, Ok None))
  \/ (exists out line_data v,
        process_segment s m cx cy r tlr = (out, Ok (Some (line_data, Some v))))
  \/ (exists out e, process_segment s m cx cy r tlr = (out, Raise e)
                    /\ (e = IndexError \/ e = ValueError \/ e = TypeError)).
Proof.
  unfold process_segment.
  destruct (left_boundaries s) as [|lb ?]; [right; right; by eexists _, _; eauto|].
  destruct (right_boundaries s) as [|rb ?]; [right; right; by eexists _, _; eauto|].
  cbn [index0]. rewrite !io_bind_lift.
  destruct (inside s cx cy r); cbn [negb]; cbv beta iota; [|left; by eexists].
  right.
  destruct (isub_inv (map (to_base_link m) (waypoints (boundary_polyline lb)))
              (map (to_base_link m) (waypoints (polyline s))))
    as [(l' & -> & Ll)| ->]; [|right; eexists _, _; eauto].
  rewrite io_bind_lift.
  destruct (isub_inv (map (to_base_link m) (waypoints (boundary_polyline rb)))
              (map (to_base_link m) (waypoints (polyline s))))
    as [(r' & -> & Lr)| ->]; [|right; eexists _, _; eauto].
  destruct (encode_traffic_light_total s tlr) as (out & tl & -> & _).
  cbn [io_bind]. rewrite io_bind_lift.
  match goal with
  | |- context [concatenate_axis1 ?l] =>
      destruct (concatenate_axis1_inv l) as [(res & -> & _)| ->]
  end; [|right; eexists _, _; eauto].
  rewrite io_bind_lift.
  destruct (speed_limit_mph s) as [v|]; [|right; eexists _, _; eauto].
  left. simpl. by eexists _, _, _.
Qed.

Lemma collect_outcome (segs : list LaneSegment) (m : Mat4) (cx cy r : Q)
    (tlr : gmap Z Z) :
  (exists out rl, collect segs m cx cy r tlr = (out, Ok rl)
                  /\ Forall (fun tup => is_Some (snd tup)) rl)
  \/ (exists out e, collect segs m cx cy r tlr = (out, Raise e)
                    /\ (e = IndexError \/ e = ValueError \/ e = TypeError)).
Proof.
  induction segs as [|s segs IH]; [left; eexists _, _; split; [reflexivity|constructor]|].
  cbn [collect].
  destruct (process_segment_outcome s m cx cy r tlr)
    as [(out & ->)|[(out & ld & v & ->)|(out & e & -> & He)]];
    [| |right; by eexists _, _].
  - destruct IH as [(out' & rl & -> & Hall)|(out' & e & -> & He)].
    + left. eexists _, _. split; [reflexivity|done].
    + right. eexists _, _. split; [reflexivity|done].
  - destruct IH as [(out' & rl & -> & Hall)|(out' & e & -> & He)].
    + left. eexists _, _. split; [reflexivity|]. constructor; [by eexists|done].
    + right. eexists _, _. split; [reflexivity|done].
Qed.

Lemma decorate_inv {A : Type} (key : A -> result Q) (l : list A) (keyed : list (Q * A)) :
  decorate key l = Ok keyed -> map snd keyed = l.
Proof.
  unfold decorate. intros H. apply mapM_inv in H.
  induction H as [|a [k a'] l l' Ha _ IH]; [reflexivity|].
  destruct (key a) as [k'|]; [|discriminate]. cbn [bind] in Ha.
  injection Ha as -> ->. simpl. by rewrite IH.
Qed.

Lemma py_sorted_perm {A : Type} (key : A -> result Q) (l l' : list A) :
  py_sorted key l = Ok l' -> Permutation l l'.
Proof.
  unfold py_sorted. destruct (decorate key l) as [keyed|] eqn:Hd; [|discriminate].
  cbn [bind]. intros [= <-]. rewrite <- (decorate_inv key l keyed Hd).
  apply Permutation_map, stable_sort_perm.
Qed.

Lemma py_sorted_raise sqrtQ (l : list (list (list Q) * option Q)) (e : exn) :
  py_sorted (sort_key sqrtQ) l = Raise e -> e = IndexError.
Proof.
  unfold py_sorted, decorate.
  destruct (mapM _ l) as [keyed|e'] eqn:Hd; [discriminate|].
  cbn [bind]. intros [= ->].
  apply mapM_raise in Hd as (a & _ & Ha). unfold sort_key in Ha.
  destruct (fst a); cbn [bind] in Ha; congruence.
Qed.

Lemma expand_raise {A : Type} (n : nat) (l : list A) (e : exn) :
  expand n l = Raise e -> e = RuntimeError.
Proof.
  unfold expand. destruct (Nat.eqb (length l) n); [discriminate|].
  destruct l as [|? [|]]; congruence.
Qed.

Lemma broadcast_20x12_raise (line_data : list (list Q)) (e : exn) :
  broadcast_20x12 line_data = Raise e -> e = RuntimeError.
Proof.
  unfold broadcast_20x12.
  destruct (mapM (expand 12) line_data) as [rows|e'] eqn:Hm; cbn [bind].
  - apply expand_raise.
  - intros [= ->]. apply mapM_raise in Hm as (a & _ & Ha). by eapply expand_raise.
Qed.

Lemma fill_rows_raise (result_list : list (list (list Q) * option Q)) (i : nat)
    (st : slots) (e : exn) :
  Forall (fun tup => is_Some (snd tup)) result_list ->
  fill_rows i result_list st = Raise e -> e = RuntimeError.
Proof.
  intros Hall. revert i st.
  induction Hall as [|[ld sp] rl [v Hv] _ IH]; intros i [[lanes speeds] flags];
    [discriminate|].
  simpl in Hv. subst sp. cbn [fill_rows].
  destruct (broadcast_20x12 ld) as [row|e'] eqn:Hb; cbn [bind].
  - apply IH.
  - intros [= ->]. by eapply broadcast_20x12_raise.
Qed.

(** X11: whatever the lanes, the matrix, the range, the recognition
    mapping and the capacity, an exception of [create_lane_tensor] is an
    [IndexError], a [ValueError], a [TypeError] or a [RuntimeError]; the
    assertion of line 572 never fails, since every survivor carries the
    product of a speed limit. *)
Theorem create_lane_tensor_exceptions sqrtQ (segs : list LaneSegment) (m : Mat4)
    (cx cy r : Q) (tlr : gmap Z Z) (N : nat) (out : list event) (e : exn) :
  create_lane_tensor sqrtQ segs m cx cy r tlr N = (out, Raise e) ->
  packing_exception e.
Proof.
  unfold create_lane_tensor, packing_exception.
  destruct (collect_outcome segs m cx cy r tlr)
    as [(out' & rl & -> & Hall)|(out' & e' & -> & He)].
  - cbn [io_bind lift]. intros [= _ Hpack]. unfold pack in Hpack.
    destruct (py_sorted (sort_key sqrtQ) rl) as [sorted|e'] eqn:Hs; cbn [bind] in Hpack.
    + assert (Hall' : Forall (fun tup => is_Some (snd tup)) (take N sorted)).
      { apply Forall_take. eapply Permutation_Forall; [|exact Hall].
        by apply (py_sorted_perm (sort_key sqrtQ)). }
      destruct (fill_rows 0 (take N sorted) _) as [[[lanes speeds] flags]|e'] eqn:Hf;
        cbn [bind] in Hpack; [discriminate|].
      injection Hpack as ->. apply fill_rows_raise in Hf; [|done]. auto.
    + injection Hpack as ->. apply py_sorted_raise in Hs. auto.
  - cbn [io_bind]. intros [= _ ->]. tauto.
Qed.

(** ** Growing the capacity *)

Lemma take_padded {A : Type} (z : A) (l : list A) (N N' : nat) :
  (N <= N')%nat ->
  take N (take N' l ++ replicate (N' - length (take N' l)) z)
  = take N l ++ replicate (N - length (take N l)) z.
Proof.
  intros Hle. rewrite !length_take.
  destruct (decide (N <= length l)%nat) as [Hl|Hl].
  - rewrite take_app_le by (rewrite length_take; lia).
    rewrite take_take, Nat.min_l by lia.
    replace (N - N `min` length l)%nat with 0%nat by lia.
    by rewrite app_nil_r.
  - rewrite (take_ge l N), (take_ge l N') by lia.
    rewrite take_app_ge by lia. rewrite take_replicate. f_equal. f_equal. lia.
Qed.

Lemma replicate_length_map {A B : Type} (b : B) (l : list A) :
  replicate (length l) b = map (fun _ => b) l.
Proof. induction l as [|a l IH]; [reflexivity|]. simpl. by rewrite IH. Qed.

Lemma map_take' {A B : Type} (f : A -> B) (l : list A) (n : nat) :
  map f (take n l) = take n (map f l).
Proof.
  revert n. induction l as [|a l IH]; intros [|n]; simpl; try reflexivity. by rewrite IH.
Qed.

Lemma pad_prefix {A B : Type} (f : A -> B) (z : B) (l : list A) (N N' : nat) :
  (N <= N')%nat ->
  map f (take N l) ++ replicate (N - length (take N l)) z
  = take N (map f (take N' l) ++ replicate (N' - length (take N' l)) z).
Proof.
  intros Hle. pose proof (take_padded z (map f l) N N' Hle) as E.
  rewrite !length_take, !length_map in E.
  rewrite !map_take', !length_take. symmetry. exact E.
Qed.

Lemma packed_prefix sqrtQ (rl : list (list (list Q) * option Q)) (N N' : nat) :
  (N <= N')%nat ->
  exists lanes speeds flags,
    packed sqrtQ rl N' = ([lanes], [speeds], [flags])
    /\ packed sqrtQ rl N = ([take N lanes], [take N speeds], [take N flags]).
Proof.
  intros Hle. unfold packed, kept. eexists _, _, _. split; [reflexivity|].
  generalize (sort_by (first_point_distance sqrtQ) rl). intros l.
  rewrite (pad_prefix fst zeros_row l N N' Hle).
  rewrite (pad_prefix speed_entry [0] l N N' Hle).
  rewrite !replicate_length_map.
  rewrite (pad_prefix (fun _ => [true]) [false] l N N' Hle).
  reflexivity.
Qed.

(** X12: growing the capacity only appends rows: for lanes that can be
    packed and [N <= N'], the three tensors for the capacity [N] are the
    first [N] rows of the tensors for [N'], with the same output. *)
Theorem capacity_prefix sqrtQ (segs : list LaneSegment) (m : Mat4)
    (cx cy r : Q) (tlr : gmap Z Z) (N N' : nat) :
  Forall (packable cx cy r) segs -> (N <= N')%nat ->
  exists out lanes speeds flags,
    create_lane_tensor sqrtQ segs m cx cy r tlr N'
    = (out, Ok ([lanes], [speeds], [flags]))
    /\ create_lane_tensor sqrtQ segs m cx cy r tlr N
       = (out, Ok ([take N lanes], [take N speeds], [take N flags])).
Proof.
  intros Hall Hle.
  destruct (create_lane_tensor_spec sqrtQ segs m cx cy r tlr N' Hall) as [out Hout'].
  destruct (create_lane_tensor_spec sqrtQ segs m cx cy r tlr N Hall) as [out2 Hout].
  assert (out2 = out) as ->.
  { unfold create_lane_tensor in Hout, Hout'.
    destruct (collect segs m cx cy r tlr) as [o [rl|e]]; simpl in Hout, Hout'.
    - destruct (pack sqrtQ rl N), (pack sqrtQ rl N'); simpl in *; congruence.
    - congruence. }
  destruct (packed_prefix sqrtQ (survivors m cx cy r tlr segs) N N' Hle)
    as (lanes & speeds & flags & E' & E).
  exists out, lanes, speeds, flags. by rewrite Hout', Hout, E', E.
Qed.

(** ** The order of the input lanes *)

Lemma sorted_perm_unique {A : Type} (d : A -> Q) (l1 l2 : list A) :
  StronglySorted (fun a b => d a <= d b) l1 ->
  StronglySorted (fun a b => d a <= d b) l2 ->
  Permutation l1 l2 ->
  (forall a b, a ∈ l1 -> b ∈ l1 -> d a == d b -> a = b) ->
  l1 = l2.
Proof.
  intros H1. revert l2. induction H1 as [|a l1 Hs1 IH Ha]; intros l2 H2 Hperm Hinj.
  - by apply Permutation_nil in Hperm.
  - destruct H2 as [|b l2 Hs2 Hb].
    + symmetry in Hperm. by apply Permutation_nil in Hperm.
    + assert (a = b) as <-.
      { assert (Hain : a ∈ b :: l2) by (rewrite <- Hperm; constructor).
        assert (Hbin : b ∈ a :: l1) by (rewrite Hperm; constructor).
        apply elem_of_cons in Hain as [->|Hain]; [done|].
        apply elem_of_cons in Hbin as [->|Hbin]; [done|].
        rewrite Forall_forall in Ha, Hb.
        apply Hinj; [constructor|by constructor|].
        pose proof (Ha b Hbin). pose proof (Hb a Hain). lra. }
      f_equal. apply IH; [done|by eapply Permutation_cons_inv|].
      intros x y Hx Hy. apply Hinj; by constructor.
Qed.

Lemma sort_by_perm_unique {A : Type} (d : A -> Q) (l l' : list A) :
  Permutation l l' ->
  (forall a b, a ∈ l -> b ∈ l -> d a == d b -> a = b) ->
  sort_by d l = sort_by d l'.
Proof.
  intros Hperm Hinj. apply (sorted_perm_unique d); [apply sort_by_sorted..| |].
  - rewrite <- (sort_by_perm d l), <- (sort_by_perm d l'). exact Hperm.
  - intros a b Ha Hb. apply Hinj; by rewrite (sort_by_perm d l).
Qed.

Lemma survivors_perm (m : Mat4) (cx cy r : Q) (tlr : gmap Z Z)
    (segs segs' : list LaneSegment) :
  Permutation segs segs' ->
  Permutation (survivors m cx cy r tlr segs) (survivors m cx cy r tlr segs').
Proof.
  intros H. unfold survivors, in_range. apply Permutation_map.
  induction H as [|x l l' _ IH|x y l|l l' l'' _ IH1 _ IH2]; simpl.
  - constructor.
  - destruct (inside x cx cy r); [by constructor|done].
  - destruct (inside x cx cy r), (inside y cx cy r); try reflexivity. apply perm_swap.
  - by etrans.
Qed.

(** X13: the order of the input lanes matters for ties only: when no
    two different survivors have the same first-point distance, any
    permutation of the lanes yields the same tensors. *)
Theorem lane_order_irrelevant sqrtQ (segs segs' : list LaneSegment) (m : Mat4)
    (cx cy r : Q) (tlr : gmap Z Z) (N : nat) :
  Forall (packable cx cy r) segs -> Permutation segs segs' ->
  (forall a b, a ∈ survivors m cx cy r tlr segs -> b ∈ survivors m cx cy r tlr segs ->
               first_point_distance sqrtQ a == first_point_distance sqrtQ b -> a = b) ->
  exists out out' t,
    create_lane_tensor sqrtQ segs m cx cy r tlr N = (out, Ok t)
    /\ create_lane_tensor sqrtQ segs' m cx cy r tlr N = (out', Ok t).
Proof.
  intros Hall Hperm Hinj.
  assert (Hall' : Forall (packable cx cy r) segs')
    by (eapply Permutation_Forall; [exact Hperm|exact Hall]).
  destruct (create_lane_tensor_spec sqrtQ segs m cx cy r tlr N Hall) as [out Hout].
  destruct (create_lane_tensor_spec sqrtQ segs' m cx cy r tlr N Hall') as [out' Hout'].
  exists out, out', (packed sqrtQ (survivors m cx cy r tlr segs) N).
  split; [done|]. rewrite Hout'. do 2 f_equal. unfold packed, kept.
  by rewrite (sort_by_perm_unique (first_point_distance sqrtQ) _ _
                (survivors_perm m cx cy r tlr segs segs' Hperm) Hinj).
Qed.

(** ** Instances *)

Lemma out_of_range_lanes_ignored_witness :
  Forall has_boundaries far_lane_example
  /\ create_lane_tensor Qsqrt_fix far_lane_example identity4 0 0 100 ∅ 3
     = create_lane_tensor Qsqrt_fix (in_range 0 0 100 far_lane_example) identity4
         0 0 100 ∅ 3.
Proof.
  assert (H : Forall has_boundaries far_lane_example)
    by (repeat (constructor; [by split|]); constructor).
  split; [exact H|].
  exact (out_of_range_lanes_ignored Qsqrt_fix far_lane_example identity4 0 0 100 ∅ 3 H).
Defined.

Lemma mismatched_point_counts_raise_witness :
  inside short_boundary_lane 0 0 100 = true
  /\ head (left_boundaries short_boundary_lane)
     = Some (mkBoundarySegment 1001 (mkPolyline RoadLine (take 19 (straight 5 1))))
  /\ head (right_boundaries short_boundary_lane)
     = Some (mkBoundarySegment 2001 (mkPolyline RoadLine (straight 5 (-1))))
  /\ (length (take 19 (straight 5 1)) <> length (straight 5 0)
      \/ length (straight 5 (-1)) <> length (straight 5 0))
  /\ exists out,
       process_segment short_boundary_lane identity4 0 0 100 ∅
       = (out, Raise ValueError).
Proof.
  assert (H1 : inside short_boundary_lane 0 0 100 = true) by (vm_compute; reflexivity).
  assert (H4 : length (take 19 (straight 5 1)) <> length (straight 5 0)
               \/ length (straight 5 (-1)) <> length (straight 5 0))
    by (left; vm_compute; lia).
  split; [exact H1|]. split; [reflexivity|]. split; [reflexivity|]. split; [exact H4|].
  exact (mismatched_point_counts_raise short_boundary_lane identity4 0 0 100 ∅
           _ _ H1 eq_refl eq_refl H4).
Defined.

Lemma centerline_and_heading_channels_witness :
  twenty_points plain_lane
  /\ process_segment plain_lane identity4 0 0 100 ∅
     = ([], Ok (Some (plain_rows, Some (10 * mph2mps))))
  /\ waypoints (polyline plain_lane) !! 3%nat = Some (mkPoint3 (5 + 3) 0 0)
  /\ exists row next_row x y x' y',
       plain_rows !! 3%nat = Some row /\ plain_rows !! 4%nat = Some next_row
       /\ take 4 row = [x; y; x' - x; y' - y] /\ take 2 next_row = [x'; y']
       /\ x = px (to_base_link identity4 (mkPoint3 (5 + 3) 0 0))
       /\ y = py (to_base_link identity4 (mkPoint3 (5 + 3) 0 0)).
Proof.
  assert (H1 : twenty_points plain_lane) by apply straight_lane_twenty_points.
  assert (H2 := plain_lane_processed).
  assert (H3 : waypoints (polyline plain_lane) !! 3%nat = Some (mkPoint3 (5 + 3) 0 0))
    by reflexivity.
  repeat (split; [assumption|]).
  destruct (plain_rows !! 3%nat) as [row|] eqn:H4; [|vm_compute in H4; discriminate].
  destruct (plain_rows !! 4%nat) as [next_row|] eqn:H5; [|vm_compute in H5; discriminate].
  destruct (centerline_and_heading_channels plain_lane identity4 0 0 100 ∅ _ _ _
              3 row next_row _ H1 H2 H3 H4 H5)
    as (x & y & x' & y' & E1 & E2 & E3 & E4).
  exists row, next_row, x, y, x', y'. by split_and!.
Defined.

Lemma create_lane_tensor_exceptions_witness :
  create_lane_tensor Qsqrt_fix no_speed_example identity4 0 0 100 ∅ 3
  = ([], Raise TypeError)
  /\ packing_exception TypeError.
Proof.
  assert (H : create_lane_tensor Qsqrt_fix no_speed_example identity4 0 0 100 ∅ 3
              = ([], Raise TypeError)) by (vm_compute; reflexivity).
  split; [exact H|].
  exact (create_lane_tensor_exceptions Qsqrt_fix no_speed_example identity4 0 0 100 ∅ 3
           [] TypeError H).
Defined.

Lemma capacity_prefix_witness :
  Forall (packable 0 0 100) ranking_example /\ (2 <= 3)%nat
  /\ exists out lanes speeds flags,
       create_lane_tensor Qsqrt_fix ranking_example identity4 0 0 100 ∅ 3
       = (out, Ok ([lanes], [speeds], [flags]))
       /\ create_lane_tensor Qsqrt_fix ranking_example identity4 0 0 100 ∅ 2
          = (out, Ok ([take 2 lanes], [take 2 speeds], [take 2 flags])).
Proof.
  assert (H1 : Forall (packable 0 0 100) ranking_example)
    by (repeat (constructor; [apply straight_lane_packable|]); constructor).
  assert (H2 : (2 <= 3)%nat) by lia.
  split; [exact H1|]. split; [exact H2|].
  exact (capacity_prefix Qsqrt_fix ranking_example identity4 0 0 100 ∅ 2 3 H1 H2).
Defined.

Lemma two_lanes_distinct (a b : list (list Q) * option Q) :
  a ∈ survivors identity4 0 0 100 ∅ two_lanes_example ->
  b ∈ survivors identity4 0 0 100 ∅ two_lanes_example ->
  first_point_distance Qsqrt_fix a == first_point_distance Qsqrt_fix b -> a = b.
Proof.
  intros Ha Hb.
  change (survivors identity4 0 0 100 ∅ two_lanes_example)
    with [transformed identity4 ∅ (straight_lane 1 5 (Some 10) []);
          transformed identity4 ∅ (straight_lane 2 20 (Some 20) [])] in Ha, Hb.
  apply elem_of_cons in Ha as [->|Ha]; [|apply list_elem_of_singleton in Ha as ->];
    (apply elem_of_cons in Hb as [->|Hb]; [|apply list_elem_of_singleton in Hb as ->]);
    intros E; try reflexivity; vm_compute in E; discriminate.
Qed.

Lemma lane_order_irrelevant_witness :
  Forall (packable 0 0 100) two_lanes_example
  /\ Permutation two_lanes_example (reverse two_lanes_example)
  /\ (forall a b, a ∈ survivors identity4 0 0 100 ∅ two_lanes_example ->
                  b ∈ survivors identity4 0 0 100 ∅ two_lanes_example ->
                  first_point_distance Qsqrt_fix a == first_point_distance Qsqrt_fix b ->
                  a = b)
  /\ exists out out' t,
       create_lane_tensor Qsqrt_fix two_lanes_example identity4 0 0 100 ∅ 2
       = (out, Ok t)
       /\ create_lane_tensor Qsqrt_fix (reverse two_lanes_example) identity4 0 0 100 ∅ 2
          = (out', Ok t).
Proof.
  assert (H1 : Forall (packable 0 0 100) two_lanes_example)
    by (repeat (constructor; [apply straight_lane_packable|]); constructor).
  assert (H2 : Permutation two_lanes_example (reverse two_lanes_example))
    by apply perm_swap.
  split; [exact H1|]. split; [exact H2|]. split; [exact two_lanes_distinct|].
  exact (lane_order_irrelevant Qsqrt_fix two_lanes_example (reverse two_lanes_example)
           identity4 0 0 100 ∅ 2 H1 H2 two_lanes_distinct).
Defined.

(** * The drawing of packed lanes *)

(** ** From the encoder to the colour of the drawing *)

Lemma encode_then_light_color (s : LaneSegment) (tlr : gmap Z Z) (out : list event)
    (tl row : list Q) :
  encode_traffic_light s tlr = (out, Ok tl) ->
  drop 8 row = tl ->
  light_color row = Ok (drawn_color s tlr).
Proof.
  unfold encode_traffic_light, drawn_color, light_color. intros Henc ->.
  destruct (traffic_lights s) as [|first others].
  - injection Henc as _ <-. reflexivity.
  - destruct (tlr !! tl_id first) as [c|].
    + destruct (c =? 1)%Z eqn:E1; [apply Z.eqb_eq in E1 as ->|];
        [|destruct (c =? 2)%Z eqn:E2; [apply Z.eqb_eq in E2 as ->|];
          [|destruct (c =? 3)%Z eqn:E3; [apply Z.eqb_eq in E3 as ->|];
            [|destruct (c =? 4)%Z eqn:E4; [apply Z.eqb_eq in E4 as ->|]]]];
        destruct others; simpl in Henc; injection Henc as _ <-; reflexivity.
    + destruct others; simpl in Henc; injection Henc as _ <-; reflexivity.
Qed.

Lemma plotted_in_bind {A B : Type} (color : option string) (c : io A) (k : A -> io B) :
  Forall (plotted_in color) (fst c) ->
  (forall a, Forall (plotted_in color) (fst (k a))) ->
  Forall (plotted_in color) (fst (io_bind c k)).
Proof.
  intros Hc Hk. destruct c as [out [a|e]]; simpl in *; [|done].
  specialize (Hk a). destruct (k a) as [out' res]. simpl in *.
  apply Forall_app. by split.
Qed.

Lemma plotted_in_lift {A : Type} (color : option string) (x : result A) :
  Forall (plotted_in color) (fst (lift x)).
Proof. constructor. Qed.

Lemma plotted_in_emit (color : option string) (xs ys : list Q) (a w : Q) :
  Forall (plotted_in color) (fst (emit (AxPlot xs ys a w color))).
Proof. constructor; [by eexists _, _, _, _|constructor]. Qed.

Lemma draw_point_plotted (a b w : Q) (p : list Q) (rest : list (list Q))
    (color : option string) (st : locals) :
  Forall (plotted_in color) (fst (draw_point a b w p rest color st)).
Proof.
  unfold draw_point.
  repeat (apply plotted_in_bind; [apply plotted_in_lift|intros ?]).
  destruct rest as [|next_point rest']; [constructor|].
  repeat first
    [ apply plotted_in_bind; [apply plotted_in_lift|intros ?]
    | apply plotted_in_bind; [apply plotted_in_emit|intros ?] ].
  constructor.
Qed.

Lemma lanes_points_plotted (pts : list (list Q)) (color : option string) (st : locals) :
  Forall (fun p => light_color p = Ok color) pts ->
  Forall (plotted_in color) (fst (lanes_points pts st)).
Proof.
  intros Hall. revert st. induction Hall as [|p pts Hp _ IH]; intros st; [constructor|].
  cbn [lanes_points]. rewrite Hp, io_bind_lift.
  destruct (masked p); [apply IH|].
  apply plotted_in_bind; [apply draw_point_plotted|]. intros st'. apply IH.
Qed.

Lemma route_points_plotted (pts : list (list Q)) (color : option string) (st : locals) :
  Forall (fun p => light_color p = Ok color) pts ->
  Forall (plotted_in color) (fst (route_points pts st)).
Proof.
  intros Hall. revert st. induction Hall as [|p pts Hp _ IH]; intros st; [constructor|].
  cbn [route_points]. destruct (masked p).
  - apply plotted_in_bind; [apply IH|]. intros [skipped st']. constructor.
  - rewrite Hp, io_bind_lift.
    apply plotted_in_bind; [apply draw_point_plotted|]. intros st'.
    apply plotted_in_bind; [apply IH|]. intros [skipped st'']. constructor.
Qed.

(** X14: from the encoder to the drawing.  On every row that
    [process_segment] returns for a 20-point lane, [visualize_inputs]
    chooses the colour of the lane's traffic-light state: green, yellow
    or red for the observed codes 3, 2 and 1, gray for code 4, for a light
    without observation and for a lane without light, and no colour for
    any other code; every line piece that the lanes loop and the route
    loop plot for these rows has that colour. *)
Theorem lane_drawn_in_light_color (s : LaneSegment) (m : Mat4) (cx cy r : Q)
    (tlr : gmap Z Z) (out : list event) (line_data : list (list Q)) (speed : option Q)
    (st : locals) :
  twenty_points s ->
  process_segment s m cx cy r tlr = (out, Ok (Some (line_data, speed))) ->
  Forall (fun row => light_color row = Ok (drawn_color s tlr)) line_data
  /\ Forall (plotted_in (drawn_color s tlr)) (fst (lanes_points line_data st))
  /\ Forall (plotted_in (drawn_color s tlr)) (fst (route_points line_data st)).
Proof.
  intros Hs Hret.
  assert (Hrows : Forall (fun row => light_color row = Ok (drawn_color s tlr)) line_data).
  { destruct (inside s cx cy r) eqn:Hin.
    2:{ destruct Hs as (Hl & Hr & _).
        rewrite (process_segment_outside s m cx cy r tlr Hl Hr Hin) in Hret.
        discriminate. }
    destruct (encode_traffic_light_total s tlr) as (out' & tl & Htl & _).
    destruct (speed_limit_mph s) as [v|] eqn:Hv.
    2:{ destruct (process_segment_no_speed_TypeError s m cx cy r tlr Hs Hin Hv) as [o Ho].
        congruence. }
    rewrite (process_segment_inside s m cx cy r tlr out' tl v Hs Hin Htl Hv) in Hret.
    injection Hret as _ <- _. apply Forall_forall. intros row Hrow.
    apply line_data_of_rows in Hrow as [_ Hdrop].
    by apply (encode_then_light_color s tlr out' tl). }
  split; [done|]. split; [by apply lanes_points_plotted|by apply route_points_plotted].
Qed.

Lemma lane_drawn_in_light_color_witness :
  twenty_points two_lights_lane
  /\ process_segment two_lights_lane identity4 0 0 100 two_lights_mapping
     = ([Print (warning_more_than_one two_lights_lane)],
        Ok (Some (two_lights_rows, Some (10 * mph2mps))))
  /\ Forall (fun row => light_color row = Ok (Some "green"%string)) two_lights_rows
  /\ Forall (plotted_in (Some "green"%string))
       (fst (lanes_points two_lights_rows no_locals))
  /\ Forall (plotted_in (Some "green"%string))
       (fst (route_points two_lights_rows no_locals)).
Proof.
  assert (H1 : twenty_points two_lights_lane) by apply straight_lane_twenty_points.
  assert (H2 : process_segment two_lights_lane identity4 0 0 100 two_lights_mapping
               = ([Print (warning_more_than_one two_lights_lane)],
                  Ok (Some (two_lights_rows, Some (10 * mph2mps))))).
  { apply process_segment_inside;
      [exact H1|vm_compute; reflexivity|reflexivity|reflexivity]. }
  split; [exact H1|]. split; [exact H2|].
  exact (lane_drawn_in_light_color two_lights_lane identity4 0 0 100 two_lights_mapping
           _ _ _ no_locals H1 H2).
Defined.

(** ** Padding rows in the drawing *)

Lemma io_bind_ext {A B : Type} (c : io A) (k k' : A -> io B) :
  (forall a, k a = k' a) -> io_bind c k = io_bind c k'.
Proof. intros H. destruct c as [out [a|e]]; simpl; [by rewrite H|done]. Qed.

Lemma lanes_points_masked (pts : list (list Q)) (st : locals) :
  Forall (fun p => length p = 12%nat /\ masked p = true) pts ->
  lanes_points pts st = ([], Ok st).
Proof.
  induction 1 as [|p pts [Hlen Hm] _ IH]; [reflexivity|].
  cbn [lanes_points]. destruct (light_color_ok p Hlen) as [c ->].
  rewrite io_bind_lift, Hm. exact IH.
Qed.

Lemma route_points_masked (pts : list (list Q)) (st : locals) :
  Forall (fun p => length p = 12%nat /\ masked p = true) pts ->
  route_points pts st = ([], Ok (replicate (length pts) true, st)).
Proof.
  induction 1 as [|p pts [Hlen Hm] _ IH]; [reflexivity|].
  cbn [route_points]. rewrite Hm, IH. reflexivity.
Qed.

Lemma num_true_replicate (n : nat) : num_true (replicate n true) = n.
Proof. induction n as [|n IH]; [reflexivity|]. unfold num_true in *. simpl. by rewrite IH. Qed.

Lemma lanes_loop_padding (pad : list (list (list Q))) (st : locals) :
  Forall fully_masked pad -> lanes_loop pad st = ([], Ok st).
Proof.
  induction 1 as [|row pad [_ Hrow] _ IH]; [reflexivity|].
  cbn [lanes_loop]. rewrite (lanes_points_masked row st Hrow). cbn [io_bind].
  by rewrite IH.
Qed.

Lemma route_loop_padding (pad : list (list (list Q))) (i : nat) (st : locals) :
  Forall fully_masked pad -> route_loop i pad st = ([], Ok st).
Proof.
  intros H. revert i. induction H as [|row pad [Hlen Hrow] _ IH]; intros i;
    [reflexivity|].
  cbn [route_loop]. rewrite (route_points_masked row st Hrow). cbn [io_bind].
  rewrite num_true_replicate, Hlen. simpl. rewrite (IH (S i)). reflexivity.
Qed.

Lemma lanes_loop_app_padding (lanes pad : list (list (list Q))) (st : locals) :
  Forall fully_masked pad -> lanes_loop (lanes ++ pad) st = lanes_loop lanes st.
Proof.
  intros H. revert st. induction lanes as [|row lanes IH]; intros st.
  - by apply lanes_loop_padding.
  - cbn [app lanes_loop]. by apply io_bind_ext.
Qed.

Lemma route_loop_app_padding (route pad : list (list (list Q))) (i : nat)
    (st : locals) :
  Forall fully_masked pad -> route_loop i (route ++ pad) st = route_loop i route st.
Proof.
  intros H. revert i st. induction route as [|row route IH]; intros i st.
  - by apply route_loop_padding.
  - cbn [app route_loop]. apply io_bind_ext. intros [skipped st'].
    apply io_bind_ext. intros _. apply io_bind_ext. intros _. apply IH.
Qed.

(** X15: padding rows are invisible: rows of 20 fully masked points (the
    zero rows that [create_lane_tensor] appends) after the rows of
    [lanes] and of [route_lanes] change neither what the two loops of
    [visualize_inputs] plot and print nor whether they halt, so that the
    drawing does not depend on the capacity of the tensors. *)
Theorem padding_rows_draw_nothing (lanes route_lanes pad pad' : list (list (list Q))) :
  Forall fully_masked pad -> Forall fully_masked pad' ->
  visualize_lanes (lanes ++ pad) (route_lanes ++ pad')
  = visualize_lanes lanes route_lanes.
Proof.
  intros H H'. unfold visualize_lanes. rewrite lanes_loop_app_padding by done.
  apply io_bind_ext. intros st. by apply route_loop_app_padding.
Qed.

Lemma zeros_row_fully_masked : fully_masked zeros_row.
Proof.
  split; [reflexivity|]. unfold zeros_row. apply Forall_replicate. by split.
Qed.

Lemma padding_rows_draw_nothing_witness :
  Forall fully_masked (replicate 2 zeros_row)
  /\ Forall fully_masked (replicate 3 zeros_row)
  /\ visualize_lanes ([two_lights_rows] ++ replicate 2 zeros_row)
       ([two_lights_rows] ++ replicate 3 zeros_row)
     = visualize_lanes [two_lights_rows] [two_lights_rows].
Proof.
  assert (H : Forall fully_masked (replicate 2 zeros_row))
    by (apply Forall_replicate, zeros_row_fully_masked).
  assert (H' : Forall fully_masked (replicate 3 zeros_row))
    by (apply Forall_replicate, zeros_row_fully_masked).
  split; [exact H|]. split; [exact H'|].
  exact (padding_rows_draw_nothing [two_lights_rows] [two_lights_rows] _ _ H H').
Defined.

(** * The map construction *)

(** ** Loops and dicts *)

Lemma for_each_invariant {A S : Type} (Inv : S -> Prop) (body : S -> A -> built S)
    (l : list A) (st st' : S) :
  Inv st ->
  (forall s a s', a ∈ l -> Inv s -> body s a = Built s' -> Inv s') ->
  for_each body l st = Built st' -> Inv st'.
Proof.
  revert st. induction l as [|a l IH]; intros st Hst Hstep Hrun.
  - by injection Hrun as <-.
  - cbn [for_each] in Hrun. destruct (body st a) as [s1| |] eqn:Hb; try discriminate.
    cbn [built_bind] in Hrun. apply (IH s1); [| |done].
    + apply (Hstep st a); [constructor|done..].
    + intros s b s' Hb'. apply Hstep. by constructor.
Qed.

Lemma elem_of_dict_set {V : Type} (k k' : Z) (v v' : V) (d : list (Z * V)) :
  (k', v') ∈ dict_set k v d -> (k', v') = (k, v) \/ (k', v') ∈ d.
Proof.
  induction d as [|[k0 v0] d IH]; simpl.
  - intros H. apply list_elem_of_singleton in H. by left.
  - destruct (k0 =? k)%Z.
    + intros H. apply elem_of_cons in H as [H|H]; [by left|right; by constructor].
    + intros H. apply elem_of_cons in H as [H|H]; [right; rewrite H; constructor|].
      destruct (IH H) as [?|?]; [by left|right; by constructor].
Qed.

Lemma dict_set_Forall {V : Type} (P : Z * V -> Prop) (k : Z) (v : V) (d : list (Z * V)) :
  P (k, v) -> Forall P d -> Forall P (dict_set k v d).
Proof.
  intros Hkv Hd. apply Forall_forall. intros [k' v'] Hin.
  apply elem_of_dict_set in Hin as [->|Hin]; [done|].
  rewrite Forall_forall in Hd. by apply Hd.
Qed.

Lemma dict_set_keys {V : Type} (k : Z) (v : V) (d : list (Z * V)) (k' : Z) :
  k' ∈ map fst (dict_set k v d) <-> k' = k \/ k' ∈ map fst d.
Proof.
  induction d as [|[k0 v0] d IH]; simpl.
  - rewrite list_elem_of_singleton. split; [by left|]. intros [?|H]; [done|]. inversion H.
  - destruct (k0 =? k)%Z eqn:E; simpl.
    + apply Z.eqb_eq in E as ->. rewrite !elem_of_cons. tauto.
    + rewrite !elem_of_cons, IH. tauto.
Qed.

(** ** Regulatory elements *)


(** ** What [_interpolate_lane] and [_interpolate_points] return *)

Lemma interpolate_lane_nonempty sqrtQ (w out : list Point3) :
  _interpolate_lane sqrtQ w = Ok out -> out <> [].
Proof.
  unfold _interpolate_lane.
  destruct (last (arc_lengths sqrtQ w)) as [total|]; [|discriminate]. cbn [bind].
  destruct (mapM _ _) as [xs|]; [|discriminate]. cbn [bind].
  destruct (mapM _ _) as [ys|]; [|discriminate]. cbn [bind].
  destruct (mapM _ _) as [zs|]; [|discriminate]. cbn [bind].
  destruct (vstack_T xs ys zs) as [|first_new nw]; [discriminate|]. cbn [index0 bind].
  destruct w as [|first_old w']; [discriminate|]. cbn [index0 bind].
  destruct (negb (allclose first_new first_old));
    (destruct (last _) as [last_new|]; [|discriminate]);
    (destruct (last _) as [last_old|]; [|discriminate]);
    destruct (negb (allclose last_new last_old)); intros [= <-]; done.
Qed.

Lemma interpolate_singleton sqrtQ (pts a : list Point3) (d : Q) :
  pts <> [] -> interpolate sqrtQ pts d = Ok a -> length a = 1%nat.
Proof.
  destruct pts as [|p pts]; [done|]. intros _. unfold interpolate.
  destruct (Qle_bool d 0); [by intros [= <-]|].
  destruct (locate_forward sqrtQ 0 (p :: pts) d); [|discriminate].
  by intros [= <-].
Qed.

Lemma interpolate_points_length sqrtQ (line out : list Point3) (K : nat) :
  line <> [] -> _interpolate_points sqrtQ line K = Ok out -> length out = K.
Proof.
  intros Hne. unfold _interpolate_points.
  destruct (LineString line) as [ls|] eqn:Hls; [|discriminate]. cbn [bind].
  assert (ls = line) as -> by (destruct line as [|? [|]]; simpl in Hls; congruence).
  destruct (mapM _ _) as [arrays|] eqn:Hm; [|discriminate]. cbn [bind].
  apply mapM_inv in Hm.
  assert (Hlen : length (concat arrays) = length (linspace 0 (line_length sqrtQ line) K)).
  { induction Hm as [|d a ds arrays' Ha _ IH]; [reflexivity|].
    simpl. rewrite length_app, IH.
    by rewrite (interpolate_singleton sqrtQ line a d Hne Ha). }
  rewrite length_linspace in Hlen.
  unfold np_concatenate. destruct arrays; [discriminate|]. by intros [= <-].
Qed.

(** ** What [_fix_point_num] changes *)

Lemma fix_segment_inv sqrtQ (s s' : LaneSegment) :
  fix_segment sqrtQ s = Ok s' ->
  same_lane s s'
  /\ exists left0 right0 left0' right0',
       head (left_boundaries s) = Some left0
       /\ head (right_boundaries s) = Some right0
       /\ head (left_boundaries s') = Some left0'
       /\ head (right_boundaries s') = Some right0'
       /\ _interpolate_points sqrtQ (waypoints (polyline s)) 20
          = Ok (waypoints (polyline s'))
       /\ _interpolate_points sqrtQ (waypoints (boundary_polyline left0)) 20
          = Ok (waypoints (boundary_polyline left0'))
       /\ _interpolate_points sqrtQ (waypoints (boundary_polyline right0)) 20
          = Ok (waypoints (boundary_polyline right0')).
Proof.
  unfold fix_segment.
  destruct (left_boundaries s) as [|left0 lrest] eqn:El; [discriminate|].
  destruct (right_boundaries s) as [|right0 rrest] eqn:Er; [discriminate|].
  cbn [index0 bind].
  destruct (_interpolate_points sqrtQ (waypoints (polyline s)) 20)
    as [new_center|] eqn:Hc; [|discriminate]. cbn [bind].
  destruct (_interpolate_points sqrtQ (waypoints (boundary_polyline left0)) 20)
    as [new_left|] eqn:Hl; [|discriminate]. cbn [bind].
  destruct (_interpolate_points sqrtQ (waypoints (boundary_polyline right0)) 20)
    as [new_right|] eqn:Hr; [|discriminate]. cbn [bind].
  destruct (mean_xy (waypoints (polyline s))) as [c|] eqn:Hm; [|discriminate].
  cbn [bind]. intros [= <-]. split.
  - unfold same_lane. simpl. rewrite ?El, ?Er. by split_and!.
  - exists left0, right0, (set_waypoints left0 new_left), (set_waypoints right0 new_right).
    simpl. by split_and!.
Qed.

Lemma fix_point_num_frame sqrtQ (m m' : AWMLStaticMap) :
  _fix_point_num sqrtQ m = Ok m' ->
  map_id m' = map_id m
  /\ crosswalk_segments m' = crosswalk_segments m
  /\ boundary_segments m' = boundary_segments m
  /\ Forall2 (fun kv kv' => fst kv' = fst kv
                            /\ fix_segment sqrtQ (snd kv) = Ok (snd kv')
                            /\ same_lane (snd kv) (snd kv'))
       (lane_segments m) (lane_segments m').
Proof.
  unfold _fix_point_num.
  destruct (mapM _ (lane_segments m)) as [segs|] eqn:Hm; [|discriminate].
  cbn [bind]. intros [= <-]. simpl. split_and!; try done.
  apply mapM_inv in Hm.
  induction Hm as [|kv kv' l l' Hkv _ IH]; constructor; [|done].
  destruct (fix_segment sqrtQ (snd kv)) as [s'|] eqn:Hs; [|discriminate].
  cbn [bind] in Hkv. injection Hkv as <-. simpl. split_and!; [done..|].
  by apply fix_segment_inv in Hs as [? _].
Qed.

Lemma fix_segment_twenty_points sqrtQ (s s' : LaneSegment) :
  fix_segment sqrtQ s = Ok s' ->
  Forall (fun w => w <> []) (lane_polylines s) ->
  twenty_points s'.
Proof.
  intros Hfix Hne.
  apply fix_segment_inv in Hfix
    as [_ (l0 & r0 & l0' & r0' & Hl & Hr & Hl' & Hr' & Hc & Hlw & Hrw)].
  unfold lane_polylines in Hne. rewrite Hl, Hr in Hne. simpl in Hne.
  apply Forall_cons in Hne as [Hnc Hne].
  apply Forall_cons in Hne as [Hnl Hne].
  apply Forall_cons in Hne as [Hnr _].
  unfold twenty_points, lane_polylines. rewrite Hl', Hr'. simpl.
  split_and!.
  - by destruct (left_boundaries s').
  - by destruct (right_boundaries s').
  - constructor; [exact (interpolate_points_length sqrtQ _ _ 20 Hnc Hc)|].
    constructor; [exact (interpolate_points_length sqrtQ _ _ 20 Hnl Hlw)|].
    constructor; [exact (interpolate_points_length sqrtQ _ _ 20 Hnr Hrw)|].
    constructor.
Qed.

(** ** The loops of [convert_lanelet] *)

Section ConversionFacts.

Variable T4_LANE T4_ROADEDGE T4_ROADLINE : list string.
Variable MAP_TYPE_MAPPING : gmap string PolylineType.
Variable uuid : string -> nat -> string.
Variable sqrtQ : Q -> Q.
Variable parse_float : string -> option Q.
Variable routing_graph : RoutingGraph.

Abbreviation convert_one' :=
  (convert_one T4_LANE T4_ROADEDGE T4_ROADLINE MAP_TYPE_MAPPING sqrtQ parse_float
     routing_graph).
Abbreviation lane_of' := (lane_of MAP_TYPE_MAPPING parse_float routing_graph).
Abbreviation from_layer' :=
  (from_layer T4_LANE MAP_TYPE_MAPPING parse_float routing_graph).

Lemma lane_of_same_lane (l : LaneletPrimitive) (s s' : LaneSegment) :
  lane_of' l s -> same_lane s s' -> lane_of' l s'.
Proof.
  unfold lane_of, same_lane.
  intros (H1 & H2 & H3 & H4 & H5 & H6 & H7 & H8)
         (E1 & E2 & E3 & E4 & E5 & E6 & E7 & E8 & E9 & _).
  rewrite E1, E2, E3, E4, E5, E6, E7, E8, E9. by split_and!.
Qed.

Lemma get_boundary_segment_inv (linestring : LineString3d) (b : BoundarySegment) :
  _get_boundary_segment T4_ROADEDGE T4_ROADLINE MAP_TYPE_MAPPING sqrtQ linestring
  = Built b ->
  boundary_id b = linestring_id linestring
  /\ _interpolate_lane sqrtQ (linestring_points linestring)
     = Ok (waypoints (boundary_polyline b))
  /\ _get_boundary_type T4_ROADEDGE T4_ROADLINE MAP_TYPE_MAPPING linestring
     = Built (polyline_type (boundary_polyline b)).
Proof.
  unfold _get_boundary_segment.
  destruct (_get_boundary_type _ _ _ linestring) as [t| |]; try discriminate.
  cbn [built_bind].
  destruct (_interpolate_lane sqrtQ (linestring_points linestring)) as [w|];
    [|discriminate].
  cbn [of_result built_bind]. by intros [= <-].
Qed.

Lemma convert_one_inv (st st' : lanelet_loop) (l : LaneletPrimitive) :
  convert_one' st l = Built st' ->
  (lane_lanelet T4_LANE l
   /\ exists s,
        loop_lane_segments st'
        = dict_set (lanelet_id (lanelet_of l)) s (loop_lane_segments st)
        /\ lane_of' l s
        /\ Forall (fun w => w <> []) (lane_polylines s)
        /\ taken_boundary_ids st'
           = taken_boundary_ids st
             ++ [linestring_id (leftBound l); linestring_id (rightBound l)])
  \/ (~ lane_lanelet T4_LANE l
      /\ loop_lane_segments st' = loop_lane_segments st
      /\ taken_boundary_ids st' = taken_boundary_ids st).
Proof.
  unfold convert_one, lane_lanelet.
  destruct (bool_decide (_get_lanelet_subtype (lanelet_of l) ∈ T4_LANE)) eqn:Hlane.
  - apply bool_decide_eq_true in Hlane. intros Hrun. left. split; [done|].
    unfold getitem in Hrun.
    destruct (MAP_TYPE_MAPPING !! _get_lanelet_subtype (lanelet_of l))
      as [lane_type|] eqn:Htype; [|discriminate].
    cbn [built_bind] in Hrun.
    destruct (_interpolate_lane sqrtQ (centerline l)) as [w|] eqn:Hw; [|discriminate].
    cbn [of_result built_bind] in Hrun.
    destruct (_get_left_and_right_neighbor_ids l routing_graph) as [ln rn] eqn:Hn.
    destruct (_get_speed_limit_mph parse_float (lanelet_of l)) as [speed|] eqn:Hv;
      [|discriminate].
    cbn [of_result built_bind _get_left_and_right_linestring] in Hrun.
    destruct (_get_boundary_segment _ _ _ _ (leftBound l)) as [lb| |] eqn:Hlb;
      try discriminate.
    cbn [built_bind] in Hrun.
    destruct (_get_boundary_segment _ _ _ _ (rightBound l)) as [rb| |] eqn:Hrb;
      try discriminate.
    cbn [built_bind] in Hrun. injection Hrun as <-.
    apply get_boundary_segment_inv in Hlb as (Hlid & Hlw & _).
    apply get_boundary_segment_inv in Hrb as (Hrid & Hrw & _).
    eexists. split; [reflexivity|]. split; [|split; [|reflexivity]].
    + unfold lane_of. simpl. rewrite Hlid, Hrid. by split_and!.
    + unfold lane_polylines. simpl.
      repeat (constructor; [by eapply interpolate_lane_nonempty|]). constructor.
  - apply bool_decide_eq_false in Hlane. intros Hrun. right. split; [done|].
    destruct (bool_decide (_get_lanelet_subtype (lanelet_of l) = "crosswalk"%string)).
    + destruct (_interpolate_lane sqrtQ (polygon3d l)) as [w|]; [|discriminate].
      cbn [of_result built_bind] in Hrun.
      destruct (getitem MAP_TYPE_MAPPING _) as [t| |]; try discriminate.
      cbn [built_bind] in Hrun. by injection Hrun as <-.
    + by injection Hrun as <-.
Qed.

Lemma lanelet_loop_lanes (layer : list LaneletPrimitive) (st : lanelet_loop) :
  for_each convert_one' layer (mkLaneletLoop [] [] []) = Built st ->
  Forall (fun kv => from_layer' layer kv
                    /\ Forall (fun w => w <> []) (lane_polylines (snd kv)))
    (loop_lane_segments st).
Proof.
  apply (for_each_invariant
           (fun st => Forall (fun kv => from_layer' layer kv
                                        /\ Forall (fun w => w <> [])
                                             (lane_polylines (snd kv)))
                        (loop_lane_segments st))); [constructor|].
  intros s l s' Hl Hinv Hstep.
  apply convert_one_inv in Hstep
    as [(Hlane & seg & -> & Hof & Hne & _)|(_ & -> & _)]; [|done].
  apply dict_set_Forall; [|done]. split; [|done]. by exists l.
Qed.

Lemma lanelet_loop_taken (layer : list LaneletPrimitive) (st st' : lanelet_loop) :
  for_each convert_one' layer st = Built st' ->
  (forall x, x ∈ taken_boundary_ids st -> x ∈ taken_boundary_ids st')
  /\ (forall k, k ∈ map fst (loop_lane_segments st) ->
                k ∈ map fst (loop_lane_segments st'))
  /\ forall l, l ∈ layer -> lane_lanelet T4_LANE l ->
       linestring_id (leftBound l) ∈ taken_boundary_ids st'
       /\ linestring_id (rightBound l) ∈ taken_boundary_ids st'
       /\ lanelet_id (lanelet_of l) ∈ map fst (loop_lane_segments st').
Proof.
  revert st. induction layer as [|l0 layer IH]; intros st Hrun.
  - injection Hrun as <-. split_and!; [done|done|]. intros l Hl. inversion Hl.
  - cbn [for_each] in Hrun.
    destruct (convert_one' st l0) as [s1| |] eqn:Hstep; try discriminate.
    cbn [built_bind] in Hrun. destruct (IH s1 Hrun) as (Hmono & Hkeys & Hall).
    apply convert_one_inv in Hstep
      as [(Hlane & seg & Hsegs & _ & _ & Htaken)|(Hnot & Hsegs & Htaken)].
    + split_and!.
      * intros x Hx. apply Hmono. rewrite Htaken. apply elem_of_app. by left.
      * intros k Hk. apply Hkeys. rewrite Hsegs. apply dict_set_keys. by right.
      * intros l Hl Hll. apply elem_of_cons in Hl as [->|Hl]; [|by apply Hall].
        split_and!.
        -- apply Hmono. rewrite Htaken. apply elem_of_app. right. constructor.
        -- apply Hmono. rewrite Htaken. apply elem_of_app. right.
           constructor. constructor.
        -- apply Hkeys. rewrite Hsegs. apply dict_set_keys. by left.
    + split_and!.
      * intros x Hx. apply Hmono. by rewrite Htaken.
      * intros k Hk. apply Hkeys. by rewrite Hsegs.
      * intros l Hl Hll. apply elem_of_cons in Hl as [->|Hl]; [done|by apply Hall].
Qed.

Lemma linestring_loop_orphans (taken : list Z) (layer : list LineString3d)
    (boundary_segments : list (Z * BoundarySegment)) :
  for_each (convert_linestring T4_ROADEDGE T4_ROADLINE MAP_TYPE_MAPPING sqrtQ taken)
    layer [] = Built boundary_segments ->
  Forall (fun kb =>
            (fst kb ∉ taken)
            /\ exists linestring,
                 linestring ∈ layer /\ linestring_id linestring = fst kb
                 /\ boundary_id (snd kb) = fst kb
                 /\ (_get_linestring_type linestring ∈ T4_ROADEDGE
                     \/ _get_linestring_type linestring ∈ T4_ROADLINE)
                 /\ _get_boundary_type T4_ROADEDGE T4_ROADLINE MAP_TYPE_MAPPING linestring
                    = Built (polyline_type (boundary_polyline (snd kb)))
                 /\ _interpolate_lane sqrtQ (linestring_points linestring)
                    = Ok (waypoints (boundary_polyline (snd kb))))
    boundary_segments.
Proof.
  apply (for_each_invariant
           (Forall (fun kb =>
              (fst kb ∉ taken)
              /\ exists linestring,
                   linestring ∈ layer /\ linestring_id linestring = fst kb
                   /\ boundary_id (snd kb) = fst kb
                   /\ (_get_linestring_type linestring ∈ T4_ROADEDGE
                       \/ _get_linestring_type linestring ∈ T4_ROADLINE)
                   /\ _get_boundary_type T4_ROADEDGE T4_ROADLINE MAP_TYPE_MAPPING linestring
                      = Built (polyline_type (boundary_polyline (snd kb)))
                   /\ _interpolate_lane sqrtQ (linestring_points linestring)
                      = Ok (waypoints (boundary_polyline (snd kb))))));
    [constructor|].
  intros bs ls bs' Hls Hinv Hstep. unfold convert_linestring in Hstep.
  destruct (_ && _) eqn:Hcond.
  - apply andb_true_iff in Hcond as [Htype Hfree].
    apply bool_decide_eq_true in Hfree.
    apply orb_true_iff in Htype.
    rewrite !bool_decide_eq_true in Htype.
    destruct (_get_boundary_segment _ _ _ _ ls) as [b| |] eqn:Hb; try discriminate.
    cbn [built_bind] in Hstep. injection Hstep as <-.
    apply get_boundary_segment_inv in Hb as (Hid & Hw & Ht).
    apply dict_set_Forall; [|done]. simpl. split; [done|].
    exists ls. by split_and!.
  - by injection Hstep as <-.
Qed.

Lemma lanelet_loop_crosswalks (layer : list LaneletPrimitive) (st : lanelet_loop) :
  for_each convert_one' layer (mkLaneletLoop [] [] []) = Built st ->
  Forall (crosswalk_from_layer T4_LANE MAP_TYPE_MAPPING sqrtQ layer)
    (loop_crosswalk_segments st).
Proof.
  apply (for_each_invariant
           (fun st => Forall (crosswalk_from_layer T4_LANE MAP_TYPE_MAPPING sqrtQ layer)
                        (loop_crosswalk_segments st))); [constructor|].
  intros s l s' Hl Hinv. unfold convert_one.
  destruct (bool_decide (_get_lanelet_subtype (lanelet_of l) ∈ T4_LANE)) eqn:Hlane.
  - intros Hrun.
    destruct (getitem MAP_TYPE_MAPPING _) as [t| |]; try discriminate.
    cbn [built_bind] in Hrun.
    destruct (_interpolate_lane sqrtQ (centerline l)) as [w|]; [|discriminate].
    cbn [of_result built_bind] in Hrun.
    destruct (_get_left_and_right_neighbor_ids l routing_graph) as [ln rn].
    destruct (_get_speed_limit_mph parse_float (lanelet_of l)) as [v|]; [|discriminate].
    cbn [of_result built_bind _get_left_and_right_linestring] in Hrun.
    destruct (_get_boundary_segment _ _ _ _ (leftBound l)) as [lb| |]; try discriminate.
    cbn [built_bind] in Hrun.
    destruct (_get_boundary_segment _ _ _ _ (rightBound l)) as [rb| |]; try discriminate.
    cbn [built_bind] in Hrun. by injection Hrun as <-.
  - apply bool_decide_eq_false in Hlane.
    destruct (bool_decide (_get_lanelet_subtype (lanelet_of l) = "crosswalk"%string))
      eqn:Hcw; [|by intros [= <-]].
    apply bool_decide_eq_true in Hcw. intros Hrun.
    destruct (_interpolate_lane sqrtQ (polygon3d l)) as [w|] eqn:Hw; [|discriminate].
    cbn [of_result built_bind] in Hrun. unfold getitem in Hrun. rewrite Hcw in Hrun.
    destruct (MAP_TYPE_MAPPING !! "crosswalk"%string) as [t|] eqn:Ht; [|discriminate].
    cbn [built_bind] in Hrun. injection Hrun as <-. simpl.
    apply dict_set_Forall; [|done]. exists l. by split_and!.
Qed.

End ConversionFacts.

(** ** The converted map *)

Section ConvertedMap.

Variable T4_LANE T4_ROADEDGE T4_ROADLINE : list string.
Variable MAP_TYPE_MAPPING : gmap string PolylineType.
Variable uuid : string -> nat -> string.
Variable sqrtQ : Q -> Q.
Variable parse_float : string -> option Q.

Abbreviation convert_lanelet' :=
  (convert_lanelet T4_LANE T4_ROADEDGE T4_ROADLINE MAP_TYPE_MAPPING uuid sqrtQ
     parse_float).

Lemma convert_lanelet_inv (filename : string) (lanelet_map : LaneletMap)
    (routing_graph : RoutingGraph) (m : AWMLStaticMap) :
  convert_lanelet' filename lanelet_map routing_graph = Built m ->
  exists st boundary_segments,
    for_each (convert_one T4_LANE T4_ROADEDGE T4_ROADLINE MAP_TYPE_MAPPING sqrtQ
                parse_float routing_graph)
      (laneletLayer lanelet_map) (mkLaneletLoop [] [] []) = Built st
    /\ for_each (convert_linestring T4_ROADEDGE T4_ROADLINE MAP_TYPE_MAPPING sqrtQ
                   (taken_boundary_ids st))
         (lineStringLayer lanelet_map) [] = Built boundary_segments
    /\ _fix_point_num sqrtQ
         (mkAWMLStaticMap (uuid filename 16) (loop_lane_segments st)
            (loop_crosswalk_segments st) boundary_segments) = Ok m.
Proof.
  unfold convert_lanelet.
  destruct (traffic_light_elements _) as [tl| |]; try discriminate. cbn [built_bind].
  destruct (for_each (convert_one _ _ _ _ _ _ _) _ _) as [st| |] eqn:Hst;
    try discriminate.
  cbn [built_bind].
  destruct (for_each (convert_linestring _ _ _ _ _) _ _) as [bs| |] eqn:Hbs;
    try discriminate.
  cbn [built_bind].
  destruct (_fix_point_num _ _) as [m'|] eqn:Hfix; [|discriminate].
  intros [= <-]. by exists st, bs.
Qed.

Lemma converted_lanes_from_layer (filename : string) (lanelet_map : LaneletMap)
    (routing_graph : RoutingGraph) (m : AWMLStaticMap) :
  convert_lanelet' filename lanelet_map routing_graph = Built m ->
  Forall (fun kv =>
            from_layer T4_LANE MAP_TYPE_MAPPING parse_float routing_graph
              (laneletLayer lanelet_map) kv
            /\ twenty_points (snd kv))
    (lane_segments m).
Proof.
  intros Hconv. apply convert_lanelet_inv in Hconv as (st & bs & Hst & _ & Hfix).
  apply lanelet_loop_lanes in Hst.
  apply fix_point_num_frame in Hfix as (_ & _ & _ & Hfix). simpl in Hfix.
  induction Hfix as [|kv kv' l l' (Hk & Hseg & Hsame) _ IH]; [constructor|].
  apply Forall_cons in Hst as [[(l0 & Hl0 & Hlane & Hid & Hof) Hne] Hst].
  constructor; [|by apply IH]. split.
  - exists l0. split_and!; [done|done|congruence|].
    by apply (lane_of_same_lane MAP_TYPE_MAPPING parse_float routing_graph l0 (snd kv)).
  - by apply (fix_segment_twenty_points sqrtQ (snd kv)).
Qed.

Lemma length_neighbor_ids (l : LaneletPrimitive) (routing_graph : RoutingGraph)
    (ln rn : list Z) :
  (ln, rn) = _get_left_and_right_neighbor_ids l routing_graph ->
  (length ln <= 1)%nat /\ (length rn <= 1)%nat.
Proof.
  unfold _get_left_and_right_neighbor_ids. intros [= -> ->].
  destruct (graph_left routing_graph l), (graph_right routing_graph l); simpl; lia.
Qed.

(** X16: the lane entities of a converted map.  Every lane segment of a
    map that [convert_lanelet] returns is stored under its own id, has
    exactly one left and one right boundary segment, 20 points on its
    centerline and on both boundaries, and at most one neighbour id per
    side. *)
Theorem converted_lane_entities (filename : string) (lanelet_map : LaneletMap)
    (routing_graph : RoutingGraph) (m : AWMLStaticMap) :
  convert_lanelet' filename lanelet_map routing_graph = Built m ->
  Forall (fun kv =>
            segment_id (snd kv) = fst kv
            /\ twenty_points (snd kv)
            /\ length (left_boundaries (snd kv)) = 1%nat
            /\ length (right_boundaries (snd kv)) = 1%nat
            /\ (length (left_neighbor_ids (snd kv)) <= 1)%nat
            /\ (length (right_neighbor_ids (snd kv)) <= 1)%nat)
    (lane_segments m).
Proof.
  intros Hconv. apply converted_lanes_from_layer in Hconv.
  eapply Forall_impl; [exact Hconv|]. simpl.
  intros kv [(l & _ & _ & Hid & Hof) Htwenty].
  destruct Hof as (Hsid & _ & _ & Hn & _ & _ & Hlb & Hrb).
  apply length_neighbor_ids in Hn as [Hln Hrn].
  apply (f_equal length) in Hlb, Hrb. rewrite length_map in Hlb, Hrb.
  split_and!; try done. congruence.
Qed.

Lemma converted_lane_keys (filename : string) (lanelet_map : LaneletMap)
    (routing_graph : RoutingGraph) (m : AWMLStaticMap) (k : Z) :
  convert_lanelet' filename lanelet_map routing_graph = Built m ->
  k ∈ map fst (lane_segments m)
  <-> exists l, l ∈ laneletLayer lanelet_map /\ lane_lanelet T4_LANE l
                /\ lanelet_id (lanelet_of l) = k.
Proof.
  intros Hconv. split.
  - intros Hk. apply converted_lanes_from_layer in Hconv.
    apply list_elem_of_fmap in Hk as (kv & -> & Hkv).
    rewrite Forall_forall in Hconv.
    destruct (Hconv kv Hkv) as [(l & Hl & Hlane & Hid & _) _]. by exists l.
  - intros (l & Hl & Hlane & <-).
    apply convert_lanelet_inv in Hconv as (st & bs & Hst & _ & Hfix).
    apply lanelet_loop_taken in Hst as (_ & _ & Hall).
    destruct (Hall l Hl Hlane) as (_ & _ & Hkey).
    apply fix_point_num_frame in Hfix as (_ & _ & _ & Hfix). simpl in Hfix.
    assert (Hkeys : map fst (lane_segments m) = map fst (loop_lane_segments st)).
    { clear -Hfix. induction Hfix as [|kv kv' l1 l2 (Hk & _) _ IH]; [done|].
      simpl. by rewrite Hk, IH. }
    by rewrite Hkeys.
Qed.

(** X17: the boundary segments of a converted map are the unclaimed
    ones: each comes from a linestring of the layer whose type is a
    road-edge or a road-line name, is stored under the id of that
    linestring, is never the left or right bound of a lanelet that became
    a lane, and keeps the points of [_interpolate_lane]: it is not
    resampled to 20 points. *)
Theorem orphan_boundaries_unclaimed (filename : string) (lanelet_map : LaneletMap)
    (routing_graph : RoutingGraph) (m : AWMLStaticMap) :
  convert_lanelet' filename lanelet_map routing_graph = Built m ->
  Forall (fun kb =>
            (exists linestring,
               linestring ∈ lineStringLayer lanelet_map
               /\ linestring_id linestring = fst kb
               /\ boundary_id (snd kb) = fst kb
               /\ (_get_linestring_type linestring ∈ T4_ROADEDGE
                   \/ _get_linestring_type linestring ∈ T4_ROADLINE)
               /\ _get_boundary_type T4_ROADEDGE T4_ROADLINE MAP_TYPE_MAPPING linestring
                  = Built (polyline_type (boundary_polyline (snd kb)))
               /\ _interpolate_lane sqrtQ (linestring_points linestring)
                  = Ok (waypoints (boundary_polyline (snd kb))))
            /\ forall l, l ∈ laneletLayer lanelet_map -> lane_lanelet T4_LANE l ->
                 fst kb <> linestring_id (leftBound l)
                 /\ fst kb <> linestring_id (rightBound l))
    (boundary_segments m).
Proof.
  intros Hconv. apply convert_lanelet_inv in Hconv as (st & bs & Hst & Hbs & Hfix).
  apply lanelet_loop_taken in Hst as (_ & _ & Hall).
  apply linestring_loop_orphans in Hbs.
  apply fix_point_num_frame in Hfix as (_ & _ & -> & _). simpl.
  eapply Forall_impl; [exact Hbs|]. simpl. intros kb [Hfree Hls]. split; [done|].
  intros l Hl Hlane. destruct (Hall l Hl Hlane) as (Hleft & Hright & _).
  split; intros E; apply Hfree; by rewrite E.
Qed.

(** X18: the crosswalk segments of a converted map come from the lanelets
    of the subtype crosswalk that are not lanes: each is stored under
    the id of its lanelet, has the type of the name crosswalk and keeps,
    for its polygon, the points that [_interpolate_lane] returns for the
    lanelet's polygon: it is not resampled to 20 points. *)
Theorem crosswalks_keep_polygon_points (filename : string) (lanelet_map : LaneletMap)
    (routing_graph : RoutingGraph) (m : AWMLStaticMap) :
  convert_lanelet' filename lanelet_map routing_graph = Built m ->
  Forall (crosswalk_from_layer T4_LANE MAP_TYPE_MAPPING sqrtQ
            (laneletLayer lanelet_map))
    (crosswalk_segments m).
Proof.
  intros Hconv. apply convert_lanelet_inv in Hconv as (st & bs & Hst & _ & Hfix).
  apply fix_point_num_frame in Hfix as (_ & -> & _ & _). simpl.
  by eapply lanelet_loop_crosswalks.
Qed.

End ConvertedMap.

(** ** Maps that are accepted *)

Lemma for_each_total {A S : Type} (Inv : S -> Prop) (body : S -> A -> built S)
    (l : list A) (st : S) :
  Inv st ->
  (forall s a, a ∈ l -> Inv s -> exists s', body s a = Built s' /\ Inv s') ->
  exists st', for_each body l st = Built st' /\ Inv st'.
Proof.
  revert st. induction l as [|a l IH]; intros st Hst Hstep.
  - by exists st.
  - destruct (Hstep st a) as (s1 & Hb & Hs1); [constructor|done|].
    cbn [for_each]. rewrite Hb. cbn [built_bind]. apply IH; [done|].
    intros s b Hb'. apply Hstep. by constructor.
Qed.

Section Accepted.

Variable T4_LANE T4_ROADEDGE T4_ROADLINE : list string.
Variable MAP_TYPE_MAPPING : gmap string PolylineType.
Variable uuid : string -> nat -> string.
Variable sqrtQ : Q -> Q.
Variable parse_float : string -> option Q.
Hypothesis sqrtQ_nonneg : forall x, 0 <= sqrtQ x.
Hypothesis covers :
  forall name, name ∈ T4_LANE ++ T4_ROADEDGE ++ T4_ROADLINE ++ ["crosswalk"%string] ->
               is_Some (MAP_TYPE_MAPPING !! name).

Lemma get_boundary_type_total (linestring : LineString3d) :
  exists t, _get_boundary_type T4_ROADEDGE T4_ROADLINE MAP_TYPE_MAPPING linestring
            = Built t.
Proof.
  unfold _get_boundary_type, _is_roadedge_linestring, _is_roadline_linestring, getitem.
  destruct (_is_virtual_linestring _ _); [by eexists|].
  destruct (bool_decide (_get_linestring_type linestring ∈ T4_ROADEDGE)) eqn:E1.
  - apply bool_decide_eq_true in E1.
    destruct (covers (_get_linestring_type linestring)) as [t ->]; [|by eexists].
    rewrite !elem_of_app. tauto.
  - destruct (bool_decide (_get_linestring_subtype linestring ∈ T4_ROADLINE)) eqn:E2;
      [|by eexists].
    apply bool_decide_eq_true in E2.
    destruct (covers (_get_linestring_subtype linestring)) as [t ->]; [|by eexists].
    rewrite !elem_of_app. tauto.
Qed.

Lemma interpolate_lane_total (w : list Point3) :
  w <> [] -> exists out, _interpolate_lane sqrtQ w = Ok out.
Proof.
  intros Hne.
  destruct w as [|p0 w'] eqn:E; [done|]. rewrite <- E.
  destruct (last_is_Some w) as [pn Hpn]; [by rewrite E|].
  destruct (interpolate_lane_returns sqrtQ sqrtQ_nonneg w p0 pn) as (out & _ & _ & H & _);
    [by rewrite E|done|].
  by exists out.
Qed.

Lemma interpolate_lane_two_points (w : list Point3) :
  positive_length sqrtQ w ->
  exists out, _interpolate_lane sqrtQ w = Ok out /\ (2 <= length out)%nat.
Proof.
  intros (total & Htotal & Hpos).
  assert (Hne : w <> []) by (by destruct w).
  destruct w as [|p0 w'] eqn:E; [done|]. rewrite <- E in *.
  destruct (last_is_Some w) as [pn Hpn]; [done|].
  destruct (interpolate_lane_returns sqrtQ sqrtQ_nonneg w p0 pn)
    as (out & _ & _ & H & _ & _ & _ & _ & Hlen & _); [by rewrite E|done|].
  exists out. split; [done|].
  unfold lane_samples in Hlen. rewrite Htotal in Hlen. simpl in Hlen.
  assert (0 < Qceiling (total / (1 # 2)))%Z; [|lia].
  pose proof (Qle_ceiling (total / (1 # 2))) as Hc.
  assert (Hq : 0 < total / (1 # 2)) by (apply Qlt_shift_div_l; lra).
  assert (Hq' : 0 < inject_Z (Qceiling (total / (1 # 2)))) by lra.
  change 0 with (inject_Z 0) in Hq'. by rewrite <- Zlt_Qlt in Hq'.
Qed.

Lemma get_boundary_segment_total (linestring : LineString3d) :
  linestring_points linestring <> [] ->
  exists b, _get_boundary_segment T4_ROADEDGE T4_ROADLINE MAP_TYPE_MAPPING sqrtQ
              linestring = Built b.
Proof.
  intros Hne. unfold _get_boundary_segment.
  destruct (get_boundary_type_total linestring) as [t ->]. cbn [built_bind].
  destruct (interpolate_lane_total _ Hne) as [w ->]. by eexists.
Qed.

Lemma fix_segment_total (s : LaneSegment) :
  left_boundaries s <> [] -> right_boundaries s <> [] ->
  Forall (fun w => (2 <= length w)%nat) (lane_polylines s) ->
  exists s', fix_segment sqrtQ s = Ok s'.
Proof.
  intros Hl Hr Hall. unfold fix_segment.
  unfold lane_polylines in Hall.
  destruct (left_boundaries s) as [|left0 ?]; [done|].
  destruct (right_boundaries s) as [|right0 ?]; [done|].
  simpl in Hall. cbn [index0 bind].
  apply Forall_cons in Hall as [Hc Hall].
  apply Forall_cons in Hall as [Hlw Hall].
  apply Forall_cons in Hall as [Hrw _].
  destruct (interpolate_points_samples sqrtQ _ 20 Hc) as (nc & -> & _); [lia|].
  destruct (interpolate_points_samples sqrtQ _ 20 Hlw) as (nl & -> & _); [lia|].
  destruct (interpolate_points_samples sqrtQ _ 20 Hrw) as (nr & -> & _); [lia|].
  cbn [bind].
  destruct (mean_xy_ok (waypoints (polyline s))) as [c ->];
    [destruct (waypoints (polyline s)); [simpl in Hc; lia|done]|].
  by eexists.
Qed.

Lemma convert_lanelet_total (filename : string) (lanelet_map : LaneletMap)
    (routing_graph : RoutingGraph) :
  convertible T4_LANE T4_ROADEDGE T4_ROADLINE MAP_TYPE_MAPPING sqrtQ parse_float
    lanelet_map ->
  exists m,
    convert_lanelet T4_LANE T4_ROADEDGE T4_ROADLINE MAP_TYPE_MAPPING uuid sqrtQ
      parse_float filename lanelet_map routing_graph = Built m.
Proof.
  intros [_ Hsub Hlen Hspeed Hcross Hbound]. unfold convert_lanelet.
  (* the regulatory elements *)
  destruct (for_each_total (fun _ => True)
              (fun traffic_lights regulatory_element =>
                 let? subtype := getitem (regulatory_attributes regulatory_element)
                                   "subtype" in
                 if bool_decide (subtype = "traffic_light"%string)
                 then Built (traffic_lights ++ [regulatory_element])
                 else Built traffic_lights)
              (regulatoryElementLayer lanelet_map) []) as (tl & Htl & _); [done| |].
  { intros s e He _. unfold getitem. destruct (Hsub e He) as [subtype ->].
    cbn [built_bind]. destruct (bool_decide _); by eexists. }
  unfold traffic_light_elements. rewrite Htl. cbn [built_bind].
  (* the lanelets *)
  destruct (for_each_total
              (fun st => Forall (fun kv =>
                                   left_boundaries (snd kv) <> []
                                   /\ right_boundaries (snd kv) <> []
                                   /\ Forall (fun w => (2 <= length w)%nat)
                                        (lane_polylines (snd kv)))
                           (loop_lane_segments st))
              (convert_one T4_LANE T4_ROADEDGE T4_ROADLINE MAP_TYPE_MAPPING sqrtQ
                 parse_float routing_graph)
              (laneletLayer lanelet_map) (mkLaneletLoop [] [] []))
    as (st & Hst & Hinv); [constructor| |].
  { intros s l Hl Hs. unfold convert_one.
    destruct (bool_decide (_get_lanelet_subtype (lanelet_of l) ∈ T4_LANE)) eqn:Hlane.
    - apply bool_decide_eq_true in Hlane.
      destruct (Hlen l Hl Hlane) as (Hc & Hlb & Hrb).
      unfold getitem.
      destruct (covers (_get_lanelet_subtype (lanelet_of l))) as [t ->];
        [rewrite !elem_of_app; tauto|].
      cbn [built_bind].
      destruct (interpolate_lane_two_points _ Hc) as (cw & -> & Hcw).
      cbn [of_result built_bind].
      destruct (_get_left_and_right_neighbor_ids l routing_graph) as [ln rn].
      assert (Hv : exists v, _get_speed_limit_mph parse_float (lanelet_of l) = Ok v).
      { unfold _get_speed_limit_mph.
        destruct (attributes (lanelet_of l) !! "speed_limit"%string) as [text|] eqn:Ht;
          [|by eexists].
        destruct (Hspeed l text Hl Hlane Ht) as [v ->]. by eexists. }
      destruct Hv as [v ->]. cbn [of_result built_bind _get_left_and_right_linestring].
      unfold _get_boundary_segment.
      destruct (get_boundary_type_total (leftBound l)) as [tl' ->]. cbn [built_bind].
      destruct (interpolate_lane_two_points _ Hlb) as (lw & -> & Hlw).
      cbn [of_result built_bind].
      destruct (get_boundary_type_total (rightBound l)) as [tr' ->]. cbn [built_bind].
      destruct (interpolate_lane_two_points _ Hrb) as (rw & -> & Hrw).
      cbn [of_result built_bind].
      eexists. split; [reflexivity|]. simpl.
      apply dict_set_Forall; [|done]. simpl. split_and!; [done|done|].
      unfold lane_polylines. simpl. repeat (constructor; [done|]). constructor.
    - destruct (bool_decide (_get_lanelet_subtype (lanelet_of l) = "crosswalk"%string))
        eqn:Hcw; [|by eexists].
      apply bool_decide_eq_true in Hcw.
      destruct (interpolate_lane_total (polygon3d l)) as [w ->]; [by apply Hcross|].
      cbn [of_result built_bind]. unfold getitem.
      destruct (covers (_get_lanelet_subtype (lanelet_of l))) as [t ->].
      { rewrite Hcw, !elem_of_app. right. right. right. constructor. }
      cbn [built_bind]. by eexists. }
  rewrite Hst. cbn [built_bind].
  (* the linestrings *)
  destruct (for_each_total (fun _ => True)
              (convert_linestring T4_ROADEDGE T4_ROADLINE MAP_TYPE_MAPPING sqrtQ
                 (taken_boundary_ids st))
              (lineStringLayer lanelet_map) []) as (bs & Hbs & _); [done| |].
  { intros s ls Hls _. unfold convert_linestring.
    destruct (_ && _) eqn:Hcond; [|by eexists].
    apply andb_true_iff in Hcond as [Htype _]. apply orb_true_iff in Htype.
    rewrite !bool_decide_eq_true in Htype.
    destruct (get_boundary_segment_total ls) as [b ->];
      [apply Hbound; [done|by apply elem_of_app]|].
    by eexists. }
  rewrite Hbs. cbn [built_bind].
  (* the point counts *)
  unfold _fix_point_num. cbn [lane_segments].
  destruct (mapM_total
              (fun kv : Z * LaneSegment =>
                 let* s := fix_segment sqrtQ (snd kv) in Ok (fst kv, s))
              (loop_lane_segments st)) as [segs Hsegs].
  { intros kv Hkv. rewrite Forall_forall in Hinv.
    destruct (Hinv kv Hkv) as (Hl & Hr & Hall).
    destruct (fix_segment_total (snd kv) Hl Hr Hall) as [s' ->]. by eexists. }
  apply mapM_Forall2 in Hsegs. rewrite Hsegs. by eexists.
Qed.

End Accepted.

(** ** Statements on the map construction *)

(** X19: [_fix_point_num] changes nothing but waypoints and centres: the
    map id, the crosswalk segments and the boundary segments of the map
    are returned as they are (their polylines keep the points of
    [_interpolate_lane]), the lanes keep their keys and their order, and
    every lane keeps its id, type, intersection flag, neighbours, speed
    limit, traffic lights and the ids and types of its boundaries; its
    centre is the mean of the centerline before the resampling. *)
Theorem fix_point_num_changes_waypoints_only sqrtQ (m m' : AWMLStaticMap) :
  _fix_point_num sqrtQ m = Ok m' ->
  map_id m' = map_id m
  /\ crosswalk_segments m' = crosswalk_segments m
  /\ boundary_segments m' = boundary_segments m
  /\ Forall2 (fun kv kv' => fst kv' = fst kv /\ same_lane (snd kv) (snd kv'))
       (lane_segments m) (lane_segments m').
Proof.
  intros H. apply fix_point_num_frame in H as (H1 & H2 & H3 & H4).
  split_and!; try done. eapply Forall2_impl; [exact H4|]. simpl. tauto.
Qed.

Lemma example_map_fixed : _fix_point_num Qsqrt_fix example_map = Ok example_fixed_map.
Proof. vm_compute. reflexivity. Qed.

Lemma fix_point_num_changes_waypoints_only_witness :
  _fix_point_num Qsqrt_fix example_map = Ok example_fixed_map
  /\ map_id example_fixed_map = map_id example_map
  /\ crosswalk_segments example_fixed_map = crosswalk_segments example_map
  /\ boundary_segments example_fixed_map = boundary_segments example_map
  /\ Forall2 (fun kv kv' => fst kv' = fst kv /\ same_lane (snd kv) (snd kv'))
       (lane_segments example_map) (lane_segments example_fixed_map).
Proof.
  split; [exact example_map_fixed|].
  exact (fix_point_num_changes_waypoints_only Qsqrt_fix example_map example_fixed_map
           example_map_fixed).
Defined.

Section ConvertLanelet.

Variable T4_LANE T4_ROADEDGE T4_ROADLINE : list string.
Variable MAP_TYPE_MAPPING : gmap string PolylineType.
Variable uuid : string -> nat -> string.
Variable sqrtQ : Q -> Q.
Variable parse_float : string -> option Q.

Abbreviation convert_lanelet'' :=
  (convert_lanelet T4_LANE T4_ROADEDGE T4_ROADLINE MAP_TYPE_MAPPING uuid sqrtQ
     parse_float).


(** X21: the lane segments of a converted map are the lanelets whose
    subtype is a lane name: every lane segment holds the data of such a
    lanelet of the layer (id, type, intersection flag, neighbours, speed
    limit in mph, traffic lights, ids of the bounds), and every such
    lanelet has a lane segment under its id; crosswalks and lanelets of
    other subtypes yield none. *)
Theorem converted_lanes_are_lane_lanelets (filename : string)
    (lanelet_map : LaneletMap) (routing_graph : RoutingGraph) (m : AWMLStaticMap) :
  convert_lanelet'' filename lanelet_map routing_graph = Built m ->
  Forall (from_layer T4_LANE MAP_TYPE_MAPPING parse_float routing_graph
            (laneletLayer lanelet_map))
    (lane_segments m)
  /\ forall l, l ∈ laneletLayer lanelet_map -> lane_lanelet T4_LANE l ->
       lanelet_id (lanelet_of l) ∈ map fst (lane_segments m).
Proof.
  intros Hconv. split.
  - eapply Forall_impl; [by eapply converted_lanes_from_layer|]. simpl. tauto.
  - intros l Hl Hlane.
    apply (converted_lane_keys T4_LANE T4_ROADEDGE T4_ROADLINE MAP_TYPE_MAPPING uuid
             sqrtQ parse_float filename lanelet_map routing_graph m _ Hconv).
    by exists l.
Qed.

(** X22: [convert_lanelet] accepts every loaded map that is [convertible]:
    it returns a map, without [KeyError], without [IndexError] on an empty
    array, without a refused line of one point and without a value
    outside the range of the interpolant. *)
Theorem convert_lanelet_accepts (filename : string) (lanelet_map : LaneletMap)
    (routing_graph : RoutingGraph) :
  (forall x, 0 <= sqrtQ x) ->
  convertible T4_LANE T4_ROADEDGE T4_ROADLINE MAP_TYPE_MAPPING sqrtQ parse_float
    lanelet_map ->
  exists m, convert_lanelet'' filename lanelet_map routing_graph = Built m.
Proof.
  intros Hs Hc. apply convert_lanelet_total; [done| |done]. by destruct Hc.
Qed.

(** X23: from the file to the tensors.  When [convert_lanelet] returns a
    map and every lanelet that became a lane carries a speed limit, the
    lane segments of the map can always be packed: for every matrix, ego
    position, range, recognition mapping and capacity,
    [create_lane_tensor] returns the packed tensors of the lanes in
    range. *)
Theorem converted_map_is_packed (filename : string) (lanelet_map : LaneletMap)
    (routing_graph : RoutingGraph) (m : AWMLStaticMap) (sqrtQ' : Q -> Q)
    (mat : Mat4) (cx cy r : Q) (tlr : gmap Z Z) (N : nat) :
  convert_lanelet'' filename lanelet_map routing_graph = Built m ->
  (forall l, l ∈ laneletLayer lanelet_map -> lane_lanelet T4_LANE l ->
             is_Some (attributes (lanelet_of l) !! "speed_limit"%string)) ->
  Forall (packable cx cy r) (map snd (lane_segments m))
  /\ exists out,
       create_lane_tensor sqrtQ' (map snd (lane_segments m)) mat cx cy r tlr N
       = (out, Ok (packed sqrtQ' (survivors mat cx cy r tlr (map snd (lane_segments m)))
                     N)).
Proof.
  intros Hconv Hspeed.
  assert (Hpack : Forall (packable cx cy r) (map snd (lane_segments m))).
  { apply converted_lanes_from_layer in Hconv. apply Forall_map.
    eapply Forall_impl; [exact Hconv|]. simpl.
    intros kv [(l & Hl & Hlane & _ & Hof) Htwenty]. split; [done|]. intros _.
    destruct Hof as (_ & _ & _ & _ & Hv & _).
    destruct (Hspeed l Hl Hlane) as [text Htext].
    unfold _get_speed_limit_mph in Hv. rewrite Htext in Hv.
    destruct (parse_float text); [|discriminate]. injection Hv as <-. by eexists. }
  split; [done|]. by apply create_lane_tensor_spec.
Qed.

End ConvertLanelet.

(** ** The small map, converted *)

Lemma example_map_converted :
  example_convert example_lanelet_map = Built example_converted_map.
Proof. vm_compute. reflexivity. Qed.

Lemma example_lane_lanelets (l : LaneletPrimitive) :
  l ∈ laneletLayer example_lanelet_map -> lane_lanelet example_T4_LANE l ->
  l = example_lane_lanelet.
Proof.
  intros Hl Hlane. apply elem_of_cons in Hl as [->|Hl]; [done|].
  apply list_elem_of_singleton in Hl as ->.
  unfold lane_lanelet in Hlane. vm_compute in Hlane.
  apply list_elem_of_singleton in Hlane. discriminate.
Qed.

Lemma example_map_convertible :
  convertible example_T4_LANE example_T4_ROADEDGE example_T4_ROADLINE
    example_MAP_TYPE_MAPPING Qsqrt_fix parse_decimal example_lanelet_map.
Proof.
  constructor.
  - intros name H. repeat (apply elem_of_cons in H as [->|H]; [by eexists|]).
    inversion H.
  - intros e H. apply list_elem_of_singleton in H as ->. by eexists.
  - intros l Hl Hlane. rewrite (example_lane_lanelets l Hl Hlane).
    split_and!; eexists; (split; [reflexivity|vm_compute; reflexivity]).
  - intros l text Hl Hlane. rewrite (example_lane_lanelets l Hl Hlane).
    intros [= <-]. by eexists.
  - intros l Hl Hsub. apply elem_of_cons in Hl as [->|Hl]; [discriminate|].
    by apply list_elem_of_singleton in Hl as ->.
  - intros ls Hl _. repeat (apply elem_of_cons in Hl as [->|Hl]; [done|]). inversion Hl.
Qed.


Lemma converted_lane_entities_witness :
  example_convert example_lanelet_map = Built example_converted_map
  /\ Forall (fun kv =>
              segment_id (snd kv) = fst kv
              /\ twenty_points (snd kv)
              /\ length (left_boundaries (snd kv)) = 1%nat
              /\ length (right_boundaries (snd kv)) = 1%nat
              /\ (length (left_neighbor_ids (snd kv)) <= 1)%nat
              /\ (length (right_neighbor_ids (snd kv)) <= 1)%nat)
       (lane_segments example_converted_map).
Proof.
  split; [exact example_map_converted|].
  exact (converted_lane_entities example_T4_LANE example_T4_ROADEDGE
           example_T4_ROADLINE example_MAP_TYPE_MAPPING example_uuid Qsqrt_fix
           parse_decimal "map.osm" example_lanelet_map example_routing_graph
           example_converted_map example_map_converted).
Defined.

Lemma converted_lanes_are_lane_lanelets_witness :
  example_convert example_lanelet_map = Built example_converted_map
  /\ Forall (from_layer example_T4_LANE example_MAP_TYPE_MAPPING parse_decimal
              example_routing_graph (laneletLayer example_lanelet_map))
       (lane_segments example_converted_map)
  /\ forall l, l ∈ laneletLayer example_lanelet_map ->
       lane_lanelet example_T4_LANE l ->
       lanelet_id (lanelet_of l) ∈ map fst (lane_segments example_converted_map).
Proof.
  split; [exact example_map_converted|].
  exact (converted_lanes_are_lane_lanelets example_T4_LANE example_T4_ROADEDGE
           example_T4_ROADLINE example_MAP_TYPE_MAPPING example_uuid Qsqrt_fix
           parse_decimal "map.osm" example_lanelet_map example_routing_graph
           example_converted_map example_map_converted).
Defined.

Lemma orphan_boundaries_unclaimed_witness :
  example_convert example_lanelet_map = Built example_converted_map
  /\ map fst (boundary_segments example_converted_map) = [12%Z]
  /\ Forall (fun kb =>
              (exists linestring,
                 linestring ∈ lineStringLayer example_lanelet_map
                 /\ linestring_id linestring = fst kb
                 /\ boundary_id (snd kb) = fst kb
                 /\ (_get_linestring_type linestring ∈ example_T4_ROADEDGE
                     \/ _get_linestring_type linestring ∈ example_T4_ROADLINE)
                 /\ _get_boundary_type example_T4_ROADEDGE example_T4_ROADLINE
                      example_MAP_TYPE_MAPPING linestring
                    = Built (polyline_type (boundary_polyline (snd kb)))
                 /\ _interpolate_lane Qsqrt_fix (linestring_points linestring)
                    = Ok (waypoints (boundary_polyline (snd kb))))
              /\ forall l, l ∈ laneletLayer example_lanelet_map ->
                   lane_lanelet example_T4_LANE l ->
                   fst kb <> linestring_id (leftBound l)
                   /\ fst kb <> linestring_id (rightBound l))
       (boundary_segments example_converted_map).
Proof.
  split; [exact example_map_converted|]. split; [vm_compute; reflexivity|].
  exact (orphan_boundaries_unclaimed example_T4_LANE example_T4_ROADEDGE
           example_T4_ROADLINE example_MAP_TYPE_MAPPING example_uuid Qsqrt_fix
           parse_decimal "map.osm" example_lanelet_map example_routing_graph
           example_converted_map example_map_converted).
Defined.

Lemma convert_lanelet_accepts_witness :
  (forall x, 0 <= Qsqrt_fix x)
  /\ convertible example_T4_LANE example_T4_ROADEDGE example_T4_ROADLINE
       example_MAP_TYPE_MAPPING Qsqrt_fix parse_decimal example_lanelet_map
  /\ exists m, example_convert example_lanelet_map = Built m.
Proof.
  split; [exact Qsqrt_fix_nonneg|]. split; [exact example_map_convertible|].
  exact (convert_lanelet_accepts example_T4_LANE example_T4_ROADEDGE
           example_T4_ROADLINE example_MAP_TYPE_MAPPING example_uuid Qsqrt_fix
           parse_decimal "map.osm" example_lanelet_map example_routing_graph
           Qsqrt_fix_nonneg example_map_convertible).
Defined.

Lemma example_lanes_have_speed (l : LaneletPrimitive) :
  l ∈ laneletLayer example_lanelet_map -> lane_lanelet example_T4_LANE l ->
  is_Some (attributes (lanelet_of l) !! "speed_limit"%string).
Proof.
  intros Hl Hlane. rewrite (example_lane_lanelets l Hl Hlane). by eexists.
Qed.

Lemma converted_map_is_packed_witness :
  example_convert example_lanelet_map = Built example_converted_map
  /\ (forall l, l ∈ laneletLayer example_lanelet_map ->
                lane_lanelet example_T4_LANE l ->
                is_Some (attributes (lanelet_of l) !! "speed_limit"%string))
  /\ Forall (packable 0 0 100) (map snd (lane_segments example_converted_map))
  /\ exists out,
       create_lane_tensor Qsqrt_fix (map snd (lane_segments example_converted_map))
         identity4 0 0 100 ∅ 3
       = (out, Ok (packed Qsqrt_fix
                     (survivors identity4 0 0 100 ∅
                        (map snd (lane_segments example_converted_map))) 3)).
Proof.
  split; [exact example_map_converted|]. split; [exact example_lanes_have_speed|].
  exact (converted_map_is_packed example_T4_LANE example_T4_ROADEDGE
           example_T4_ROADLINE example_MAP_TYPE_MAPPING example_uuid Qsqrt_fix
           parse_decimal "map.osm" example_lanelet_map example_routing_graph
           example_converted_map Qsqrt_fix identity4 0 0 100 ∅ 3
           example_map_converted example_lanes_have_speed).
Defined.

Lemma crosswalks_keep_polygon_points_witness :
  example_convert example_lanelet_map = Built example_converted_map
  /\ map fst (crosswalk_segments example_converted_map) = [2%Z]
  /\ Forall (crosswalk_from_layer example_T4_LANE example_MAP_TYPE_MAPPING Qsqrt_fix
              (laneletLayer example_lanelet_map))
       (crosswalk_segments example_converted_map).
Proof.
  split; [exact example_map_converted|]. split; [vm_compute; reflexivity|].
  exact (crosswalks_keep_polygon_points example_T4_LANE example_T4_ROADEDGE
           example_T4_ROADLINE example_MAP_TYPE_MAPPING example_uuid Qsqrt_fix
           parse_decimal "map.osm" example_lanelet_map example_routing_graph
           example_converted_map example_map_converted).
Defined.
